(** * CloudDrive backend: quota, permissions, versions, trash and shares

    A shallow embedding of the request handlers of
    [src/routes/file-operations.ts], [src/routes/share-operations.ts],
    [src/routes/users-routes.ts] and [src/routes/billing-routes.ts], of
    [src/utils/permissions.ts] and [src/utils/helpers.ts], and of the
    middleware in front of them ([src/middlewares/auth-middleware.ts], the
    multer instance of the file routes, the mounts of [src/server.ts]).

    The handlers are sequences of calls to a hosted relational store and a
    blob store.  The embedding keeps the tables the handlers touch as lists
    of rows (order and duplicates matter to [.single()] and
    [.maybeSingle()]), threads them through a small handler monad with
    early replies and exceptions, and takes everything a request cannot
    compute from the tables (clock, random names, generated ids, downstream
    failures) from an explicit environment.

    A [string] is the text of the JavaScript string it stands for in UTF-8,
    one [ascii] per byte, as the text travels in a request body. *)

From Stdlib Require Import ZArith List String Ascii Bool Lia.
Import ListNotations.

Local Open Scope string_scope.
Local Open Scope Z_scope.

(** ** Rows of the external store *)

Inductive Permission := PView | PEdit | PAdmin.
Inductive ShareType := Private | Public.
Inductive ChangeType := ChUpdate | ChRestore.

(** [files] table.  [id] is generated by the store; [is_folder],
    [is_starred] and [is_deleted] are store-side defaulted to [false]. *)
Record FileRow := mkFile {
  f_id : string;
  f_user_id : string;
  f_name : string;
  f_original_name : string;
  f_size : Z;
  f_type : string;
  f_mime_type : option string;
  f_extension : option string;
  f_path : string;
  f_parent_id : option string;
  f_is_folder : bool;
  f_is_starred : bool;
  f_is_deleted : bool;
  f_deleted_at : option Z
}.

(** [file_versions] table. *)
Record VersionRow := mkVersion {
  v_file_id : string;
  v_version_number : Z;
  v_size : Z;
  v_path : string;
  v_change_type : ChangeType;
  v_created_by : string
}.

(** [shares] table.  A targeted share leaves [share_type], [public_token]
    and [expires_at] to the store's defaults (private, null, null). *)
Record ShareRow := mkShare {
  s_id : string;
  s_file_id : string;
  s_owner_id : string;
  s_shared_with_email : string;
  s_permissions : Permission;
  s_share_type : ShareType;
  s_public_token : option string;
  s_expires_at : option Z
}.

(** [profiles] table, the two columns the handlers read. *)
Record ProfileRow := mkProfile {
  p_id : string;
  p_email : string
}.

(** [user_quotas] table; every counter is nullable, the code defaults each
    one separately with [??]. *)
Record QuotaRow := mkQuota {
  q_user_id : string;
  q_storage_used : option Z;
  q_storage_limit : option Z;
  q_file_count : option Z;
  q_file_count_limit : option Z
}.

(** One [io.to(room).emit(event, ...)]: room, event name, subject id. *)
Record Emitted := mkEmitted {
  e_room : string;
  e_event : string;
  e_subject : string
}.

(** The external state a request can read and change. *)
Record World := mkWorld {
  files : list FileRow;
  file_versions : list VersionRow;
  shares : list ShareRow;
  profiles : list ProfileRow;
  user_quotas : list QuotaRow;
  storage : list (string * string);   (* bucket "files": path, content *)
  emitted : list Emitted
}.

Definition set_files (fs : list FileRow) (w : World) : World :=
  mkWorld fs (file_versions w) (shares w) (profiles w) (user_quotas w)
          (storage w) (emitted w).
Definition set_file_versions (vs : list VersionRow) (w : World) : World :=
  mkWorld (files w) vs (shares w) (profiles w) (user_quotas w)
          (storage w) (emitted w).
Definition set_shares (ss : list ShareRow) (w : World) : World :=
  mkWorld (files w) (file_versions w) ss (profiles w) (user_quotas w)
          (storage w) (emitted w).
Definition set_storage (st : list (string * string)) (w : World) : World :=
  mkWorld (files w) (file_versions w) (shares w) (profiles w) (user_quotas w)
          st (emitted w).
Definition add_emitted (e : Emitted) (w : World) : World :=
  mkWorld (files w) (file_versions w) (shares w) (profiles w) (user_quotas w)
          (storage w) (emitted w ++ [e]).

(** ** What a request takes from outside the tables *)

(** The downstream calls whose outcome the tables do not decide. *)
Inductive ExtCall :=
| StorageUpload | StorageRemove | StorageSign
| FilesInsert | FilesUpdate | FilesDelete
| VersionsInsert | SharesInsert | SharesDelete.

Record Env := mkEnv {
  now : Z;                    (* new Date(), milliseconds *)
  stamp : string;             (* `${Date.now()}-${Math.random()...}` *)
  fresh_id : string;          (* id the store gives an inserted row *)
  fresh_token : string;       (* crypto.randomBytes(24).toString("hex") *)
  fails : ExtCall -> bool     (* which downstream calls report an error *)
}.

(** ** Responses *)

Inductive QuotaCode := STORAGE_LIMIT_EXCEEDED | FILE_COUNT_LIMIT_EXCEEDED.

(** Error texts.  The two quota messages are templates over the counters;
    their megabyte rendering ([toFixed(2)]) is left symbolic. *)
Inductive ErrorText :=
| Msg (s : string)
| StorageLimitMsg (used limit adds : Z)
| FileCountLimitMsg (limit : Z).

(** [createSignedUrl(path, expiresIn)]. *)
Record SignedUrl := mkSigned {
  su_path : string;
  su_expires_in : Z
}.

Record FileMeta := mkMeta {
  m_id : string;
  m_name : string;
  m_size : Z;
  m_type : string
}.

Inductive Body :=
| JError (error : ErrorText) (code : option QuotaCode)
| JMessage (message : string)
| JFile (message : string) (file : FileRow)
| JDownload (downloadUrl : SignedUrl) (file : FileMeta)
| JVersion (message : string) (version : VersionRow)
| JShare (message : string) (share : ShareRow)
| JPublicLink (message : string) (token : option string) (share : ShareRow).

Record Response := mkResponse {
  status : Z;
  body : Body
}.

Definition json (b : Body) : Response := mkResponse 200 b.
Definition error_json (code : Z) (msg : string) : Response :=
  mkResponse code (JError (Msg msg) None).

(** ** The handler monad: state, early reply, exception *)

Inductive Step (A : Type) :=
| Next (a : A)
| Reply (r : Response)
| Thrown.
Arguments Next {A} a.
Arguments Reply {A} r.
Arguments Thrown {A}.

Definition Handler (A : Type) := World -> Step A * World.

Definition ret {A} (a : A) : Handler A := fun w => (Next a, w).

Definition bind {A B} (m : Handler A) (k : A -> Handler B) : Handler B :=
  fun w =>
    match m w with
    | (Next a, w') => k a w'
    | (Reply r, w') => (Reply r, w')
    | (Thrown, w') => (Thrown, w')
    end.

Notation "x <- m ;; k" := (bind m (fun x => k))
  (at level 61, m at next level, right associativity).
Notation "m ;;; k" := (bind m (fun _ => k))
  (at level 61, right associativity).

Definition reply {A} (r : Response) : Handler A := fun w => (Reply r, w).
Definition throw {A} : Handler A := fun w => (Thrown, w).
Definition read : Handler World := fun w => (Next w, w).
Definition update (f : World -> World) : Handler unit :=
  fun w => (Next tt, f w).

(** [if (c) return res...] *)
Definition reply_if (c : bool) (r : Response) : Handler unit :=
  if c then reply r else ret tt.
(** [if (error) throw error] *)
Definition throw_if (c : bool) : Handler unit :=
  if c then throw else ret tt.

(** A route: the body of [try], with [catch] answering 500. *)
Definition route (m : Handler Response) (w : World) : Response * World :=
  match m w with
  | (Next r, w') => (r, w')
  | (Reply r, w') => (r, w')
  | (Thrown, w') => (error_json 500 "Internal server error", w')
  end.

(** ** Query results *)

(** [.single()]: data when exactly one row matches, an error otherwise. *)
Definition single {A} (rows : list A) : option A :=
  match rows with
  | [r] => Some r
  | _ => None
  end.

(** [.maybeSingle()]: data and error flag; no row is null without error,
    several rows are an error with null data. *)
Definition maybeSingle {A} (rows : list A) : option A * bool :=
  match rows with
  | [] => (None, false)
  | [r] => (Some r, false)
  | _ => (None, true)
  end.

(** JavaScript truthiness of a string. *)
Definition truthy (s : string) : bool := negb (s =? "")%string.

(** [x || null] on an optional string. *)
Definition or_null (x : option string) : option string :=
  match x with
  | Some s => if truthy s then Some s else None
  | None => None
  end.

(** ** Helpers of [file-operations.ts] *)

(** [s.split(sep)] for a one-character separator. *)
Fixpoint split (sep : ascii) (s : string) : list string :=
  match s with
  | EmptyString => [EmptyString]
  | String c s' =>
      if Ascii.eqb c sep then EmptyString :: split sep s'
      else match split sep s' with
           | [] => [String c EmptyString]
           | p :: ps => String c p :: ps
           end
  end.

(** [parts.length > 1 ? parts.pop() || null : null] *)
Definition getFileExt (name : string) : option string :=
  let parts := split "."%char name in
  if (1 <? Z.of_nat (List.length parts)) then
    let e := last parts "" in
    if truthy e then Some e else None
  else None.

(** [s.substring(n)] *)
Fixpoint drop (n : nat) (s : string) : string :=
  match n, s with
  | O, _ => s
  | S n', String _ s' => drop n' s'
  | S _, EmptyString => EmptyString
  end.

(** [String.prototype.trim] strips the WhiteSpace and LineTerminator code
    points of ECMAScript from both ends: U+0009 to U+000D, U+0020, U+00A0,
    U+1680, U+2000 to U+200A, U+2028, U+2029, U+202F, U+205F, U+3000 and
    U+FEFF.  [WHITE_SPACE] lists their UTF-8 encodings. *)
Definition bytes (codes : list nat) : string :=
  fold_right (fun n s => String (ascii_of_nat n) s) EmptyString codes.

Definition WHITE_SPACE : list string :=
  map bytes
      [ [9]; [10]; [11]; [12]; [13]; [32];
        [194; 160];
        [225; 154; 128];
        [226; 128; 128]; [226; 128; 129]; [226; 128; 130]; [226; 128; 131];
        [226; 128; 132]; [226; 128; 133]; [226; 128; 134]; [226; 128; 135];
        [226; 128; 136]; [226; 128; 137]; [226; 128; 138];
        [226; 128; 168]; [226; 128; 169]; [226; 128; 175];
        [226; 129; 159];
        [227; 128; 128];
        [239; 187; 191] ]%nat.

(** [s.endsWith(t)] *)
Definition ends_with (t s : string) : bool :=
  (String.length t <=? String.length s)%nat
  && (drop (String.length s - String.length t) s =? t)%string.

(** At most [fuel] white-space code points taken off the front; a string
    has no more of them than bytes. *)
Fixpoint strip_start (fuel : nat) (s : string) : string :=
  match fuel with
  | O => s
  | S k =>
      match find (fun ws => String.prefix ws s) WHITE_SPACE with
      | Some ws => strip_start k (drop (String.length ws) s)
      | None => s
      end
  end.

Fixpoint strip_end (fuel : nat) (s : string) : string :=
  match fuel with
  | O => s
  | S k =>
      match find (fun ws => ends_with ws s) WHITE_SPACE with
      | Some ws =>
          strip_end k
            (String.substring 0 (String.length s - String.length ws) s)
      | None => s
      end
  end.

Definition trim_left (s : string) : string :=
  strip_start (String.length s) s.

Definition trim_right (s : string) : string :=
  strip_end (String.length s) s.

Definition trim (s : string) : string := trim_right (trim_left s).

(** A multipart file part: what the request carries and, once multer has
    let it through, [req.file]. *)
Record Upload := mkUpload {
  originalname : string;
  mimetype : string;
  size : Z;
  buffer : string
}.

(** *** Quota ledger *)

Inductive QuotaCheck :=
| QuotaAllowed
| QuotaDenied (reason : ErrorText) (code : QuotaCode).

Definition DEFAULT_STORAGE_LIMIT : Z := 5 * 1024 * 1024 * 1024.
Definition DEFAULT_FILE_COUNT_LIMIT : Z := 10000.

(** The quota row of a user: [.eq("user_id", userId).maybeSingle()], the
    error being dropped by the destructuring. *)
Definition quota_of (w : World) (userId : string) : option QuotaRow :=
  fst (maybeSingle
         (filter (fun q => (q_user_id q =? userId)%string) (user_quotas w))).

(** [quota?.field ?? dflt] *)
Definition quota_field (quota : option QuotaRow)
           (field : QuotaRow -> option Z) (dflt : Z) : Z :=
  match quota with
  | Some q => match field q with Some v => v | None => dflt end
  | None => dflt
  end.

(** The four counters as the check reads them. *)
Definition storageLimit_of (w : World) (userId : string) : Z :=
  quota_field (quota_of w userId) q_storage_limit DEFAULT_STORAGE_LIMIT.
Definition storageUsed_of (w : World) (userId : string) : Z :=
  quota_field (quota_of w userId) q_storage_used 0.
Definition fileCount_of (w : World) (userId : string) : Z :=
  quota_field (quota_of w userId) q_file_count 0.
Definition fileCountLimit_of (w : World) (userId : string) : Z :=
  quota_field (quota_of w userId) q_file_count_limit DEFAULT_FILE_COUNT_LIMIT.

Definition enforceQuotaOnUpload (w : World) (userId : string)
           (newFileSize : Z) : QuotaCheck :=
  let storageLimit := storageLimit_of w userId in
  let storageUsed := storageUsed_of w userId in
  let fileCount := fileCount_of w userId in
  let fileCountLimit := fileCountLimit_of w userId in
  if storageLimit <? storageUsed + newFileSize then
    QuotaDenied (StorageLimitMsg storageUsed storageLimit newFileSize)
                STORAGE_LIMIT_EXCEEDED
  else if fileCountLimit <? fileCount + 1 then
    QuotaDenied (FileCountLimitMsg fileCountLimit) FILE_COUNT_LIMIT_EXCEEDED
  else QuotaAllowed.

(** *** Downstream calls; each returns whether it reported an error *)

(** [storage.from("files").upload(path, buffer, { upsert: false })] *)
Definition storage_upload (env : Env) (path content : string)
  : Handler bool :=
  fun w =>
    if fails env StorageUpload
       || existsb (fun o => (fst o =? path)%string) (storage w)
    then (Next true, w)
    else (Next false, set_storage (storage w ++ [(path, content)]) w).

(** [storage.from("files").remove([path])] *)
Definition storage_remove (env : Env) (path : string) : Handler bool :=
  fun w =>
    if fails env StorageRemove then (Next true, w)
    else (Next false,
          set_storage
            (filter (fun o => negb (fst o =? path)%string) (storage w)) w).

(** [storage.from("files").createSignedUrl(path, expiresIn)] *)
Definition storage_sign (env : Env) (path : string) (expiresIn : Z)
  : option SignedUrl :=
  if fails env StorageSign then None else Some (mkSigned path expiresIn).

(** [from("files").insert([row])] *)
Definition files_insert (env : Env) (row : FileRow) : Handler bool :=
  fun w =>
    if fails env FilesInsert then (Next true, w)
    else (Next false, set_files (files w ++ [row]) w).

(** [from("files").update(change).eq("id", fileId)] *)
Definition files_update (env : Env) (fileId : string)
           (change : FileRow -> FileRow) : Handler bool :=
  fun w =>
    if fails env FilesUpdate then (Next true, w)
    else (Next false,
          set_files
            (map (fun f => if (f_id f =? fileId)%string then change f else f)
                 (files w)) w).

(** [from("files").delete().eq("id", fileId)] *)
Definition files_delete (env : Env) (fileId : string) : Handler bool :=
  fun w =>
    if fails env FilesDelete then (Next true, w)
    else (Next false,
          set_files
            (filter (fun f => negb (f_id f =? fileId)%string) (files w)) w).

(** [from("file_versions").insert([row])] *)
Definition versions_insert (env : Env) (row : VersionRow) : Handler bool :=
  fun w =>
    if fails env VersionsInsert then (Next true, w)
    else (Next false, set_file_versions (file_versions w ++ [row]) w).

Definition emit (userId event subject : string) : Handler unit :=
  update (add_emitted (mkEmitted ("user:" ++ userId) event subject)).

(** The caller's row: [.eq("id", fileId).eq("user_id", userId).single()] *)
Definition owned_file (w : World) (userId fileId : string) : option FileRow :=
  single (filter (fun f => (f_id f =? fileId)%string
                           && (f_user_id f =? userId)%string) (files w)).

(** *** The multer instance of the two upload routes *)

(** [limits: { fileSize: 100 * 1024 * 1024 }] *)
Definition MAX_FILE_SIZE : Z := 100 * 1024 * 1024.

(** What [upload.single("file")] makes of the file part of a request, if
    it has one: the part becomes [req.file], unless it reaches the size
    limit; multer then passes a LIMIT_FILE_SIZE error to [next] and the
    handler of the route is not run. *)
Inductive Multer :=
| LimitFileSize
| Parsed (file : option Upload).

Definition upload_single (part : option Upload) : Multer :=
  match part with
  | Some f => if MAX_FILE_SIZE <=? size f then LimitFileSize
              else Parsed (Some f)
  | None => Parsed None
  end.

(** The error-handling middleware of [server.ts], which answers the error
    a middleware passes on. *)
Definition server_error : Response :=
  error_json 500 "Something went wrong!".

(** *** POST /upload *)

(** The handler of the route; [file] is [req.file], the part
    [upload_single] let through.  [uploadEndpoint] below is the route with
    the middleware in front. *)
Definition uploadRoute (env : Env) (userId : string) (file : option Upload)
           (parentId : option string) : World -> Response * World :=
  route (
    match file with
    | None => reply (error_json 400 "No file uploaded")
    | Some file =>
        w <- read ;;
        match enforceQuotaOnUpload w userId (size file) with
        | QuotaDenied reason code =>
            reply (mkResponse 403 (JError reason (Some code)))
        | QuotaAllowed =>
            let fileExt := getFileExt (originalname file) in
            let fileName :=
              stamp env ++ match fileExt with
                           | Some e => "." ++ e
                           | None => ""
                           end in
            let path := userId ++ "/" ++ fileName in
            uploadError <- storage_upload env path (buffer file) ;;
            throw_if uploadError ;;;
            let row :=
              mkFile (fresh_id env) userId (originalname file)
                     (originalname file) (size file) (mimetype file)
                     (Some (mimetype file)) fileExt path (or_null parentId)
                     false false false None in
            dbError <- files_insert env row ;;
            throw_if dbError ;;;
            emit userId "file:created" (f_id row) ;;;
            ret (json (JFile "File uploaded successfully" row))
        end
    end).

(** The route as mounted: [upload.single("file")], then the handler. *)
Definition uploadEndpoint (env : Env) (userId : string)
           (part : option Upload) (parentId : option string)
  : World -> Response * World :=
  fun w =>
    match upload_single part with
    | LimitFileSize => (server_error, w)
    | Parsed file => uploadRoute env userId file parentId w
    end.

(** ** [utils/permissions.ts] *)

Inductive PermissionLevel := LView | LEdit | LOwner.

Definition level_eqb (a b : PermissionLevel) : bool :=
  match a, b with
  | LView, LView | LEdit, LEdit | LOwner, LOwner => true
  | _, _ => false
  end.

Record PermResult := mkPerm {
  allowed : bool;
  level : option PermissionLevel
}.

Definition getCurrentUserEmail (w : World) (userId : string)
  : option string :=
  match single (filter (fun p => (p_id p =? userId)%string) (profiles w)) with
  | Some user => Some (p_email user)
  | None => None
  end.

Definition isOwner (w : World) (userId fileId : string) : bool :=
  match maybeSingle
          (filter (fun f => (f_id f =? fileId)%string
                            && (f_user_id f =? userId)%string) (files w)) with
  | (_, true) => false
  | (Some _, false) => true
  | (None, false) => false
  end.

(** The rows [.eq("file_id", fileId).eq("shared_with_email", email)]
    selects; the query names no [share_type]. *)
Definition shares_for (w : World) (fileId email : string) : list ShareRow :=
  filter (fun s => (s_file_id s =? fileId)%string
                   && (s_shared_with_email s =? email)%string) (shares w).

Definition hasFilePermission (w : World) (userId fileId : string)
           (needed : PermissionLevel) : PermResult :=
  if isOwner w userId fileId then mkPerm true (Some LOwner)
  else if level_eqb needed LOwner then mkPerm false None
  else
    match getCurrentUserEmail w userId with
    | None => mkPerm false None
    | Some email =>
        if negb (truthy email) then mkPerm false None
        else
          match maybeSingle (shares_for w fileId email) with
          | (_, true) => mkPerm false None
          | (None, false) => mkPerm false None
          | (Some share, false) =>
              let level :=
                match s_permissions share with
                | PView => LView
                | _ => LEdit
                end in
              match needed with
              | LView => mkPerm true (Some level)
              | LEdit => mkPerm (level_eqb level LEdit) (Some level)
              | LOwner => mkPerm false None
              end
          end
    end.

(** ** Routes of [file-operations.ts], continued *)

(** *** PATCH /:id *)

(** The JSON body: [name] when it is a string, [parentId] when defined
    (null or a string), [starred] when it is a boolean. *)
Record PatchBody := mkPatch {
  pb_name : option string;
  pb_parentId : option (option string);
  pb_starred : option bool
}.

(** The [update] object the route builds; [name] sets two columns. *)
Record FileChange := mkChange {
  ch_name : option string;
  ch_parent_id : option (option string);
  ch_is_starred : option bool
}.

Definition patch_change (b : PatchBody) : FileChange :=
  mkChange
    (match pb_name b with
     | Some n => if truthy (trim n) then Some (trim n) else None
     | None => None
     end)
    (match pb_parentId b with
     | Some p => Some (or_null p)
     | None => None
     end)
    (pb_starred b).

(** [Object.keys(update).length === 0] *)
Definition no_keys (c : FileChange) : bool :=
  match ch_name c, ch_parent_id c, ch_is_starred c with
  | None, None, None => true
  | _, _, _ => false
  end.

Definition apply_change (c : FileChange) (f : FileRow) : FileRow :=
  mkFile (f_id f) (f_user_id f)
         (match ch_name c with Some n => n | None => f_name f end)
         (match ch_name c with Some n => n | None => f_original_name f end)
         (f_size f) (f_type f) (f_mime_type f) (f_extension f) (f_path f)
         (match ch_parent_id c with Some p => p | None => f_parent_id f end)
         (f_is_folder f)
         (match ch_is_starred c with Some b => b | None => f_is_starred f end)
         (f_is_deleted f) (f_deleted_at f).

(** [from("files").update(change).eq("id", fileId).select().single()]: the
    updated row, or an error (and no change) unless exactly one row
    matches. *)
Definition files_update_single (env : Env) (fileId : string)
           (change : FileRow -> FileRow) : Handler (option FileRow) :=
  fun w =>
    match single (filter (fun f => (f_id f =? fileId)%string) (files w)) with
    | Some f =>
        if fails env FilesUpdate then (Next None, w)
        else (Next (Some (change f)),
              set_files
                (map (fun g => if (f_id g =? fileId)%string
                               then change g else g) (files w)) w)
    | None => (Next None, w)
    end.

Definition patchRoute (env : Env) (userId fileId : string) (b : PatchBody)
  : World -> Response * World :=
  route (
    w <- read ;;
    match owned_file w userId fileId with
    | None => reply (error_json 404 "File not found")
    | Some _ =>
        let change := patch_change b in
        reply_if (no_keys change) (error_json 400 "No changes provided") ;;;
        updated <- files_update_single env fileId (apply_change change) ;;
        match updated with
        | None => throw
        | Some updated =>
            emit userId "file:updated" (f_id updated) ;;;
            ret (json (JFile "File updated" updated))
        end
    end).

(** *** DELETE /:id (move to trash) *)

Definition mark_deleted (at_ : Z) (f : FileRow) : FileRow :=
  mkFile (f_id f) (f_user_id f) (f_name f) (f_original_name f) (f_size f)
         (f_type f) (f_mime_type f) (f_extension f) (f_path f)
         (f_parent_id f) (f_is_folder f) (f_is_starred f) true (Some at_).

Definition softDeleteRoute (env : Env) (userId fileId : string)
  : World -> Response * World :=
  route (
    w <- read ;;
    match owned_file w userId fileId with
    | None => reply (error_json 404 "File not found")
    | Some file =>
        reply_if (f_is_deleted file)
                 (error_json 409 "File already in trash") ;;;
        dbError <- files_update env fileId (mark_deleted (now env)) ;;
        throw_if dbError ;;;
        emit userId "file:deleted" fileId ;;;
        ret (json (JMessage "File moved to trash"))
    end).

(** *** POST /:id/restore (out of trash) *)

Definition mark_restored (f : FileRow) : FileRow :=
  mkFile (f_id f) (f_user_id f) (f_name f) (f_original_name f) (f_size f)
         (f_type f) (f_mime_type f) (f_extension f) (f_path f)
         (f_parent_id f) (f_is_folder f) (f_is_starred f) false None.

Definition restoreRoute (env : Env) (userId fileId : string)
  : World -> Response * World :=
  route (
    w <- read ;;
    match owned_file w userId fileId with
    | None => reply (error_json 404 "File not found")
    | Some file =>
        reply_if (negb (f_is_deleted file))
                 (error_json 409 "File is not in trash") ;;;
        dbError <- files_update env fileId mark_restored ;;
        throw_if dbError ;;;
        emit userId "file:restored" fileId ;;;
        ret (json (JMessage "File restored"))
    end).

(** *** DELETE /:id/permanent *)

Definition permanentDeleteRoute (env : Env) (userId fileId : string)
  : World -> Response * World :=
  route (
    w <- read ;;
    match owned_file w userId fileId with
    | None => reply (error_json 404 "File not found")
    | Some file =>
        (* a storage error is logged and dropped *)
        (if truthy (f_path file)
         then storage_remove env (f_path file) ;;; ret tt
         else ret tt) ;;;
        dbError <- files_delete env fileId ;;
        throw_if dbError ;;;
        emit userId "file:deleted" fileId ;;;
        ret (json (JMessage "File permanently deleted"))
    end).

(** *** GET /:id/download *)

Definition downloadRoute (env : Env) (userId fileId : string)
  : World -> Response * World :=
  route (
    w <- read ;;
    let perm := hasFilePermission w userId fileId LView in
    reply_if (negb (allowed perm)) (error_json 403 "Access denied") ;;;
    match single (filter (fun f => (f_id f =? fileId)%string
                                   && Bool.eqb (f_is_deleted f) false)
                         (files w)) with
    | None => reply (error_json 404 "File not found")
    | Some file =>
        match storage_sign env (f_path file) 3600 with
        | None => throw
        | Some signedUrl =>
            ret (json (JDownload signedUrl
                         (mkMeta (f_id file) (f_name file) (f_size file)
                                 (f_type file))))
        end
    end).

(** *** POST /folders *)

Definition createFolderRoute (env : Env) (userId : string)
           (name : option string) (parentId : option string)
  : World -> Response * World :=
  route (
    match name with
    | None => reply (error_json 400 "Folder name is required")
    | Some name =>
        reply_if (negb (truthy name) || negb (truthy (trim name)))
                 (error_json 400 "Folder name is required") ;;;
        let folder :=
          mkFile (fresh_id env) userId (trim name) (trim name) 0 "folder"
                 None None (userId ++ "/folders/" ++ stamp env)
                 (or_null parentId) true false false None in
        error <- files_insert env folder ;;
        throw_if error ;;;
        emit userId "folder:created" (f_id folder) ;;;
        ret (json (JFile "Folder created" folder))
    end).

(** *** POST /:id/versions *)

(** The rows of a file: [from("file_versions").eq("file_id", fileId)]. *)
Definition versions_of (w : World) (fileId : string) : list VersionRow :=
  filter (fun v => (v_file_id v =? fileId)%string) (file_versions w).

(** The number of the row
    [.order("version_number", { ascending: false }).limit(1).maybeSingle()]
    returns: the largest one, null when there is no row. *)
Definition largest_number (vs : list VersionRow) : option Z :=
  fold_right
    (fun v acc =>
       match acc with
       | None => Some (v_version_number v)
       | Some m => Some (Z.max (v_version_number v) m)
       end)
    None vs.

Definition last_version_number (w : World) (fileId : string) : option Z :=
  largest_number (versions_of w fileId).

(** [(lastVersion?.version_number ?? 0) + 1] *)
Definition next_version (w : World) (fileId : string) : Z :=
  match last_version_number w fileId with
  | Some n => n + 1
  | None => 0 + 1
  end.

(** The columns a new version writes on the file; an undefined
    [extension] is not sent and leaves the column as it is. *)
Definition mirror_version (blob : Upload) (ext : option string)
           (versionPath : string) (f : FileRow) : FileRow :=
  mkFile (f_id f) (f_user_id f) (f_name f) (f_original_name f) (size blob)
         (mimetype blob) (Some (mimetype blob))
         (match ext with Some e => Some e | None => f_extension f end)
         versionPath (f_parent_id f) (f_is_folder f) (f_is_starred f)
         (f_is_deleted f) (f_deleted_at f).

(** The handler of the route; [fileBlob] is [req.file], the part
    [upload_single] let through. *)
Definition createVersionRoute (env : Env) (userId fileId : string)
           (fileBlob : option Upload) : World -> Response * World :=
  route (
    match fileBlob with
    | None => reply (error_json 400 "No file uploaded")
    | Some fileBlob =>
        w <- read ;;
        match single (filter (fun f => (f_id f =? fileId)%string
                                       && (f_user_id f =? userId)%string
                                       && Bool.eqb (f_is_deleted f) false)
                             (files w)) with
        | None => reply (error_json 404 "File not found")
        | Some _ =>
            let ext := getFileExt (originalname fileBlob) in
            let versionName :=
              stamp env ++ match ext with
                           | Some e => "." ++ e
                           | None => ""
                           end in
            let versionPath :=
              userId ++ "/versions/" ++ fileId ++ "/" ++ versionName in
            upErr <- storage_upload env versionPath (buffer fileBlob) ;;
            throw_if upErr ;;;
            w1 <- read ;;
            let nextVersion := next_version w1 fileId in
            let version :=
              mkVersion fileId nextVersion (size fileBlob) versionPath
                        ChUpdate userId in
            verErr <- versions_insert env version ;;
            throw_if verErr ;;;
            updErr <- files_update env fileId
                        (mirror_version fileBlob ext versionPath) ;;
            throw_if updErr ;;;
            emit userId "file:updated" fileId ;;;
            ret (json (JVersion "New version created" version))
        end
    end).

(** The route as mounted: [upload.single("file")], then the handler. *)
Definition createVersionEndpoint (env : Env) (userId fileId : string)
           (part : option Upload) : World -> Response * World :=
  fun w =>
    match upload_single part with
    | LimitFileSize => (server_error, w)
    | Parsed fileBlob => createVersionRoute env userId fileId fileBlob w
    end.

(** *** POST /:id/versions/:versionNumber/restore *)

Definition point_at (path : string) (sz : Z) (f : FileRow) : FileRow :=
  mkFile (f_id f) (f_user_id f) (f_name f) (f_original_name f) sz
         (f_type f) (f_mime_type f) (f_extension f) path
         (f_parent_id f) (f_is_folder f) (f_is_starred f)
         (f_is_deleted f) (f_deleted_at f).

(** [versionNumber] is [parseInt(req.params.versionNumber, 10)], [None]
    standing for NaN. *)
Definition restoreVersionRoute (env : Env) (userId fileId : string)
           (versionNumber : option Z) : World -> Response * World :=
  route (
    match versionNumber with
    | None => reply (error_json 400 "Invalid version number")
    | Some versionNumber =>
        w <- read ;;
        match owned_file w userId fileId with
        | None => reply (error_json 404 "File not found")
        | Some _ =>
            match single
                    (filter (fun v => (v_file_id v =? fileId)%string
                                      && (v_version_number v =? versionNumber))
                            (file_versions w)) with
            | None => reply (error_json 404 "Version not found")
            | Some version =>
                updErr <- files_update env fileId
                            (point_at (v_path version) (v_size version)) ;;
                throw_if updErr ;;;
                w1 <- read ;;
                let nextVersion := next_version w1 fileId in
                recErr <- versions_insert env
                            (mkVersion fileId nextVersion (v_size version)
                                       (v_path version) ChRestore userId) ;;
                throw_if recErr ;;;
                emit userId "file:updated" fileId ;;;
                ret (json (JMessage "File restored to selected version"))
            end
        end
    end).

(** ** Routes of [share-operations.ts] *)

(** [["view", "edit", "admin"].includes(permissions)] and the value. *)
Definition parse_permission (s : string) : option Permission :=
  if (s =? "view")%string then Some PView
  else if (s =? "edit")%string then Some PEdit
  else if (s =? "admin")%string then Some PAdmin
  else None.

(** [from("shares").insert([row])] *)
Definition shares_insert (env : Env) (row : ShareRow) : Handler bool :=
  fun w =>
    if fails env SharesInsert then (Next true, w)
    else (Next false, set_shares (shares w ++ [row]) w).

(** [from("shares").delete()] with its [eq] filters as a predicate *)
Definition shares_delete (env : Env) (sel : ShareRow -> bool)
  : Handler bool :=
  fun w =>
    if fails env SharesDelete then (Next true, w)
    else (Next false,
          set_shares (filter (fun s => negb (sel s)) (shares w)) w).

(** *** POST /:fileId/share *)

(** The double quote, and the text of the 400 for a permission that is
    none of the three, which names them in double quotes. *)
Definition dq : string := String (ascii_of_nat 34) EmptyString.

Definition INVALID_PERMISSIONS : string :=
  "Invalid permissions. Must be " ++ dq ++ "view" ++ dq ++ ", "
  ++ dq ++ "edit" ++ dq ++ " or " ++ dq ++ "admin" ++ dq.

(** The JSON body; [permissions] defaults to "view" when undefined. *)
Record ShareBody := mkShareBody {
  sb_email : option string;
  sb_permissions : option string
}.

(** [const { email, permissions = "view" } = req.body] *)
Definition requested_permissions (b : ShareBody) : string :=
  match sb_permissions b with
  | Some p => p
  | None => "view"
  end.

Definition createShareRoute (env : Env) (userId fileId : string)
           (b : ShareBody) : World -> Response * World :=
  route (
    let permissions := requested_permissions b in
    match sb_email b with
    | None => reply (error_json 400 "Email is required")
    | Some email =>
        reply_if (negb (truthy email)) (error_json 400 "Email is required") ;;;
        match parse_permission permissions with
        | None =>
            reply (error_json 400 INVALID_PERMISSIONS)
        | Some perm =>
            w <- read ;;
            match owned_file w userId fileId with
            | None => reply (error_json 404 "File not found")
            | Some _ =>
                match single (filter (fun p => (p_email p =? email)%string)
                                     (profiles w)) with
                | None => reply (error_json 404 "User not found")
                | Some _ =>
                    match fst (maybeSingle (shares_for w fileId email)) with
                    | Some _ =>
                        reply (error_json 409
                                 "File already shared with this user")
                    | None =>
                        let share :=
                          mkShare (fresh_id env) fileId userId email perm
                                  Private None None in
                        shareError <- shares_insert env share ;;
                        throw_if shareError ;;;
                        emit userId "share:created" (s_id share) ;;;
                        ret (json (JShare "File shared successfully" share))
                    end
                end
            end
        end
    end).

(** *** DELETE /:fileId/shares/:shareId *)

Definition revokeShareRoute (env : Env) (userId fileId shareId : string)
  : World -> Response * World :=
  route (
    w <- read ;;
    match owned_file w userId fileId with
    | None => reply (error_json 404 "File not found")
    | Some _ =>
        deleteError <- shares_delete env
                         (fun s => (s_id s =? shareId)%string
                                   && (s_file_id s =? fileId)%string) ;;
        throw_if deleteError ;;;
        emit userId "share:revoked" shareId ;;;
        ret (json (JMessage "Share revoked successfully"))
    end).

(** *** POST /:fileId/public *)

(** [expiresAt] is the timestamp the body carries, [None] when it is
    absent or empty ([expiresAt || null]). *)
Definition createPublicLinkRoute (env : Env) (userId fileId : string)
           (expiresAt : option Z) : World -> Response * World :=
  route (
    w <- read ;;
    match owned_file w userId fileId with
    | None => reply (error_json 404 "File not found")
    | Some _ =>
        let publicToken := fresh_token env in
        let share :=
          mkShare (fresh_id env) fileId userId "" PView Public
                  (Some publicToken) expiresAt in
        error <- shares_insert env share ;;
        throw_if error ;;;
        ret (json (JPublicLink "Public link created"
                               (s_public_token share) share))
    end).

(** *** GET /public/:token (no authentication) *)

Definition token_is (token : string) (s : ShareRow) : bool :=
  match s_public_token s with
  | Some t => (t =? token)%string
  | None => false
  end.

Definition is_public (s : ShareRow) : bool :=
  match s_share_type s with
  | Public => true
  | Private => false
  end.

(** [share.expires_at && new Date(share.expires_at) < new Date()] *)
Definition expired (env : Env) (s : ShareRow) : bool :=
  match s_expires_at s with
  | Some t => t <? now env
  | None => false
  end.

(** The embedded [files ( id, name, size, type, path )] of a share: the
    row its [file_id] references, null when there is none. *)
Definition share_file (w : World) (s : ShareRow) : option FileRow :=
  find (fun f => (f_id f =? s_file_id s)%string) (files w).

Definition resolvePublicLinkRoute (env : Env) (token : string)
  : World -> Response * World :=
  route (
    w <- read ;;
    match maybeSingle
            (filter (fun s => token_is token s && is_public s) (shares w)) with
    | (_, true) => throw
    | (None, false) => reply (error_json 404 "Link not found")
    | (Some share, false) =>
        reply_if (expired env share) (error_json 410 "Link expired") ;;;
        match share_file w share with
        | None => throw   (* reading [.path] of null *)
        | Some file =>
            match storage_sign env (f_path file) 3600 with
            | None => throw
            | Some signed =>
                ret (json (JDownload signed
                             (mkMeta (f_id file) (f_name file) (f_size file)
                                     (f_type file))))
            end
        end
    end).

(** *** DELETE /public/:token *)

Definition revokePublicLinkRoute (env : Env) (userId token : string)
  : World -> Response * World :=
  route (
    error <- shares_delete env
               (fun s => token_is token s
                         && (s_owner_id s =? userId)%string) ;;
    throw_if error ;;;
    ret (json (JMessage "Public link revoked"))).

(** ** The service: one request at a time *)

(** A request as it reaches its handler, behind the authentication
    middleware and, for the two upload routes, behind multer. *)
Inductive Request :=
| ReqUpload (userId : string) (file : option Upload)
            (parentId : option string)
| ReqCreateFolder (userId : string) (name parentId : option string)
| ReqPatch (userId fileId : string) (b : PatchBody)
| ReqSoftDelete (userId fileId : string)
| ReqRestore (userId fileId : string)
| ReqPermanentDelete (userId fileId : string)
| ReqDownload (userId fileId : string)
| ReqCreateVersion (userId fileId : string) (fileBlob : option Upload)
| ReqRestoreVersion (userId fileId : string) (versionNumber : option Z)
| ReqCreateShare (userId fileId : string) (b : ShareBody)
| ReqRevokeShare (userId fileId shareId : string)
| ReqCreatePublicLink (userId fileId : string) (expiresAt : option Z)
| ReqResolvePublicLink (token : string)
| ReqRevokePublicLink (userId token : string).

Definition serve (env : Env) (r : Request) : World -> Response * World :=
  match r with
  | ReqUpload u f p => uploadRoute env u f p
  | ReqCreateFolder u n p => createFolderRoute env u n p
  | ReqPatch u i b => patchRoute env u i b
  | ReqSoftDelete u i => softDeleteRoute env u i
  | ReqRestore u i => restoreRoute env u i
  | ReqPermanentDelete u i => permanentDeleteRoute env u i
  | ReqDownload u i => downloadRoute env u i
  | ReqCreateVersion u i b => createVersionRoute env u i b
  | ReqRestoreVersion u i n => restoreVersionRoute env u i n
  | ReqCreateShare u i b => createShareRoute env u i b
  | ReqRevokeShare u i s => revokeShareRoute env u i s
  | ReqCreatePublicLink u i e => createPublicLinkRoute env u i e
  | ReqResolvePublicLink t => resolvePublicLinkRoute env t
  | ReqRevokePublicLink u t => revokePublicLinkRoute env u t
  end.

(** Serialized requests, each with its own environment; the responses in
    order and the final state. *)
Fixpoint serve_all (reqs : list (Env * Request)) (w : World)
  : list Response * World :=
  match reqs with
  | [] => ([], w)
  | (env, r) :: rest =>
      let (resp, w1) := serve env r w in
      let (resps, w2) := serve_all rest w1 in
      (resp :: resps, w2)
  end.

(** ** Properties of the store the statements speak of *)

Fixpoint distinct (l : list string) : bool :=
  match l with
  | [] => true
  | x :: rest => negb (existsb (String.eqb x) rest) && distinct rest
  end.

(** [files.id] is a key. *)
Definition file_ids_unique (w : World) : bool :=
  distinct (map f_id (files w)).

(** A share is public exactly when it carries the empty-string email. *)
Definition share_typed (s : ShareRow) : bool :=
  Bool.eqb (is_public s) (s_shared_with_email s =? "")%string.

(** No other row has the (file, email) pair of a share with an email. *)
Definition share_alone (w : World) (s : ShareRow) : bool :=
  (s_shared_with_email s =? "")%string
  || (List.length (shares_for w (s_file_id s) (s_shared_with_email s))
      <=? 1)%nat.

Definition shares_wf (w : World) : bool :=
  forallb share_typed (shares w) && forallb (share_alone w) (shares w).

Definition private_shares_for (w : World) (fileId email : string)
  : list ShareRow :=
  filter (fun s => negb (is_public s)
                   && (s_file_id s =? fileId)%string
                   && (s_shared_with_email s =? email)%string) (shares w).

(** At most one private share per (file id, shared_with_email) pair. *)
Definition one_private_share_per_pair (w : World) : Prop :=
  forall fileId email,
    (List.length (private_shares_for w fileId email) <= 1)%nat.

Definition numbered (k : Z) (vs : list VersionRow) : list VersionRow :=
  filter (fun v => v_version_number v =? k) vs.

(** The versions of a file are numbered 1..N, each number once. *)
Definition numbered_1_to (N : Z) (vs : list VersionRow) : Prop :=
  forall k,
    List.length (numbered k vs)
    = if (1 <=? k) && (k <=? N) then 1%nat else 0%nat.

(** The level a share row resolves to: admin counts as edit. *)
Definition share_level (s : ShareRow) : PermissionLevel :=
  match s_permissions s with
  | PView => LView
  | _ => LEdit
  end.

(** The caller has a row of the file. *)
Definition owns (w : World) (userId fileId : string) : Prop :=
  exists f, In f (files w) /\ f_id f = fileId /\ f_user_id f = userId.

(** A share row of the file addressed to the email. *)
Definition shared_with (w : World) (fileId email : string) (s : ShareRow)
  : Prop :=
  In s (shares w) /\ s_file_id s = fileId /\ s_shared_with_email s = email.

(** A private share row of the file addressed to the caller's email. *)
Definition private_share_of (w : World) (userId fileId : string)
           (s : ShareRow) : Prop :=
  exists email,
    getCurrentUserEmail w userId = Some email
    /\ shared_with w fileId email s
    /\ s_share_type s = Private.

(** [profiles.id] is a key. *)
Definition profile_ids_unique (w : World) : bool :=
  distinct (map p_id (profiles w)).

(** A private share row of the file addressed to the email on the
    caller's profile row, read off the two tables. *)
Definition share_to_caller (w : World) (userId fileId : string)
           (s : ShareRow) : Prop :=
  exists p,
    In p (profiles w) /\ p_id p = userId
    /\ In s (shares w) /\ s_file_id s = fileId
    /\ s_shared_with_email s = p_email p
    /\ s_share_type s = Private.


(** ** A small store to evaluate the routes on *)

Definition env0 : Env := mkEnv 1000 "1000-k3x" "id-9" "c0ffee" (fun _ => false).

Definition report : FileRow :=
  mkFile "f1" "alice" "report.pdf" "report.pdf" 10 "application/pdf"
         (Some "application/pdf") (Some "pdf") "alice/1-a.pdf" None
         false false false None.

Definition binned : FileRow :=
  mkFile "f2" "alice" "old.txt" "old.txt" 4 "text/plain"
         (Some "text/plain") (Some "txt") "alice/2-b.txt" None
         false false true (Some 900).

Definition view_share : ShareRow :=
  mkShare "s1" "f1" "alice" "bob@x.io" PView Private None None.

Definition open_link : ShareRow :=
  mkShare "s2" "f2" "alice" "" PView Public (Some "tok") None.

Definition stale_link : ShareRow :=
  mkShare "s3" "f1" "alice" "" PView Public (Some "old") (Some 999).

Definition world0 : World :=
  mkWorld
    [report; binned]
    [mkVersion "f1" 1 10 "alice/versions/f1/1.pdf" ChUpdate "alice";
     mkVersion "f1" 2 20 "alice/versions/f1/2.pdf" ChUpdate "alice"]
    [view_share; open_link; stale_link]
    [mkProfile "alice" "alice@x.io"; mkProfile "bob" "bob@x.io"]
    [mkQuota "carol" (Some 0) (Some 5) (Some 10) (Some 10)]
    [("alice/1-a.pdf", "%PDF"); ("alice/2-b.txt", "old!")]
    [].

Definition ten_bytes : Upload :=
  mkUpload "note.txt" "text/plain" 10 "0123456789".

(** The same store before any version of [report] was created, and two
    version uploads for it with an unrelated upload in between. *)
Definition world1 : World := set_file_versions [] world0.

Definition two_creates : list (Env * Request) :=
  [(mkEnv 1001 "1001-a" "id-1" "t1" (fun _ => false),
    ReqCreateVersion "alice" "f1"
      (Some (mkUpload "report.pdf" "application/pdf" 12 "%PDF-draft-2")));
   (mkEnv 1002 "1002-u" "id-3" "t3" (fun _ => false),
    ReqUpload "alice" (Some (mkUpload "b.txt" "text/plain" 1 "b")) None);
   (mkEnv 1003 "1003-b" "id-2" "t2" (fun _ => false),
    ReqCreateVersion "alice" "f1"
      (Some (mkUpload "report.pdf" "application/pdf" 12 "%PDF-draft-3")))].

(** A handler that leaves a part of the store as it finds it. *)
Definition keeps {X A} (part : World -> X) (m : Handler A) : Prop :=
  forall w, part (snd (m w)) = part w.

(** The requests that write version rows of a file. *)
Definition creates_version_of (fileId : string) (r : Request) : bool :=
  match r with
  | ReqCreateVersion _ i _ => (i =? fileId)%string
  | _ => false
  end.

Definition restores_version_of (fileId : string) (r : Request) : bool :=
  match r with
  | ReqRestoreVersion _ i _ => (i =? fileId)%string
  | _ => false
  end.

(** ** More of the store's properties *)

(** [s.includes(c)] for a one-character needle. *)
Fixpoint includes_char (c : ascii) (s : string) : bool :=
  match s with
  | EmptyString => false
  | String d s' => Ascii.eqb d c || includes_char c s'
  end.

(** The caller and the file of the routes that first look the file up
    among the caller's own rows. *)
Definition owner_only_target (r : Request) : option (string * string) :=
  match r with
  | ReqPatch u i _ | ReqSoftDelete u i | ReqRestore u i
  | ReqPermanentDelete u i | ReqCreateVersion u i _
  | ReqRestoreVersion u i _ | ReqCreateShare u i _
  | ReqRevokeShare u i _ | ReqCreatePublicLink u i _ => Some (u, i)
  | _ => None
  end.

(** The blob stored at a path, if any. *)
Definition blob_at (w : World) (path : string) : option string :=
  match find (fun o => (fst o =? path)%string) (storage w) with
  | Some o => Some (snd o)
  | None => None
  end.

(** The ids of the file rows, in table order. *)
Definition ids (w : World) : list string := map f_id (files w).

(** The path an upload of a name is stored under. *)
Definition upload_path (env : Env) (userId name : string) : string :=
  userId ++ "/" ++ stamp env ++ match getFileExt name with
                                | Some e => "." ++ e
                                | None => ""
                                end.

(** The columns of a file row that say whose it is, what it holds and
    whether it is in trash. *)
Definition content_cols (f : FileRow)
  : string * string * Z * string * option string * option string * string
    * bool * bool * option Z :=
  (f_id f, f_user_id f, f_size f, f_type f, f_mime_type f, f_extension f,
   f_path f, f_is_folder f, f_is_deleted f, f_deleted_at f).

(** The path a new version of a file is stored under. *)
Definition version_path (env : Env) (userId fileId name : string) : string :=
  userId ++ "/versions/" ++ fileId ++ "/"
  ++ (stamp env ++ match getFileExt name with
                   | Some e => "." ++ e
                   | None => ""
                   end).

(** A version of the file that no other version of it outnumbers. *)
Definition latest_of (w : World) (fileId : string) (v : VersionRow) : Prop :=
  In v (versions_of w fileId)
  /\ forall x, In x (versions_of w fileId) ->
               v_version_number x <= v_version_number v.

(** *** GET /:id/versions *)

(** [.order("version_number", { ascending: false })] *)
Fixpoint insert_desc (v : VersionRow) (l : list VersionRow)
  : list VersionRow :=
  match l with
  | [] => [v]
  | x :: rest =>
      if v_version_number x <=? v_version_number v then v :: l
      else x :: insert_desc v rest
  end.

Definition order_desc (l : list VersionRow) : list VersionRow :=
  fold_right insert_desc [] l.

(** The route answers [{ versions }] or an error. *)
Definition listVersionsRoute (userId fileId : string) (w : World)
  : Response + list VersionRow :=
  match owned_file w userId fileId with
  | None => inl (error_json 404 "File not found")
  | Some _ => inr (order_desc (versions_of w fileId))
  end.

(** ** [utils/helpers.ts] *)

(** [generateUniqueFileName]; [timestamp] is [Date.now()] as text and
    [draw] is [Math.random().toString(36)], of which the helper keeps
    [substring(2, 15)]. *)
Definition generateUniqueFileName (timestamp draw originalName : string)
  : string :=
  let randomString := String.substring 2 13 draw in
  let fileExtension :=
    if includes_char "." originalName
    then last (split "." originalName) ""
    else "" in
  if truthy fileExtension
  then timestamp ++ "-" ++ randomString ++ "." ++ fileExtension
  else timestamp ++ "-" ++ randomString.



(** ** [middlewares/auth-middleware.ts] *)

Record JwtPayload := mkJwt {
  jwt_userId : string;
  jwt_email : string
}.

(** The middleware either answers itself or calls [next()] with
    [req.userId] and [req.user] set. *)
Inductive AuthResult :=
| AuthReply (r : Response)
| AuthNext (userId : string) (user : ProfileRow).

(** [verify] is [jwt.verify(token, secret)], [None] when it throws;
    [authorization] is the request header, [None] when absent. *)
Definition authMiddleware (verify : string -> option JwtPayload)
           (authorization : option string) (w : World) : AuthResult :=
  match authorization with
  | None => AuthReply (error_json 401 "Access token required")
  | Some authHeader =>
      if negb (String.prefix "Bearer " authHeader)
      then AuthReply (error_json 401 "Access token required")
      else
        let token := drop 7 authHeader in
        match verify token with
        | None => AuthReply (error_json 401 "Invalid or expired token")
        | Some decoded =>
            if negb (truthy (jwt_userId decoded))
            then AuthReply (error_json 401 "Invalid token payload")
            else
              match single (filter (fun p => (p_id p =? jwt_userId decoded)
                                             %string) (profiles w)) with
              | None => AuthReply (error_json 401 "User not found")
              | Some user => AuthNext (jwt_userId decoded) user
              end
        end
  end.

(** A route behind the middleware. *)
Definition authenticated (verify : string -> option JwtPayload)
           (authorization : option string)
           (handler : string -> World -> Response * World) (w : World)
  : Response * World :=
  match authMiddleware verify authorization w with
  | AuthReply r => (r, w)
  | AuthNext userId _ => handler userId w
  end.

(** ** Paging of the list routes *)

Definition digit_of (c : ascii) : option Z :=
  let n := nat_of_ascii c in
  if ((48 <=? n) && (n <=? 57))%nat then Some (Z.of_nat (n - 48)) else None.

(** The digits at the head of a string, as a number; [seen] says whether
    a digit was read. *)
Fixpoint digits_value (acc : Z) (seen : bool) (s : string) : option Z :=
  match s with
  | EmptyString => if seen then Some acc else None
  | String c s' =>
      match digit_of c with
      | Some d => digits_value (10 * acc + d) true s'
      | None => if seen then Some acc else None
      end
  end.

(** [parseInt(s, 10)], [None] standing for NaN: leading white space is
    skipped, a sign is read, then digits up to the first other
    character. *)
Definition parseInt10 (s : string) : option Z :=
  match trim_left s with
  | String "-" r =>
      match digits_value 0 false r with
      | Some n => Some (- n)
      | None => None
      end
  | String "+" r => digits_value 0 false r
  | t => digits_value 0 false t
  end.

(** [String(q ?? dflt)] of an optional query parameter. *)
Definition query_text (q : option string) (dflt : string) : string :=
  match q with
  | Some s => s
  | None => dflt
  end.

(** [Math.max(1, parseInt(String(req.query.page ?? "1"), 10))] *)
Definition page_param (q : option string) : option Z :=
  match parseInt10 (query_text q "1") with
  | Some n => Some (Z.max 1 n)
  | None => None
  end.

(** [Math.min(100, Math.max(1, parseInt(String(req.query.limit ?? "20"),
    10)))] *)
Definition limit_param (q : option string) : option Z :=
  match parseInt10 (query_text q "20") with
  | Some n => Some (Z.min 100 (Z.max 1 n))
  | None => None
  end.

(** [from = (page - 1) * limit] and [to = from + limit - 1] *)
Definition page_from (page limit : Z) : Z := (page - 1) * limit.
Definition page_to (page limit : Z) : Z := page_from page limit + limit - 1.

(** [.range(from, to)]: the rows at the positions from..to, counted from
    0, both ends included.  This is the store's answer for a start position
    inside the rows; what it answers to a start beyond them is not
    modelled, and the statements below do not use it there. *)
Definition range {A} (from to : Z) (rows : list A) : list A :=
  firstn (Z.to_nat (to - from + 1)) (skipn (Z.to_nat from) rows).

(** The rows page [page] of a list route answers with. *)
Definition page_rows {A} (page limit : Z) (rows : list A) : list A :=
  range (page_from page limit) (page_to page limit) rows.

(** ** [routes/users-routes.ts] *)

(** A [user_quotas] row together with its [plan] column, which the rows
    of the store above leave out. *)
Record QuotaRecord := mkQuotaRecord {
  qr_plan : option string;
  qr_row : QuotaRow
}.

(** The [quota] object GET /quota answers with. *)
Record QuotaReport := mkReport {
  rp_plan : string;
  rp_storage_used : Z;
  rp_storage_limit : Z;
  rp_file_count : Z;
  rp_file_count_limit : Z
}.

Definition rows_of_user (table : list QuotaRecord) (userId : string)
  : list QuotaRecord :=
  filter (fun q => (q_user_id (qr_row q) =? userId)%string) table.

(** GET /quota; unlike the upload check, the route throws on the error of
    [maybeSingle]. *)
Definition quotaRoute (table : list QuotaRecord) (userId : string)
  : Response + QuotaReport :=
  match maybeSingle (rows_of_user table userId) with
  | (_, true) => inl (error_json 500 "Internal server error")
  | (quota, false) =>
      let row := match quota with
                 | Some q => Some (qr_row q)
                 | None => None
                 end in
      inr (mkReport
             (match quota with
              | Some q => match qr_plan q with Some p => p | None => "free" end
              | None => "free"
              end)
             (quota_field row q_storage_used 0)
             (quota_field row q_storage_limit (5 * 1024 * 1024 * 1024))
             (quota_field row q_file_count 0)
             (quota_field row q_file_count_limit 10000))
  end.

(** The store with the quota table of the records. *)
Definition with_quota_table (table : list QuotaRecord) (w : World) : World :=
  mkWorld (files w) (file_versions w) (shares w) (profiles w)
          (map qr_row table) (storage w) (emitted w).

(** ** [routes/billing-routes.ts] *)

(** The environment the module reads.  A numeric setting is the number it
    reads as, [None] when unset or empty (settings that are not whole
    numbers are not modelled). *)
Record BillingEnv := mkBillingEnv {
  STRIPE_SECRET_KEY : string;
  STRIPE_WEBHOOK_SECRET : string;
  STRIPE_PRICE_ID_PRO : option string;
  STRIPE_PRICE_ID_BUSINESS : option string;
  FREE_STORAGE_LIMIT_BYTES : option Z;
  FREE_FILE_COUNT_LIMIT : option Z;
  PRO_STORAGE_LIMIT_BYTES : option Z;
  PRO_FILE_COUNT_LIMIT : option Z;
  BUSINESS_STORAGE_LIMIT_BYTES : option Z;
  BUSINESS_FILE_COUNT_LIMIT : option Z
}.

Definition is_alnum (c : ascii) : bool :=
  let n := nat_of_ascii c in
  ((48 <=? n) && (n <=? 57) || (65 <=? n) && (n <=? 90)
   || (97 <=? n) && (n <=? 122))%nat.

Fixpoint all_alnum (s : string) : bool :=
  match s with
  | EmptyString => true
  | String c rest => is_alnum c && all_alnum rest
  end.

(** [!!v && /^price_[A-Za-z0-9]+$/.test(v)] *)
Definition isValidPriceId (v : option string) : bool :=
  match v with
  | Some s =>
      truthy s && String.prefix "price_" s
      && truthy (drop 6 s) && all_alnum (drop 6 s)
  | None => false
  end.

(** A plan of [PLANS]: the fields checkout and the webhook read (the
    display fields name, description, priceMonthly and currency are left
    out). *)
Record Plan := mkPlan {
  plan_id : string;
  plan_priceId : option string;
  storageLimitBytes : Z;
  fileCountLimit : Z
}.

(** [process.env.X && isValidPriceId(process.env.X) ? process.env.X : null] *)
Definition configured_price (v : option string) : option string :=
  match v with
  | Some s => if truthy s && isValidPriceId (Some s) then Some s else None
  | None => None
  end.

(** [Number(process.env.X || dflt)] *)
Definition setting (v : option Z) (dflt : Z) : Z :=
  match v with
  | Some n => n
  | None => dflt
  end.

Definition free_plan (be : BillingEnv) : Plan :=
  mkPlan "free" None
         (setting (FREE_STORAGE_LIMIT_BYTES be) (5 * 1024 * 1024 * 1024))
         (setting (FREE_FILE_COUNT_LIMIT be) 10000).

Definition PLANS (be : BillingEnv) : list Plan :=
  [ free_plan be;
    mkPlan "pro" (configured_price (STRIPE_PRICE_ID_PRO be))
           (setting (PRO_STORAGE_LIMIT_BYTES be) (200 * 1024 * 1024 * 1024))
           (setting (PRO_FILE_COUNT_LIMIT be) 100000);
    mkPlan "business" (configured_price (STRIPE_PRICE_ID_BUSINESS be))
           (setting (BUSINESS_STORAGE_LIMIT_BYTES be)
                    (2 * 1024 * 1024 * 1024 * 1024))
           (setting (BUSINESS_FILE_COUNT_LIMIT be) 1000000) ].

(** *** POST /checkout *)

Inductive CheckoutResult :=
| CheckoutUrl (url : option string)
| CheckoutError (code : Z) (error : string).

(** What [stripe.checkout.sessions.create] is asked for. *)
Record SessionRequest := mkSession {
  sr_price : option string;
  sr_customer_email : option string;
  sr_userId : string;
  sr_planId : string
}.

(** [p => (priceId ? p.priceId === priceId : p.id === planId)] *)
Definition plan_selected (priceId planId : option string) (p : Plan) : bool :=
  match priceId with
  | Some pr =>
      if truthy pr then
        match plan_priceId p with
        | Some x => (x =? pr)%string
        | None => false
        end
      else match planId with
           | Some i => (plan_id p =? i)%string
           | None => false
           end
  | None =>
      match planId with
      | Some i => (plan_id p =? i)%string
      | None => false
      end
  end.

(** [createSession] is the Stripe call: the session's url (which may be
    null), or the message of the error it throws. *)
Definition checkoutRoute (be : BillingEnv)
           (createSession : SessionRequest -> option string + string)
           (userId : string) (priceId planId : option string) (w : World)
  : CheckoutResult :=
  if negb (truthy (STRIPE_SECRET_KEY be))
  then CheckoutError 503 "Billing not configured"
  else
    match find (plan_selected priceId planId) (PLANS be) with
    | None =>
        CheckoutError 400 "Plan is not configured. Please try again later."
    | Some plan =>
        if negb (isValidPriceId (plan_priceId plan))
        then CheckoutError 400
               "Plan is not configured. Please try again later."
        else
          let profile :=
            fst (maybeSingle (filter (fun p => (p_id p =? userId)%string)
                                     (profiles w))) in
          let email :=
            match profile with
            | Some p => if truthy (p_email p) then Some (p_email p) else None
            | None => None
            end in
          match createSession
                  (mkSession (plan_priceId plan) email userId (plan_id plan))
          with
          | inl url => CheckoutUrl url
          | inr message =>
              CheckoutError 500 (if truthy message then message
                                 else "Internal server error")
          end
    end.

(** *** The Stripe webhook *)

(** The events the handler tells apart, with the [userId] and [planId] of
    their metadata; on a cancellation the plan is [PLANS[0]]. *)
Inductive StripeEvent :=
| CheckoutSessionCompleted (userId planId : option string)
| SubscriptionUpdated (userId planId : option string)
| SubscriptionCreated (userId planId : option string)
| SubscriptionDeleted (userId : option string)
| OtherEvent.

(** [from("user_quotas").upsert({ user_id, plan, storage_limit,
    file_count_limit }, { onConflict: "user_id" })]: the three columns are
    written on the user's row, or a row is inserted whose counters are the
    store's defaults (null here, read as 0). *)
Definition upsert_plan (table : list QuotaRecord) (userId : string)
           (plan : Plan) : list QuotaRecord :=
  if existsb (fun q => (q_user_id (qr_row q) =? userId)%string) table
  then
    map (fun q =>
           if (q_user_id (qr_row q) =? userId)%string
           then mkQuotaRecord (Some (plan_id plan))
                  (mkQuota userId (q_storage_used (qr_row q))
                           (Some (storageLimitBytes plan))
                           (q_file_count (qr_row q))
                           (Some (fileCountLimit plan)))
           else q) table
  else
    (table ++ [mkQuotaRecord (Some (plan_id plan))
                 (mkQuota userId None (Some (storageLimitBytes plan))
                          None (Some (fileCountLimit plan)))])%list.

(** The upsert of an event, its error being dropped. *)
Definition apply_plan (upsert_fails : bool) (table : list QuotaRecord)
           (userId : string) (plan : Plan) : list QuotaRecord :=
  if upsert_fails then table else upsert_plan table userId plan.

Definition plan_by_id (be : BillingEnv) (planId : string) : option Plan :=
  find (fun p => (plan_id p =? planId)%string) (PLANS be).

(** [if (userId && planId) { const plan = PLANS.find(...); if (plan) ... }] *)
Definition on_subscription (be : BillingEnv) (upsert_fails : bool)
           (userId planId : option string) (table : list QuotaRecord)
  : list QuotaRecord :=
  match userId, planId with
  | Some u, Some i =>
      if truthy u && truthy i then
        match plan_by_id be i with
        | Some plan => apply_plan upsert_fails table u plan
        | None => table
        end
      else table
  | _, _ => table
  end.

(** [event = req.body as any] when no webhook secret is set.  [server.ts]
    mounts the handler behind [express.raw], so [req.body] is a Buffer; it
    has no [type], and the [switch] takes its default branch. *)
Definition unverified_event (body : string) : StripeEvent := OtherEvent.

(** [body] is the raw request body, [verified] what
    [stripe.webhooks.constructEvent] makes of it and of the signature
    ([None] when it throws).  The result is the status sent and the quota
    table. *)
Definition stripeWebhookRawHandler (be : BillingEnv)
           (verified : option StripeEvent) (body : string)
           (upsert_fails : bool) (table : list QuotaRecord)
  : Z * list QuotaRecord :=
  if negb (truthy (STRIPE_SECRET_KEY be)) then (200, table)
  else
    let event :=
      if truthy (STRIPE_WEBHOOK_SECRET be) then verified
      else Some (unverified_event body) in
    match event with
    | None => (400, table)
    | Some (CheckoutSessionCompleted u i) =>
        (200, on_subscription be upsert_fails u i table)
    | Some (SubscriptionUpdated u i) =>
        (200, on_subscription be upsert_fails u i table)
    | Some (SubscriptionCreated u i) =>
        (200, on_subscription be upsert_fails u i table)
    | Some (SubscriptionDeleted u) =>
        match u with
        | Some u =>
            if truthy u
            then (200, apply_plan upsert_fails table u (free_plan be))
            else (200, table)
        | None => (200, table)
        end
    | Some OtherEvent => (200, table)
    end.

(** A billing environment with Stripe configured and a price for pro. *)
Definition billing0 : BillingEnv :=
  mkBillingEnv "sk_test" "whsec" (Some "price_1Abc") (Some "price_123...")
               None None None None None None.

(** The same with no webhook secret. *)
Definition billing_dev : BillingEnv :=
  mkBillingEnv "sk_test" "" (Some "price_1Abc") (Some "price_123...")
               None None None None None None.

Definition quotas0 : list QuotaRecord :=
  [mkQuotaRecord (Some "free")
     (mkQuota "alice" (Some 4000) (Some 5368709120) (Some 2) (Some 10000))].

(** The user the metadata of an event names, if any. *)
Definition event_user (ev : StripeEvent) : option string :=
  match ev with
  | CheckoutSessionCompleted u _ => u
  | SubscriptionUpdated u _ => u
  | SubscriptionCreated u _ => u
  | SubscriptionDeleted u => u
  | OtherEvent => None
  end.

(** The event the handler acts on. *)
Definition accepted_event (be : BillingEnv) (verified : option StripeEvent)
           (body : string) : option StripeEvent :=
  if negb (truthy (STRIPE_SECRET_KEY be)) then None
  else if truthy (STRIPE_WEBHOOK_SECRET be) then verified
  else Some (unverified_event body).

(** ** Evaluating a route *)

Ltac run :=
  unfold route, bind, read, reply, throw, ret, reply_if, throw_if, emit,
    update; cbn [fst snd].

(** ** Facts about keys and filters *)

Lemma existsb_eqb_In (k : string) (l : list string) :
  existsb (String.eqb k) l = true <-> In k l.
Proof.
  rewrite existsb_exists. split.
  - intros [x [Hin Heq]]. apply String.eqb_eq in Heq. now subst.
  - intros Hin. exists k. split; [assumption | apply String.eqb_refl].
Qed.

Lemma filter_key_absent {A} (key : A -> string) (p : A -> bool)
      (l : list A) (k : string) :
  ~ In k (map key l) ->
  filter (fun y => (key y =? k)%string && p y) l = [].
Proof.
  induction l as [|a l IH]; intros Hnot; [reflexivity|].
  cbn [filter map] in *.
  destruct (String.eqb_spec (key a) k) as [Heq|Hne].
  - exfalso. apply Hnot. now left.
  - cbn [andb]. apply IH. intros Hin. apply Hnot. now right.
Qed.

Lemma filter_key_found {A} (key : A -> string) (p : A -> bool)
      (l : list A) (k : string) (x : A) :
  distinct (map key l) = true ->
  In x l -> key x = k ->
  filter (fun y => (key y =? k)%string && p y) l = if p x then [x] else [].
Proof.
  induction l as [|a l IH]; intros Hd Hin Hk; [contradiction|].
  cbn [map distinct] in Hd. apply andb_true_iff in Hd as [Hhead Hrest].
  apply negb_true_iff in Hhead.
  assert (Hfresh : ~ In (key a) (map key l)).
  { intros Hin'. apply existsb_eqb_In in Hin'. congruence. }
  cbn [filter]. destruct Hin as [-> | Hin].
  - rewrite Hk, String.eqb_refl. cbn [andb].
    rewrite <- Hk in *.
    rewrite (filter_key_absent key p l (key x) Hfresh).
    destruct (p x); reflexivity.
  - destruct (String.eqb_spec (key a) k) as [Heq|Hne].
    + exfalso. apply Hfresh. rewrite Heq, <- Hk. now apply in_map.
    + cbn [andb]. now apply IH.
Qed.

Lemma owned_file_found (w : World) (f : FileRow) :
  file_ids_unique w = true -> In f (files w) ->
  owned_file w (f_user_id f) (f_id f) = Some f.
Proof.
  intros Hu Hin. unfold owned_file.
  rewrite (filter_key_found f_id _ (files w) (f_id f) f Hu Hin eq_refl).
  now rewrite String.eqb_refl.
Qed.


(** ** Handlers that leave a part of the store alone *)

Section Keeps.

Context {X : Type} (part : World -> X).
Hypothesis part_set_files : forall fs w, part (set_files fs w) = part w.
Hypothesis part_set_storage : forall st w, part (set_storage st w) = part w.
Hypothesis part_add_emitted : forall e w, part (add_emitted e w) = part w.

Lemma keeps_ret {A} (a : A) : keeps part (ret a).
Proof. intros w. reflexivity. Qed.

Lemma keeps_reply {A} (r : Response) : keeps part (@reply A r).
Proof. intros w. reflexivity. Qed.

Lemma keeps_throw {A} : keeps part (@throw A).
Proof. intros w. reflexivity. Qed.

Lemma keeps_read : keeps part read.
Proof. intros w. reflexivity. Qed.

Lemma keeps_bind {A B} (m : Handler A) (k : A -> Handler B) :
  keeps part m -> (forall a, keeps part (k a)) -> keeps part (bind m k).
Proof.
  intros Hm Hk w. unfold bind. specialize (Hm w).
  destruct (m w) as [[a|r|] w1]; cbn [snd] in *; try assumption.
  now rewrite (Hk a w1).
Qed.

Lemma keeps_reply_if (c : bool) (r : Response) : keeps part (reply_if c r).
Proof. intros w. unfold reply_if. destruct c; reflexivity. Qed.

Lemma keeps_throw_if (c : bool) : keeps part (throw_if c).
Proof. intros w. unfold throw_if. destruct c; reflexivity. Qed.

Lemma keeps_emit (u e x : string) : keeps part (emit u e x).
Proof. intros w. apply part_add_emitted. Qed.

Lemma keeps_storage_upload (env : Env) (path content : string) :
  keeps part (storage_upload env path content).
Proof.
  intros w. unfold storage_upload.
  destruct (fails env StorageUpload || existsb _ (storage w));
    [reflexivity|apply part_set_storage].
Qed.

Lemma keeps_storage_remove (env : Env) (path : string) :
  keeps part (storage_remove env path).
Proof.
  intros w. unfold storage_remove.
  destruct (fails env StorageRemove); [reflexivity|apply part_set_storage].
Qed.

Lemma keeps_files_insert (env : Env) (row : FileRow) :
  keeps part (files_insert env row).
Proof.
  intros w. unfold files_insert.
  destruct (fails env FilesInsert); [reflexivity|apply part_set_files].
Qed.

Lemma keeps_files_update (env : Env) (fileId : string)
      (change : FileRow -> FileRow) :
  keeps part (files_update env fileId change).
Proof.
  intros w. unfold files_update.
  destruct (fails env FilesUpdate); [reflexivity|apply part_set_files].
Qed.

Lemma keeps_files_update_single (env : Env) (fileId : string)
      (change : FileRow -> FileRow) :
  keeps part (files_update_single env fileId change).
Proof.
  intros w. unfold files_update_single.
  destruct (single _); [|reflexivity].
  destruct (fails env FilesUpdate); [reflexivity|apply part_set_files].
Qed.

Lemma keeps_files_delete (env : Env) (fileId : string) :
  keeps part (files_delete env fileId).
Proof.
  intros w. unfold files_delete.
  destruct (fails env FilesDelete); [reflexivity|apply part_set_files].
Qed.

Lemma keeps_route (m : Handler Response) :
  keeps part m -> forall w, part (snd (route m w)) = part w.
Proof.
  intros Hm w. unfold route. specialize (Hm w).
  destruct (m w) as [[a|r|] w1]; assumption.
Qed.

End Keeps.

Lemma versions_insert_keeps_shares (env : Env) (row : VersionRow) :
  keeps shares (versions_insert env row).
Proof.
  intros w. unfold versions_insert.
  destruct (fails env VersionsInsert); reflexivity.
Qed.

Lemma shares_insert_keeps_versions (env : Env) (row : ShareRow) :
  keeps file_versions (shares_insert env row).
Proof.
  intros w. unfold shares_insert.
  destruct (fails env SharesInsert); reflexivity.
Qed.

Lemma shares_delete_keeps_versions (env : Env) (sel : ShareRow -> bool) :
  keeps file_versions (shares_delete env sel).
Proof.
  intros w. unfold shares_delete.
  destruct (fails env SharesDelete); reflexivity.
Qed.

(** Walks a route body, one bind, branch or downstream call at a time. *)
Ltac keeps :=
  repeat first
    [ apply keeps_bind; [|intro]
    | apply keeps_ret | apply keeps_reply | apply keeps_throw
    | apply keeps_read | apply keeps_reply_if | apply keeps_throw_if
    | apply versions_insert_keeps_shares
    | apply shares_insert_keeps_versions
    | apply shares_delete_keeps_versions
    | solve [apply keeps_emit; intros; reflexivity]
    | solve [apply keeps_storage_upload; intros; reflexivity]
    | solve [apply keeps_storage_remove; intros; reflexivity]
    | solve [apply keeps_files_insert; intros; reflexivity]
    | solve [apply keeps_files_update; intros; reflexivity]
    | solve [apply keeps_files_update_single; intros; reflexivity]
    | solve [apply keeps_files_delete; intros; reflexivity]
    | progress cbv zeta
    | match goal with
      | |- keeps _ (match ?x with _ => _ end) => destruct x
      | |- keeps _ (if ?c then _ else _) => destruct c
      end ].

Lemma other_routes_keep_shares (env : Env) (r : Request) (w : World) :
  match r with
  | ReqCreateShare _ _ _ | ReqRevokeShare _ _ _
  | ReqCreatePublicLink _ _ _ | ReqRevokePublicLink _ _ => True
  | _ => shares (snd (serve env r w)) = shares w
  end.
Proof.
  destruct r; try exact I; cbn [serve];
    [ unfold uploadRoute | unfold createFolderRoute | unfold patchRoute
    | unfold softDeleteRoute | unfold restoreRoute
    | unfold permanentDeleteRoute | unfold downloadRoute
    | unfold createVersionRoute | unfold restoreVersionRoute
    | unfold resolvePublicLinkRoute ];
    apply keeps_route; keeps.
Qed.

Lemma other_routes_keep_versions (env : Env) (r : Request) (w : World) :
  match r with
  | ReqCreateVersion _ _ _ | ReqRestoreVersion _ _ _ => True
  | _ => file_versions (snd (serve env r w)) = file_versions w
  end.
Proof.
  destruct r; try exact I; cbn [serve];
    [ unfold uploadRoute | unfold createFolderRoute | unfold patchRoute
    | unfold softDeleteRoute | unfold restoreRoute
    | unfold permanentDeleteRoute | unfold downloadRoute
    | unfold createShareRoute | unfold revokeShareRoute
    | unfold createPublicLinkRoute | unfold resolvePublicLinkRoute
    | unfold revokePublicLinkRoute ];
    apply keeps_route; keeps.
Qed.

(** ** Quota ledger *)






(** An upload within both ceilings goes on to write the blob and the row. *)
Example upload_within_quota :
  let (r, w) := uploadRoute env0 "alice" (Some ten_bytes) None world0 in
  status r = 200
  /\ storage w
     = (storage world0 ++ [("alice/1000-k3x.txt", "0123456789")])%list
  /\ List.length (files w) = 3%nat.
Proof. vm_compute. repeat split; reflexivity. Qed.

(** ** Trash *)

(** C6.  For a file of the caller, moving it to trash when it is already
    there answers 409, and restoring it when it is not in trash answers
    409; in both cases the store is left exactly as it was. *)
Theorem trash_conflicts_leave_store :
  forall env w f,
    file_ids_unique w = true ->
    In f (files w) ->
    (f_is_deleted f = true ->
     softDeleteRoute env (f_user_id f) (f_id f) w
     = (error_json 409 "File already in trash", w))
    /\ (f_is_deleted f = false ->
        restoreRoute env (f_user_id f) (f_id f) w
        = (error_json 409 "File is not in trash", w)).
Proof.
  intros env w f Hu Hin. split; intros Hflag.
  - unfold softDeleteRoute. run.
    rewrite (owned_file_found w f Hu Hin). run. now rewrite Hflag.
  - unfold restoreRoute. run.
    rewrite (owned_file_found w f Hu Hin). run. now rewrite Hflag.
Qed.

Lemma trash_conflicts_leave_store_witness :
  softDeleteRoute env0 "alice" "f2" world0
  = (error_json 409 "File already in trash", world0)
  /\ restoreRoute env0 "alice" "f1" world0
     = (error_json 409 "File is not in trash", world0).
Proof.
  split.
  - apply (trash_conflicts_leave_store env0 world0 binned).
    + reflexivity.
    + simpl. auto.
    + reflexivity.
  - apply (trash_conflicts_leave_store env0 world0 report).
    + reflexivity.
    + simpl. auto.
    + reflexivity.
Defined.

(** ** Permanent deletion *)

(** C10.  Permanent deletion of a file of the caller does not look at
    [is_deleted]: whatever the flag, when the row delete goes through the
    answer is 200, no row with that id is left, and the blob at the file's
    path is gone unless the path is empty or the blob removal reported an
    error (which does not stop the row delete). *)
Theorem permanent_delete_ignores_trash_flag :
  forall env w f,
    file_ids_unique w = true ->
    In f (files w) ->
    fails env FilesDelete = false ->
    fst (permanentDeleteRoute env (f_user_id f) (f_id f) w)
    = json (JMessage "File permanently deleted")
    /\ files (snd (permanentDeleteRoute env (f_user_id f) (f_id f) w))
       = filter (fun g => negb (f_id g =? f_id f)%string) (files w)
    /\ (forall g,
           In g (files (snd (permanentDeleteRoute env (f_user_id f)
                                                  (f_id f) w))) ->
           f_id g <> f_id f)
    /\ storage (snd (permanentDeleteRoute env (f_user_id f) (f_id f) w))
       = if truthy (f_path f) && negb (fails env StorageRemove)
         then filter (fun o => negb (fst o =? f_path f)%string) (storage w)
         else storage w.
Proof.
  intros env w f Hu Hin Hdel.
  assert (Hrun :
    permanentDeleteRoute env (f_user_id f) (f_id f) w
    = (json (JMessage "File permanently deleted"),
       add_emitted (mkEmitted ("user:" ++ f_user_id f) "file:deleted" (f_id f))
         (set_files
            (filter (fun g => negb (f_id g =? f_id f)%string) (files w))
            (if truthy (f_path f) && negb (fails env StorageRemove)
             then set_storage
                    (filter (fun o => negb (fst o =? f_path f)%string)
                            (storage w)) w
             else w)))).
  { unfold permanentDeleteRoute. run.
    rewrite (owned_file_found w f Hu Hin).
    unfold storage_remove, files_delete. run.
    destruct (truthy (f_path f)); cbn [andb].
    - destruct (fails env StorageRemove); cbn [negb]; rewrite Hdel;
        reflexivity.
    - rewrite Hdel. reflexivity. }
  rewrite Hrun. cbn [fst snd].
  split; [reflexivity|]. split.
  { destruct (truthy (f_path f) && negb (fails env StorageRemove));
      reflexivity. }
  split.
  { intros g Hg.
    assert (Hg' : In g (filter (fun g => negb (f_id g =? f_id f)%string)
                               (files w))).
    { destruct (truthy (f_path f) && negb (fails env StorageRemove));
        exact Hg. }
    apply filter_In in Hg' as [_ Hne].
    apply negb_true_iff in Hne. now apply String.eqb_neq in Hne. }
  destruct (truthy (f_path f) && negb (fails env StorageRemove));
    reflexivity.
Qed.

Lemma permanent_delete_ignores_trash_flag_witness :
  f_is_deleted report = false
  /\ fst (permanentDeleteRoute env0 "alice" "f1" world0)
     = json (JMessage "File permanently deleted")
  /\ files (snd (permanentDeleteRoute env0 "alice" "f1" world0)) = [binned]
  /\ storage (snd (permanentDeleteRoute env0 "alice" "f1" world0))
     = [("alice/2-b.txt", "old!")].
Proof.
  destruct (permanent_delete_ignores_trash_flag env0 world0 report)
    as [Hr [Hf [_ Hs]]].
  - reflexivity.
  - simpl. auto.
  - reflexivity.
  - split; [reflexivity|]. split; [exact Hr|]. split; [exact Hf|exact Hs].
Defined.

(** ** Permission resolver *)

Lemma isOwner_owns (w : World) (userId fileId : string) :
  file_ids_unique w = true ->
  (isOwner w userId fileId = true <-> owns w userId fileId).
Proof.
  intros Hu. unfold isOwner, owns. split.
  - intros Hown.
    destruct (filter _ (files w)) as [|x [|y l]] eqn:Hf; cbn in Hown;
      try discriminate.
    assert (Hx : In x (filter (fun f => (f_id f =? fileId)%string
                                        && (f_user_id f =? userId)%string)
                              (files w))) by (rewrite Hf; now left).
    apply filter_In in Hx as [Hin Hp].
    apply andb_true_iff in Hp as [Hi Hus].
    apply String.eqb_eq in Hi, Hus. now exists x.
  - intros [f [Hin [Hi Hus]]].
    rewrite (filter_key_found f_id _ (files w) fileId f Hu Hin Hi).
    rewrite Hus, String.eqb_refl. reflexivity.
Qed.

Lemma isOwner_false (w : World) (userId fileId : string) :
  file_ids_unique w = true ->
  ~ owns w userId fileId -> isOwner w userId fileId = false.
Proof.
  intros Hu Hnot. destruct (isOwner w userId fileId) eqn:Ho; [|reflexivity].
  exfalso. apply Hnot. now apply isOwner_owns.
Qed.

Lemma shares_for_In (w : World) (fileId email : string) (s : ShareRow) :
  In s (shares_for w fileId email) <-> shared_with w fileId email s.
Proof.
  unfold shares_for, shared_with. rewrite filter_In, andb_true_iff.
  rewrite !String.eqb_eq. tauto.
Qed.

Lemma shares_for_at_most_one (w : World) (fileId email : string) :
  shares_wf w = true -> email <> "" ->
  (List.length (shares_for w fileId email) <= 1)%nat.
Proof.
  intros Hwf Hne. unfold shares_wf in Hwf.
  apply andb_true_iff in Hwf as [_ Halone].
  destruct (shares_for w fileId email) as [|s l] eqn:Hl; [cbn; lia|].
  assert (Hs : shared_with w fileId email s).
  { apply shares_for_In. rewrite Hl. now left. }
  destruct Hs as [Hin [Hf He]].
  rewrite forallb_forall in Halone. specialize (Halone s Hin).
  unfold share_alone in Halone. apply orb_true_iff in Halone as [He0|Hlen].
  - apply String.eqb_eq in He0. congruence.
  - rewrite Hf, He, Hl in Hlen. now apply Nat.leb_le in Hlen.
Qed.

Lemma shares_lookup (w : World) (fileId email : string) :
  shares_wf w = true -> email <> "" ->
  (exists s, shares_for w fileId email = [s]
             /\ shared_with w fileId email s)
  \/ (shares_for w fileId email = []
      /\ forall s, ~ shared_with w fileId email s).
Proof.
  intros Hwf Hne.
  pose proof (shares_for_at_most_one w fileId email Hwf Hne) as Hlen.
  destruct (shares_for w fileId email) as [|s [|t l]] eqn:Hl.
  - right. split; [reflexivity|]. intros s Hs.
    apply shares_for_In in Hs. rewrite Hl in Hs. contradiction.
  - left. exists s. split; [reflexivity|].
    apply shares_for_In. rewrite Hl. now left.
  - cbn in Hlen. lia.
Qed.

Lemma shared_with_unique (w : World) (fileId email : string)
      (s t : ShareRow) :
  shares_wf w = true -> email <> "" ->
  shared_with w fileId email s -> shared_with w fileId email t -> s = t.
Proof.
  intros Hwf Hne Hs Ht.
  destruct (shares_lookup w fileId email Hwf Hne) as [[x [Hl _]]|[_ Hno]].
  - apply shares_for_In in Hs, Ht. rewrite Hl in Hs, Ht.
    destruct Hs as [<-|[]], Ht as [<-|[]]. reflexivity.
  - now apply Hno in Hs.
Qed.

Lemma shared_is_private (w : World) (s : ShareRow) :
  shares_wf w = true -> In s (shares w) -> s_shared_with_email s <> "" ->
  s_share_type s = Private.
Proof.
  intros Hwf Hin Hne. unfold shares_wf in Hwf.
  apply andb_true_iff in Hwf as [Htyped _].
  rewrite forallb_forall in Htyped. specialize (Htyped s Hin).
  unfold share_typed, is_public in Htyped.
  apply String.eqb_neq in Hne. rewrite Hne in Htyped.
  destruct (s_share_type s); [reflexivity|discriminate].
Qed.

Lemma hasFilePermission_shared (w : World) (userId fileId email : string)
      (s : ShareRow) (needed : PermissionLevel) :
  isOwner w userId fileId = false ->
  getCurrentUserEmail w userId = Some email -> email <> "" ->
  shares_for w fileId email = [s] ->
  hasFilePermission w userId fileId needed
  = match needed with
    | LView => mkPerm true (Some (share_level s))
    | LEdit => mkPerm (level_eqb (share_level s) LEdit) (Some (share_level s))
    | LOwner => mkPerm false None
    end.
Proof.
  intros Ho He Hne Hl. unfold hasFilePermission. rewrite Ho.
  destruct needed; cbn [level_eqb]; try reflexivity;
    rewrite He; unfold truthy; apply String.eqb_neq in Hne; rewrite Hne;
    cbn [negb]; rewrite Hl; reflexivity.
Qed.

Lemma hasFilePermission_unshared (w : World) (userId fileId email : string)
      (needed : PermissionLevel) :
  isOwner w userId fileId = false ->
  getCurrentUserEmail w userId = Some email ->
  shares_for w fileId email = [] ->
  hasFilePermission w userId fileId needed = mkPerm false None.
Proof.
  intros Ho He Hl. unfold hasFilePermission. rewrite Ho, He, Hl.
  destruct needed; cbn [level_eqb]; try reflexivity;
    destruct (negb (truthy email)); reflexivity.
Qed.

Lemma empty_email_is_public (w : World) (s : ShareRow) :
  shares_wf w = true -> In s (shares w) -> s_shared_with_email s = "" ->
  s_share_type s = Public.
Proof.
  intros Hwf Hin He. unfold shares_wf in Hwf.
  apply andb_true_iff in Hwf as [Htyped _].
  rewrite forallb_forall in Htyped. specialize (Htyped s Hin).
  unfold share_typed, is_public in Htyped. rewrite He in Htyped.
  destruct (s_share_type s); [discriminate|reflexivity].
Qed.

Lemma resolution_by_share (w : World) (userId fileId : string) :
  shares_wf w = true ->
  isOwner w userId fileId = false ->
  (exists s,
      private_share_of w userId fileId s
      /\ (forall t, private_share_of w userId fileId t -> t = s)
      /\ forall needed,
          hasFilePermission w userId fileId needed
          = match needed with
            | LView => mkPerm true (Some (share_level s))
            | LEdit => mkPerm (level_eqb (share_level s) LEdit)
                              (Some (share_level s))
            | LOwner => mkPerm false None
            end)
  \/ ((forall s, ~ private_share_of w userId fileId s)
      /\ forall needed,
          hasFilePermission w userId fileId needed = mkPerm false None).
Proof.
  intros Hwf Ho.
  destruct (getCurrentUserEmail w userId) as [email|] eqn:He.
  - destruct (String.eqb_spec email "") as [->|Hne].
    + right. split.
      * intros s [e [He' [Hs Hpriv]]].
        assert (He0 : e = "") by congruence. rewrite He0 in Hs.
        destruct Hs as [Hin [_ Hes]].
        rewrite (empty_email_is_public w s Hwf Hin Hes) in Hpriv.
        discriminate.
      * intros needed. unfold hasFilePermission. rewrite Ho, He.
        destruct needed; reflexivity.
    + destruct (shares_lookup w fileId email Hwf Hne)
        as [[s [Hl Hs]]|[Hl Hno]].
      * left. exists s. split; [|split].
        -- exists email. split; [assumption|]. split; [assumption|].
           destruct Hs as [Hin [_ Hes]].
           apply (shared_is_private w s Hwf Hin). now rewrite Hes.
        -- intros t [e [He' [Ht _]]].
           assert (He0 : e = email) by congruence. rewrite He0 in Ht.
           now apply (shared_with_unique w fileId email t s Hwf Hne).
        -- intros needed.
           now apply (hasFilePermission_shared w userId fileId email s).
      * right. split.
        -- intros s [e [He' [Hs _]]].
           assert (He0 : e = email) by congruence. rewrite He0 in Hs.
           exact (Hno s Hs).
        -- intros needed.
           now apply (hasFilePermission_unshared w userId fileId email).
  - right. split.
    + intros s [e [He' _]]. congruence.
    + intros needed. unfold hasFilePermission. rewrite Ho, He.
      destruct needed; reflexivity.
Qed.

(** With profile ids keys, the email the resolver reads for a caller is
    the one on the caller's profile row. *)
Lemma email_of_profile (w : World) (p : ProfileRow) :
  profile_ids_unique w = true -> In p (profiles w) ->
  getCurrentUserEmail w (p_id p) = Some (p_email p).
Proof.
  intros Hu Hin. unfold getCurrentUserEmail.
  assert (Hf : filter (fun q => (p_id q =? p_id p)%string) (profiles w)
               = [p]).
  { erewrite filter_ext;
      [apply (filter_key_found p_id (fun _ => true) (profiles w) (p_id p) p
                Hu Hin eq_refl)|].
    intros q. cbn. now rewrite andb_true_r. }
  now rewrite Hf.
Qed.

Lemma email_has_profile (w : World) (userId email : string) :
  getCurrentUserEmail w userId = Some email ->
  exists p, In p (profiles w) /\ p_id p = userId /\ p_email p = email.
Proof.
  unfold getCurrentUserEmail. intros He.
  destruct (filter _ (profiles w)) as [|p [|q l]] eqn:Hf; cbn in He;
    try discriminate.
  injection He as <-.
  assert (Hp : In p (filter (fun q => (p_id q =? userId)%string)
                            (profiles w))) by (rewrite Hf; now left).
  apply filter_In in Hp as [Hin Hid]. apply String.eqb_eq in Hid.
  now exists p.
Qed.

Lemma share_to_caller_resolved (w : World) (userId fileId : string)
      (s : ShareRow) :
  profile_ids_unique w = true ->
  (share_to_caller w userId fileId s <-> private_share_of w userId fileId s).
Proof.
  intros Hu. split.
  - intros [p [Hin [Hid [Hs [Hf [He Hpriv]]]]]].
    exists (p_email p). split; [|split; [|exact Hpriv]].
    + rewrite <- Hid. now apply email_of_profile.
    + now split.
  - intros [email [He [[Hs [Hf Hes]] Hpriv]]].
    destruct (email_has_profile w userId email He) as [p [Hin [Hid Hpe]]].
    exists p. repeat split; try assumption. congruence.
Qed.

(** C2.  In a store where file ids and profile ids are keys and targeted
    shares are one per (file, email): an owner is allowed at level owner
    whatever is needed; a non-owner is never allowed what needs owner; a
    non-owner is allowed view exactly when the share table holds a private
    row for the file whose email is the one on the caller's profile row,
    and edit exactly when that row's permission is edit or admin, the
    level reported being view for a view share and edit for an edit or
    admin share; without such a row every request is denied. *)
Theorem permission_resolution :
  forall w userId fileId,
    file_ids_unique w = true ->
    profile_ids_unique w = true ->
    shares_wf w = true ->
    (owns w userId fileId ->
     forall needed,
       hasFilePermission w userId fileId needed = mkPerm true (Some LOwner))
    /\ (~ owns w userId fileId ->
        hasFilePermission w userId fileId LOwner = mkPerm false None
        /\ (allowed (hasFilePermission w userId fileId LView) = true
            <-> exists s, share_to_caller w userId fileId s)
        /\ (allowed (hasFilePermission w userId fileId LEdit) = true
            <-> exists s, share_to_caller w userId fileId s
                          /\ (s_permissions s = PEdit
                              \/ s_permissions s = PAdmin))
        /\ (forall s needed,
               share_to_caller w userId fileId s ->
               needed <> LOwner ->
               level (hasFilePermission w userId fileId needed)
               = Some (match s_permissions s with
                       | PView => LView
                       | PEdit | PAdmin => LEdit
                       end))
        /\ ((forall s, ~ share_to_caller w userId fileId s) ->
            forall needed,
              hasFilePermission w userId fileId needed = mkPerm false None)).
Proof.
  intros w userId fileId Hu Hpu Hwf. split.
  - intros Hown needed. apply (isOwner_owns w userId fileId Hu) in Hown.
    unfold hasFilePermission. now rewrite Hown.
  - intros Hnot. pose proof (isOwner_false w userId fileId Hu Hnot) as Ho.
    pose proof (fun s => share_to_caller_resolved w userId fileId s Hpu)
      as Hsame.
    destruct (resolution_by_share w userId fileId Hwf Ho)
      as [[s [Hs [Honly Hres]]]|[Hno Hres]].
    + split; [apply (Hres LOwner)|].
      split.
      { rewrite (Hres LView). cbn [allowed]. split; [|reflexivity].
        intros _. exists s. now apply Hsame. }
      split.
      { rewrite (Hres LEdit). cbn [allowed]. unfold share_level. split.
        - intros Hlev. exists s. split; [now apply Hsame|].
          destruct (s_permissions s); cbn in Hlev;
            [discriminate|now left|now right].
        - intros [t [Ht Hperm]]. apply Hsame in Ht.
          rewrite (Honly t Ht) in Hperm.
          destruct Hperm as [-> | ->]; reflexivity. }
      split.
      { intros t needed Ht Hneeded. apply Hsame in Ht.
        rewrite (Honly t Ht), (Hres needed).
        unfold share_level.
        destruct needed; [| |contradiction];
          destruct (s_permissions s); reflexivity. }
      intros Hnone. exfalso. apply (Hnone s). now apply Hsame.
    + split; [apply (Hres LOwner)|].
      split.
      { rewrite (Hres LView). cbn [allowed]. split; [discriminate|].
        intros [s Hs]. exfalso. apply (Hno s). now apply Hsame. }
      split.
      { rewrite (Hres LEdit). cbn [allowed]. split; [discriminate|].
        intros [s [Hs _]]. exfalso. apply (Hno s). now apply Hsame. }
      split.
      { intros s needed Hs. exfalso. apply (Hno s). now apply Hsame. }
      intros _ needed. apply Hres.
Qed.

Lemma permission_resolution_witness :
  (forall needed,
      hasFilePermission world0 "alice" "f1" needed
      = mkPerm true (Some LOwner))
  /\ hasFilePermission world0 "bob" "f1" LOwner = mkPerm false None
  /\ allowed (hasFilePermission world0 "bob" "f1" LView) = true
  /\ level (hasFilePermission world0 "bob" "f1" LView) = Some LView
  /\ level (hasFilePermission world0 "bob" "f1" LEdit) = Some LView
  /\ (forall needed,
         hasFilePermission world0 "bob" "f2" needed = mkPerm false None).
Proof.
  destruct (permission_resolution world0 "alice" "f1" eq_refl eq_refl eq_refl)
    as [Hown _].
  destruct (permission_resolution world0 "bob" "f1" eq_refl eq_refl eq_refl)
    as [_ Hother].
  destruct (permission_resolution world0 "bob" "f2" eq_refl eq_refl eq_refl)
    as [_ Hnone].
  assert (Hnot : forall i, ~ owns world0 "bob" i).
  { intros i [f [Hin [Hi Hus]]]. simpl in Hin.
    destruct Hin as [<-|[<-|[]]]; simpl in Hus; discriminate. }
  assert (Hshare : share_to_caller world0 "bob" "f1" view_share).
  { exists (mkProfile "bob" "bob@x.io"). simpl. repeat split; auto. }
  destruct (Hother (Hnot "f1")) as [Hdenied [Hview [_ [Hlevel _]]]].
  destruct (Hnone (Hnot "f2")) as [_ [_ [_ [_ Hno]]]].
  split; [|split; [|split; [|split; [|split]]]].
  - apply Hown. exists report. simpl. auto.
  - exact Hdenied.
  - apply Hview. now exists view_share.
  - apply (Hlevel view_share LView Hshare). discriminate.
  - apply (Hlevel view_share LEdit Hshare). discriminate.
  - apply Hno. intros s [p [Hp [Hid [Hs [Hf [He Hpriv]]]]]].
    simpl in Hs.
    destruct Hs as [<-|[<-|[<-|[]]]]; simpl in Hf, Hpriv; discriminate.
Defined.

Example bob_may_view_not_edit :
  hasFilePermission world0 "bob" "f1" LView = mkPerm true (Some LView)
  /\ hasFilePermission world0 "bob" "f1" LEdit = mkPerm false (Some LView)
  /\ hasFilePermission world0 "bob" "f2" LView = mkPerm false None.
Proof. vm_compute. repeat split; reflexivity. Qed.

(** ** A view-only share: download, rename, trash *)


Lemma live_file_found (w : World) (f : FileRow) :
  file_ids_unique w = true -> In f (files w) ->
  filter (fun g => (f_id g =? f_id f)%string && Bool.eqb (f_is_deleted g) false)
         (files w)
  = if f_is_deleted f then [] else [f].
Proof.
  intros Hu Hin.
  rewrite (filter_key_found f_id (fun g => Bool.eqb (f_is_deleted g) false)
             (files w) (f_id f) f Hu Hin eq_refl).
  destruct (f_is_deleted f); reflexivity.
Qed.




(** ** Public links *)

(** The 200 answer, when [.eq("public_token", token).eq("share_type",
    "public")] selects one row. *)
Lemma resolve_link_ok (env : Env) (w : World) (token : string)
      (s : ShareRow) (f : FileRow) :
  filter (fun x => token_is token x && is_public x) (shares w) = [s] ->
  expired env s = false ->
  share_file w s = Some f ->
  fails env StorageSign = false ->
  resolvePublicLinkRoute env token w
  = (json (JDownload (mkSigned (f_path f) 3600)
                     (mkMeta (f_id f) (f_name f) (f_size f) (f_type f))),
     w).
Proof.
  intros Hm Hexp Hfile Hsign. unfold resolvePublicLinkRoute. run.
  rewrite Hm. cbn [maybeSingle]. rewrite Hexp, Hfile.
  unfold storage_sign. rewrite Hsign. reflexivity.
Qed.






(** ** Version manager *)

Lemma filter_filter_and {A} (p q : A -> bool) (l : list A) :
  filter q (filter p l) = filter (fun x => p x && q x) l.
Proof.
  induction l as [|a l IH]; [reflexivity|].
  cbn [filter]. destruct (p a); cbn [andb filter]; now rewrite IH.
Qed.

Lemma largest_covers (vs : list VersionRow) (v : VersionRow) :
  In v vs -> exists m, largest_number vs = Some m /\ v_version_number v <= m.
Proof.
  induction vs as [|a vs IH]; intros Hin; [contradiction|].
  cbn [largest_number fold_right]. fold (largest_number vs).
  destruct Hin as [-> | Hin].
  - destruct (largest_number vs) as [m|]; eexists; split;
      try reflexivity; lia.
  - destruct (IH Hin) as [m [-> Hle]]. eexists. split; [reflexivity|lia].
Qed.

Lemma largest_bounded (vs : list VersionRow) (N m : Z) :
  (forall v, In v vs -> v_version_number v <= N) ->
  largest_number vs = Some m -> m <= N.
Proof.
  revert m. induction vs as [|a vs IH]; intros m Hb Hl; [discriminate|].
  cbn [largest_number fold_right] in Hl. fold (largest_number vs) in Hl.
  assert (Ha : v_version_number a <= N) by (apply Hb; now left).
  destruct (largest_number vs) as [m'|] eqn:Hm.
  - assert (m' <= N) by (apply IH; [intros v Hv; apply Hb; now right|easy]).
    injection Hl as <-. lia.
  - injection Hl as <-. lia.
Qed.

Lemma largest_is (vs : list VersionRow) (N : Z) :
  (forall v, In v vs -> v_version_number v <= N) ->
  (exists v, In v vs /\ v_version_number v = N) ->
  largest_number vs = Some N.
Proof.
  intros Hb [v [Hin Hv]].
  destruct (largest_covers vs v Hin) as [m [Hm Hle]].
  pose proof (largest_bounded vs N m Hb Hm). rewrite Hm. f_equal. lia.
Qed.

Lemma next_version_is (w : World) (fileId : string) (N : Z) :
  (forall v, In v (versions_of w fileId) -> v_version_number v <= N) ->
  (exists v, In v (versions_of w fileId) /\ v_version_number v = N) ->
  next_version w fileId = N + 1.
Proof.
  intros Hb Hex. unfold next_version, last_version_number.
  now rewrite (largest_is (versions_of w fileId) N Hb Hex).
Qed.

Lemma next_version_first (w : World) (fileId : string) :
  versions_of w fileId = [] -> next_version w fileId = 1.
Proof.
  intros Hnone. unfold next_version, last_version_number.
  rewrite Hnone. reflexivity.
Qed.

Lemma next_version_above (w : World) (fileId : string) (v : VersionRow) :
  In v (versions_of w fileId) ->
  v_version_number v < next_version w fileId.
Proof.
  intros Hin. unfold next_version, last_version_number.
  destruct (largest_covers (versions_of w fileId) v Hin) as [m [Hm Hle]].
  rewrite Hm. lia.
Qed.

Lemma numbered_in_range (N : Z) (vs : list VersionRow) (v : VersionRow) :
  numbered_1_to N vs -> In v vs -> 1 <= v_version_number v <= N.
Proof.
  intros Hn Hin. specialize (Hn (v_version_number v)).
  assert (Hv : In v (numbered (v_version_number v) vs)).
  { apply filter_In. split; [assumption|apply Z.eqb_refl]. }
  destruct (Z.leb_spec 1 (v_version_number v));
    destruct (Z.leb_spec (v_version_number v) N); cbn [andb] in Hn;
    try lia;
    destruct (numbered (v_version_number v) vs); cbn in *;
    try contradiction; discriminate.
Qed.

Lemma numbered_once (N K : Z) (vs : list VersionRow) :
  numbered_1_to N vs -> 1 <= K <= N ->
  exists v, numbered K vs = [v] /\ In v vs /\ v_version_number v = K.
Proof.
  intros Hn [Hlo Hhi]. specialize (Hn K).
  destruct (Z.leb_spec 1 K); [|lia]. destruct (Z.leb_spec K N); [|lia].
  cbn [andb] in Hn.
  destruct (numbered K vs) as [|v [|u l]] eqn:Hk; try discriminate.
  exists v. split; [reflexivity|].
  assert (Hv : In v (numbered K vs)) by (rewrite Hk; now left).
  apply filter_In in Hv as [Hin Heq]. split; [assumption|].
  now apply Z.eqb_eq in Heq.
Qed.

Lemma version_lookup (w : World) (fileId : string) (K : Z) :
  filter (fun v => (v_file_id v =? fileId)%string && (v_version_number v =? K))
         (file_versions w)
  = numbered K (versions_of w fileId).
Proof.
  unfold numbered, versions_of. now rewrite filter_filter_and.
Qed.

Lemma versions_of_snoc (w : World) (fileId : string) (v : VersionRow)
      (vs : list VersionRow) :
  vs = (file_versions w ++ [v])%list -> v_file_id v = fileId ->
  filter (fun x => (v_file_id x =? fileId)%string) vs
  = (versions_of w fileId ++ [v])%list.
Proof.
  intros -> Hf. rewrite filter_app. cbn [filter].
  now rewrite Hf, String.eqb_refl.
Qed.

(** C4.  For a file of the caller whose versions are numbered 1..N:
    restoring a version K in that range (the two writes going through)
    answers 200, leaves every row of the file pointing at version K's path
    with version K's size, and leaves the version table as it was plus one
    row at its end, numbered N+1, of change type restore, with version K's
    path and size; restoring a number no version of the file has answers
    404 and leaves the store as it was. *)
Theorem restore_version_appends_one :
  forall w f N,
    file_ids_unique w = true ->
    In f (files w) ->
    numbered_1_to N (versions_of w (f_id f)) ->
    (forall env K,
        1 <= K <= N ->
        fails env FilesUpdate = false ->
        fails env VersionsInsert = false ->
        exists v,
          In v (versions_of w (f_id f)) /\ v_version_number v = K
          /\ fst (restoreVersionRoute env (f_user_id f) (f_id f) (Some K) w)
             = json (JMessage "File restored to selected version")
          /\ In (point_at (v_path v) (v_size v) f)
                (files (snd (restoreVersionRoute env (f_user_id f) (f_id f)
                                                 (Some K) w)))
          /\ (forall g,
                 In g (files (snd (restoreVersionRoute env (f_user_id f)
                                                       (f_id f) (Some K) w))) ->
                 f_id g = f_id f ->
                 f_path g = v_path v /\ f_size g = v_size v)
          /\ file_versions (snd (restoreVersionRoute env (f_user_id f) (f_id f)
                                                     (Some K) w))
             = (file_versions w
                ++ [mkVersion (f_id f) (N + 1) (v_size v) (v_path v)
                              ChRestore (f_user_id f)])%list)
    /\ (forall env K,
           (forall v, In v (versions_of w (f_id f)) ->
                      v_version_number v <> K) ->
           restoreVersionRoute env (f_user_id f) (f_id f) (Some K) w
           = (error_json 404 "Version not found", w)).
Proof.
  intros w f N Hu Hin Hn. split.
  - intros env K HK Hupd Hins.
    destruct (numbered_once N K _ Hn HK) as [v [Hk [Hv HvK]]].
    exists v. split; [assumption|]. split; [assumption|].
    assert (Hnext : next_version w (f_id f) = N + 1).
    { apply next_version_is.
      - intros x Hx. now apply (numbered_in_range N _ x Hn).
      - assert (HN : 1 <= N <= N) by lia.
        destruct (numbered_once N N _ Hn HN) as [x [_ [Hx HxN]]].
        now exists x. }
    assert (Hrun :
      restoreVersionRoute env (f_user_id f) (f_id f) (Some K) w
      = (json (JMessage "File restored to selected version"),
         add_emitted
           (mkEmitted ("user:" ++ f_user_id f) "file:updated" (f_id f))
           (set_file_versions
              (file_versions w
               ++ [mkVersion (f_id f) (N + 1) (v_size v) (v_path v)
                             ChRestore (f_user_id f)])
              (set_files
                 (map (fun g => if (f_id g =? f_id f)%string
                                then point_at (v_path v) (v_size v) g
                                else g) (files w)) w)))).
    { unfold restoreVersionRoute. run.
      rewrite (owned_file_found w f Hu Hin).
      rewrite version_lookup, Hk. cbn [single].
      unfold files_update, versions_insert. rewrite Hupd. run.
      change (next_version (set_files _ w) (f_id f))
        with (next_version w (f_id f)).
      rewrite Hnext. cbn [set_files fails]. rewrite Hins. reflexivity. }
    rewrite Hrun. cbn [fst snd]. split; [reflexivity|].
    cbn [add_emitted set_file_versions set_files files file_versions].
    split; [|split; [|reflexivity]].
    + apply in_map_iff. exists f. split; [|assumption].
      now rewrite String.eqb_refl.
    + intros g Hg Hid. apply in_map_iff in Hg as [g0 [Heq Hg0]].
      destruct (String.eqb_spec (f_id g0) (f_id f)) as [Hsame|Hdiff].
      * subst g. cbn. split; reflexivity.
      * subst g. contradiction.
  - intros env K Hnone. unfold restoreVersionRoute. run.
    rewrite (owned_file_found w f Hu Hin). rewrite version_lookup.
    destruct (numbered K (versions_of w (f_id f))) as [|v l] eqn:Hk;
      [reflexivity|].
    assert (Hv : In v (numbered K (versions_of w (f_id f))))
      by (rewrite Hk; now left).
    apply filter_In in Hv as [Hv HvK]. apply Z.eqb_eq in HvK.
    exfalso. exact (Hnone v Hv HvK).
Qed.

Lemma world0_versions_numbered :
  numbered_1_to 2 (versions_of world0 "f1").
Proof.
  intros k. unfold numbered.
  change (versions_of world0 "f1") with (file_versions world0).
  cbn [file_versions world0 filter v_version_number].
  destruct (Z.eqb_spec 1 k) as [<-|H1]; [reflexivity|].
  destruct (Z.eqb_spec 2 k) as [<-|H2]; [reflexivity|].
  destruct (Z.leb_spec 1 k); destruct (Z.leb_spec k 2);
    cbn [andb List.length]; try reflexivity.
  lia.
Qed.

Lemma restore_version_appends_one_witness :
  (exists v,
      In v (versions_of world0 "f1") /\ v_version_number v = 1
      /\ file_versions (snd (restoreVersionRoute env0 "alice" "f1" (Some 1)
                                                 world0))
         = (file_versions world0
            ++ [mkVersion "f1" (2 + 1) (v_size v) (v_path v) ChRestore
                          "alice"])%list)
  /\ restoreVersionRoute env0 "alice" "f1" (Some 7) world0
     = (error_json 404 "Version not found", world0).
Proof.
  assert (Hin : In report (files world0)) by (simpl; auto).
  destruct (restore_version_appends_one world0 report 2 eq_refl Hin
              world0_versions_numbered) as [Hok Hmiss].
  split.
  - assert (HK : 1 <= 1 <= 2) by lia.
    destruct (Hok env0 1 HK eq_refl eq_refl)
      as [v [Hv [Hnum [_ [_ [_ Hhist]]]]]].
    exists v. split; [exact Hv|]. split; [exact Hnum|exact Hhist].
  - apply (Hmiss env0 7). intros v Hv. simpl in Hv.
    destruct Hv as [<-|[<-|[]]]; simpl; discriminate.
Defined.

Example restore_first_version :
  let (r, w) := restoreVersionRoute env0 "alice" "f1" (Some 1) world0 in
  status r = 200
  /\ map v_version_number (versions_of w "f1") = [1; 2; 3]
  /\ find (fun g => (f_id g =? "f1")%string) (files w)
     = Some (point_at "alice/versions/f1/1.pdf" 10 report).
Proof. vm_compute. repeat split; reflexivity. Qed.

Lemma createVersion_ok (env : Env) (userId fileId : string)
      (b : option Upload) (w : World) :
  status (fst (createVersionRoute env userId fileId b w)) = 200 ->
  exists blob path,
    b = Some blob
    /\ fst (createVersionRoute env userId fileId b w)
       = json (JVersion "New version created"
                 (mkVersion fileId (next_version w fileId) (size blob) path
                            ChUpdate userId))
    /\ file_versions (snd (createVersionRoute env userId fileId b w))
       = (file_versions w
          ++ [mkVersion fileId (next_version w fileId) (size blob) path
                        ChUpdate userId])%list.
Proof.
  unfold createVersionRoute. destruct b as [blob|]; run;
    [|cbn; discriminate].
  destruct (single _); [|cbn; discriminate].
  unfold storage_upload.
  destruct (fails env StorageUpload || existsb _ (storage w));
    [cbn; discriminate|].
  unfold versions_insert. cbn [set_storage fails].
  destruct (fails env VersionsInsert); [cbn; discriminate|].
  unfold files_update. cbn [set_file_versions].
  destruct (fails env FilesUpdate); [cbn; discriminate|].
  intros _. eexists. eexists. split; [reflexivity|].
  split; reflexivity.
Qed.

Lemma numbers_1_to_next (w : World) (fileId : string) (M : nat) :
  map v_version_number (versions_of w fileId) = map Z.of_nat (seq 1 M) ->
  next_version w fileId = Z.of_nat (S M).
Proof.
  intros Hnum. destruct M as [|M].
  - cbn in Hnum. apply map_eq_nil in Hnum.
    now rewrite (next_version_first w fileId Hnum).
  - replace (Z.of_nat (S (S M))) with (Z.of_nat (S M) + 1) by lia.
    apply next_version_is.
    + intros v Hv.
      assert (Hn : In (v_version_number v) (map Z.of_nat (seq 1 (S M)))).
      { rewrite <- Hnum. now apply in_map. }
      apply in_map_iff in Hn as [n [<- Hn]]. apply in_seq in Hn. lia.
    + assert (Hn : In (Z.of_nat (S M))
                      (map v_version_number (versions_of w fileId))).
      { rewrite Hnum. apply in_map. apply in_seq. lia. }
      apply in_map_iff in Hn as [v [Hv Hin]]. now exists v.
Qed.

Lemma createVersion_cases (env : Env) (userId fileId : string)
      (b : option Upload) (w : World) :
  file_versions (snd (createVersionRoute env userId fileId b w))
  = file_versions w
  \/ exists v,
      file_versions (snd (createVersionRoute env userId fileId b w))
      = (file_versions w ++ [v])%list
      /\ v_file_id v = fileId
      /\ v_version_number v = next_version w fileId.
Proof.
  unfold createVersionRoute. destruct b as [blob|]; run; [|now left].
  destruct (single _); [|now left].
  unfold storage_upload.
  destruct (fails env StorageUpload || existsb _ (storage w)); [now left|].
  unfold versions_insert. cbn [set_storage fails].
  destruct (fails env VersionsInsert); [now left|].
  unfold files_update. cbn [set_file_versions].
  right.
  destruct (fails env FilesUpdate); eexists;
    (split; [reflexivity|]); split; reflexivity.
Qed.

Lemma restoreVersion_cases (env : Env) (userId fileId : string)
      (n : option Z) (w : World) :
  file_versions (snd (restoreVersionRoute env userId fileId n w))
  = file_versions w
  \/ exists v,
      file_versions (snd (restoreVersionRoute env userId fileId n w))
      = (file_versions w ++ [v])%list
      /\ v_file_id v = fileId
      /\ v_version_number v = next_version w fileId.
Proof.
  unfold restoreVersionRoute. destruct n as [K|]; run; [|now left].
  destruct (owned_file w userId fileId); [|now left].
  destruct (single _) as [version|]; [|now left].
  unfold files_update. destruct (fails env FilesUpdate); [now left|].
  unfold versions_insert. cbn [set_files fails].
  destruct (fails env VersionsInsert); [now left|].
  right. eexists. split; [reflexivity|]. split; reflexivity.
Qed.

Lemma history_grows (env : Env) (r : Request) (w : World) :
  file_versions (snd (serve env r w)) = file_versions w
  \/ exists v,
      file_versions (snd (serve env r w)) = (file_versions w ++ [v])%list
      /\ v_version_number v = next_version w (v_file_id v)
      /\ (creates_version_of (v_file_id v) r = true
          \/ restores_version_of (v_file_id v) r = true).
Proof.
  pose proof (other_routes_keep_versions env r w) as Hkeep.
  destruct r; try (now left); cbn [serve]; clear Hkeep.
  - destruct (createVersion_cases env userId fileId fileBlob w)
      as [Hsame|[v [Hadd [Hf Hn]]]]; [now left|].
    right. exists v. rewrite Hf. split; [assumption|].
    split; [assumption|]. left. apply String.eqb_refl.
  - destruct (restoreVersion_cases env userId fileId versionNumber w)
      as [Hsame|[v [Hadd [Hf Hn]]]]; [now left|].
    right. exists v. rewrite Hf. split; [assumption|].
    split; [assumption|]. right. apply String.eqb_refl.
Qed.

Lemma others_keep_versions_of (env : Env) (r : Request) (w : World)
      (fileId : string) :
  creates_version_of fileId r = false ->
  restores_version_of fileId r = false ->
  versions_of (snd (serve env r w)) fileId = versions_of w fileId.
Proof.
  intros Hc Hr. unfold versions_of.
  destruct (history_grows env r w) as [->|[v [-> [_ Hv]]]]; [reflexivity|].
  rewrite filter_app. cbn [filter].
  destruct (String.eqb_spec (v_file_id v) fileId) as [<-|_];
    [|apply app_nil_r].
  destruct Hv; congruence.
Qed.

Lemma create_versions_count_up (fileId : string)
      (reqs : list (Env * Request)) :
  forall (w : World) (M : nat),
    map v_version_number (versions_of w fileId) = map Z.of_nat (seq 1 M) ->
    Forall (fun er => restores_version_of fileId (snd er) = false) reqs ->
    Forall2 (fun er resp => creates_version_of fileId (snd er) = true ->
                            status resp = 200)
            reqs (fst (serve_all reqs w)) ->
    map v_version_number (versions_of (snd (serve_all reqs w)) fileId)
    = map Z.of_nat
        (seq 1 (M + List.length
                      (filter (fun er => creates_version_of fileId (snd er))
                              reqs))).
Proof.
  induction reqs as [|[env r] reqs IH]; intros w M Hnum Hreq Hok.
  - cbn. now rewrite Nat.add_0_r.
  - inversion Hreq as [|x l Hr Hrest]; subst x l. cbn [snd] in Hr.
    cbn [serve_all] in *.
    destruct (serve env r w) as [resp w1] eqn:Hstep.
    destruct (serve_all reqs w1) as [resps w2] eqn:Hall.
    cbn [fst snd] in *.
    inversion Hok as [|x y l l' H200 Hoks]; subst x y l l'.
    cbn [snd filter] in *.
    assert (Hw2 : w2 = snd (serve_all reqs w1)) by now rewrite Hall.
    assert (Hresps : resps = fst (serve_all reqs w1)) by now rewrite Hall.
    destruct (creates_version_of fileId r) eqn:Hc.
    + destruct r; try discriminate. cbn [creates_version_of] in Hc.
      apply String.eqb_eq in Hc. subst fileId0. cbn [serve] in Hstep.
      assert (H200' : status (fst (createVersionRoute env userId fileId
                                                      fileBlob w)) = 200)
        by (rewrite Hstep; now apply H200).
      destruct (createVersion_ok env userId fileId fileBlob w H200')
        as [blob [path [_ [_ Hhist]]]].
      rewrite Hstep in Hhist. cbn [snd] in Hhist.
      assert (Hnum1 : map v_version_number (versions_of w1 fileId)
                      = map Z.of_nat (seq 1 (S M))).
      { unfold versions_of at 1.
        rewrite (versions_of_snoc w fileId _ _ Hhist eq_refl).
        rewrite map_app, Hnum. cbn [map v_version_number].
        rewrite (numbers_1_to_next w fileId M Hnum).
        now rewrite seq_S, map_app. }
      cbn [List.length]. rewrite Nat.add_succ_r, <- Nat.add_succ_l, Hw2.
      apply IH; [assumption|assumption|now rewrite <- Hresps].
    + assert (Hsame : versions_of w1 fileId = versions_of w fileId).
      { replace w1 with (snd (serve env r w)) by now rewrite Hstep.
        now apply others_keep_versions_of. }
      rewrite Hw2. apply IH; [now rewrite Hsame|assumption|].
      now rewrite <- Hresps.
Qed.

(** C5.  A successful version creation answers with a version whose number
    is the largest number the file has (0 when it has none) plus one, above
    every number the file already has, and adds that one row to the file's
    versions.  No request removes or rewrites a version row, and a row a
    request adds is numbered above every version its file had, so a number
    is never used twice.  Hence for a file without versions, serialized
    requests of any kind among which the N version creations for the file
    are all answered 200 (and none restores a version of it) leave the file
    with the version numbers 1, 2, ..., N, each once. *)
Theorem version_numbers_count_from_one :
  forall fileId,
    (forall env userId b w,
        status (fst (createVersionRoute env userId fileId b w)) = 200 ->
        exists v,
          body (fst (createVersionRoute env userId fileId b w))
          = JVersion "New version created" v
          /\ v_version_number v
             = match last_version_number w fileId with
               | Some n => n
               | None => 0
               end + 1
          /\ (forall x, In x (versions_of w fileId) ->
                        v_version_number x < v_version_number v)
          /\ versions_of (snd (createVersionRoute env userId fileId b w))
                         fileId
             = (versions_of w fileId ++ [v])%list)
    /\ (forall env r w,
           exists added,
             file_versions (snd (serve env r w))
             = (file_versions w ++ added)%list
             /\ forall v x,
                 In v added -> In x (versions_of w (v_file_id v)) ->
                 v_version_number x < v_version_number v)
    /\ (forall reqs w,
           versions_of w fileId = [] ->
           Forall (fun er => restores_version_of fileId (snd er) = false)
                  reqs ->
           Forall2 (fun er resp =>
                      creates_version_of fileId (snd er) = true ->
                      status resp = 200)
                   reqs (fst (serve_all reqs w)) ->
           map v_version_number (versions_of (snd (serve_all reqs w)) fileId)
           = map Z.of_nat
               (seq 1 (List.length
                         (filter (fun er =>
                                    creates_version_of fileId (snd er))
                                 reqs)))).
Proof.
  intros fileId. split; [|split].
  - intros env userId b w H200.
    destruct (createVersion_ok env userId fileId b w H200)
      as [blob [path [_ [Hresp Hhist]]]].
    eexists. rewrite Hresp. cbn [body json fst]. split; [reflexivity|].
    cbn [v_version_number]. split; [|split].
    + unfold next_version. destruct (last_version_number w fileId); lia.
    + intros x Hx. now apply next_version_above.
    + unfold versions_of at 1.
      now rewrite (versions_of_snoc w fileId _ _ Hhist eq_refl).
  - intros env r w.
    destruct (history_grows env r w) as [Hsame|[v [Hadd [Hn _]]]].
    + exists []. rewrite app_nil_r. split; [assumption|].
      intros v x [].
    + exists [v]. split; [assumption|].
      intros v' x [<-|[]] Hx. rewrite Hn. now apply next_version_above.
  - intros reqs w Hnone Hreq Hok.
    apply (create_versions_count_up fileId reqs w 0%nat); try assumption.
    now rewrite Hnone.
Qed.

Lemma version_numbers_count_from_one_witness :
  map v_version_number (versions_of (snd (serve_all two_creates world1)) "f1")
  = [1; 2].
Proof.
  destruct (version_numbers_count_from_one "f1") as [_ [_ Hseq]].
  apply (Hseq two_creates world1).
  - reflexivity.
  - repeat constructor.
  - vm_compute. repeat constructor.
Defined.

(** ** Share manager *)

(** *** The invariant under the writes of the share routes *)

Lemma filter_length_imp {A} (p q : A -> bool) (l : list A) :
  (forall x, p x = true -> q x = true) ->
  (List.length (filter p l) <= List.length (filter q l))%nat.
Proof.
  intros Himp. induction l as [|a l IH]; [cbn; lia|].
  cbn [filter]. destruct (p a) eqn:Hp.
  - rewrite (Himp a Hp). cbn [List.length]. lia.
  - destruct (q a); cbn [List.length]; lia.
Qed.

Lemma shares_wf_ext (w w' : World) :
  shares w' = shares w -> shares_wf w' = shares_wf w.
Proof.
  intros Heq. unfold shares_wf, share_alone, shares_for. now rewrite Heq.
Qed.

Lemma shares_wf_filter (w w' : World) (p : ShareRow -> bool) :
  shares_wf w = true -> shares w' = filter p (shares w) ->
  shares_wf w' = true.
Proof.
  intros Hwf Heq. unfold shares_wf in *.
  apply andb_true_iff in Hwf as [Ht Ha]. rewrite forallb_forall in Ht, Ha.
  apply andb_true_iff. split; apply forallb_forall; intros s Hs;
    rewrite Heq in Hs; apply filter_In in Hs as [Hs _].
  - now apply Ht.
  - specialize (Ha s Hs). unfold share_alone in *.
    apply orb_true_iff in Ha as [He|Hlen]; apply orb_true_iff;
      [now left|right].
    apply Nat.leb_le in Hlen. apply Nat.leb_le.
    unfold shares_for in *. rewrite Heq, filter_filter_and.
    etransitivity; [|exact Hlen].
    apply filter_length_imp. intros x Hx.
    now apply andb_true_iff in Hx as [_ Hx].
Qed.

Lemma shares_wf_add (w w' : World) (s : ShareRow) :
  shares_wf w = true ->
  shares w' = (shares w ++ [s])%list ->
  share_typed s = true ->
  (s_shared_with_email s <> ""
   -> shares_for w (s_file_id s) (s_shared_with_email s) = []) ->
  shares_wf w' = true.
Proof.
  intros Hwf Heq Htyped Hfresh. unfold shares_wf in *.
  apply andb_true_iff in Hwf as [Ht Ha]. rewrite forallb_forall in Ht, Ha.
  apply andb_true_iff. split; apply forallb_forall; intros x Hx;
    rewrite Heq in Hx; apply in_app_iff in Hx as [Hx|[<-|[]]].
  - now apply Ht.
  - assumption.
  - specialize (Ha x Hx). unfold share_alone in *.
    apply orb_true_iff in Ha as [He|Hlen]; apply orb_true_iff;
      [now left|].
    destruct (String.eqb_spec (s_shared_with_email x) "") as [|Hne];
      [now left|right].
    unfold shares_for in *. rewrite Heq, filter_app. cbn [filter].
    destruct ((s_file_id s =? s_file_id x)%string
              && (s_shared_with_email s =? s_shared_with_email x)%string)
      eqn:Hsame.
    + exfalso. apply andb_true_iff in Hsame as [Hf He].
      apply String.eqb_eq in Hf, He.
      assert (Hs : s_shared_with_email s <> "") by congruence.
      specialize (Hfresh Hs).
      assert (Hin : In x (filter
                            (fun y => (s_file_id y =? s_file_id s)%string
                                      && (s_shared_with_email y
                                          =? s_shared_with_email s)%string)
                            (shares w))).
      { apply filter_In. split; [assumption|].
        rewrite Hf, He, !String.eqb_refl. reflexivity. }
      rewrite Hfresh in Hin. contradiction.
    + now rewrite app_nil_r.
  - unfold share_alone.
    destruct (String.eqb_spec (s_shared_with_email s) "") as [|Hne];
      [reflexivity|].
    cbn [orb]. unfold shares_for in *. rewrite Heq, filter_app.
    rewrite (Hfresh Hne). cbn [filter app].
    rewrite !String.eqb_refl. reflexivity.
Qed.

Lemma shares_wf_one_per_pair (w : World) :
  shares_wf w = true -> one_private_share_per_pair w.
Proof.
  intros Hwf fileId email. unfold private_shares_for.
  destruct (String.eqb_spec email "") as [->|Hne].
  - assert (Hnone : filter (fun s => negb (is_public s)
                                     && (s_file_id s =? fileId)%string
                                     && (s_shared_with_email s =? "")%string)
                           (shares w) = []).
    { destruct (filter _ (shares w)) as [|x l] eqn:Hf; [reflexivity|].
      assert (Hx : In x (filter (fun s => negb (is_public s)
                                     && (s_file_id s =? fileId)%string
                                     && (s_shared_with_email s =? "")%string)
                                (shares w))) by (rewrite Hf; now left).
      apply filter_In in Hx as [Hin Hp].
      apply andb_true_iff in Hp as [Hp He].
      apply andb_true_iff in Hp as [Hpriv _].
      unfold shares_wf in Hwf. apply andb_true_iff in Hwf as [Ht _].
      rewrite forallb_forall in Ht. specialize (Ht x Hin).
      unfold share_typed in Ht. rewrite He in Ht.
      destruct (is_public x); discriminate. }
    rewrite Hnone. cbn. lia.
  - etransitivity; [|exact (shares_for_at_most_one w fileId email Hwf Hne)].
    unfold shares_for. apply filter_length_imp. intros x Hx.
    apply andb_true_iff in Hx as [Hx He].
    apply andb_true_iff in Hx as [_ Hf]. now rewrite Hf, He.
Qed.

Lemma truthy_nonempty (s : string) : truthy s = true -> s <> "".
Proof.
  unfold truthy. intros H. apply negb_true_iff in H.
  now apply String.eqb_neq.
Qed.

Lemma no_match_is_empty (w : World) (fileId email : string) :
  shares_wf w = true -> email <> "" ->
  fst (maybeSingle (shares_for w fileId email)) = None ->
  shares_for w fileId email = [].
Proof.
  intros Hwf Hne Hnone.
  destruct (shares_lookup w fileId email Hwf Hne) as [[s [Hl _]]|[Hl _]];
    [|assumption].
  rewrite Hl in Hnone. discriminate.
Qed.

(** *** What each share route does to the store *)

Lemma createShare_cases (env : Env) (userId fileId : string) (b : ShareBody)
      (w : World) :
  (status (fst (createShareRoute env userId fileId b w)) <> 200
   /\ snd (createShareRoute env userId fileId b w) = w)
  \/ exists email perm,
      sb_email b = Some email
      /\ truthy email = true
      /\ parse_permission (requested_permissions b) = Some perm
      /\ owned_file w userId fileId <> None
      /\ single (filter (fun p => (p_email p =? email)%string) (profiles w))
         <> None
      /\ fst (maybeSingle (shares_for w fileId email)) = None
      /\ createShareRoute env userId fileId b w
         = (json (JShare "File shared successfully"
                    (mkShare (fresh_id env) fileId userId email perm
                             Private None None)),
            add_emitted
              (mkEmitted ("user:" ++ userId) "share:created" (fresh_id env))
              (set_shares
                 (shares w
                  ++ [mkShare (fresh_id env) fileId userId email perm
                              Private None None]) w)).
Proof.
  unfold createShareRoute.
  destruct (sb_email b) as [email|]; run;
    [|left; split; [cbn; discriminate|reflexivity]].
  destruct (truthy email) eqn:Htruthy; run; cbn [negb];
    [|left; split; [cbn; discriminate|reflexivity]].
  destruct (parse_permission (requested_permissions b)) as [perm|]; run;
    [|left; split; [cbn; discriminate|reflexivity]].
  destruct (owned_file w userId fileId) as [f|] eqn:Hown; run;
    [|left; split; [cbn; discriminate|reflexivity]].
  destruct (single (filter _ (profiles w))) as [p|] eqn:Hprof; run;
    [|left; split; [cbn; discriminate|reflexivity]].
  destruct (fst (maybeSingle (shares_for w fileId email))) as [x|] eqn:Hex;
    run; [left; split; [cbn; discriminate|reflexivity]|].
  unfold shares_insert.
  destruct (fails env SharesInsert); run;
    [left; split; [cbn; discriminate|reflexivity]|].
  right. exists email, perm.
  repeat split; try reflexivity; try assumption; congruence.
Qed.

Lemma createPublicLink_cases (env : Env) (userId fileId : string)
      (expiresAt : option Z) (w : World) :
  snd (createPublicLinkRoute env userId fileId expiresAt w) = w
  \/ shares (snd (createPublicLinkRoute env userId fileId expiresAt w))
     = (shares w
        ++ [mkShare (fresh_id env) fileId userId "" PView Public
                    (Some (fresh_token env)) expiresAt])%list.
Proof.
  unfold createPublicLinkRoute. run.
  destruct (owned_file w userId fileId); [|now left].
  unfold shares_insert. destruct (fails env SharesInsert); [now left|].
  now right.
Qed.

Lemma revokeShare_cases (env : Env) (userId fileId shareId : string)
      (w : World) :
  snd (revokeShareRoute env userId fileId shareId w) = w
  \/ exists p,
      shares (snd (revokeShareRoute env userId fileId shareId w))
      = filter p (shares w).
Proof.
  unfold revokeShareRoute. run.
  destruct (owned_file w userId fileId); [|now left].
  unfold shares_delete. destruct (fails env SharesDelete); [now left|].
  right. eexists. reflexivity.
Qed.

Lemma revokePublicLink_cases (env : Env) (userId token : string)
      (w : World) :
  snd (revokePublicLinkRoute env userId token w) = w
  \/ exists p,
      shares (snd (revokePublicLinkRoute env userId token w))
      = filter p (shares w).
Proof.
  unfold revokePublicLinkRoute. run.
  unfold shares_delete. destruct (fails env SharesDelete); [now left|].
  right. eexists. reflexivity.
Qed.

Lemma serve_keeps_shares_wf (env : Env) (r : Request) (w : World) :
  shares_wf w = true -> shares_wf (snd (serve env r w)) = true.
Proof.
  intros Hwf. pose proof (other_routes_keep_shares env r w) as Hkeep.
  destruct r; try (rewrite (shares_wf_ext _ _ Hkeep); exact Hwf);
    cbn [serve]; clear Hkeep.
  - destruct (createShare_cases env userId fileId b w)
      as [[_ ->]|[email [perm [_ [Ht [_ [_ [_ [Hnone ->]]]]]]]]];
      [assumption|].
    cbn [snd]. pose proof (truthy_nonempty email Ht) as Hne.
    eapply shares_wf_add; [exact Hwf|reflexivity| |].
    + unfold share_typed. cbn. apply String.eqb_neq in Hne. now rewrite Hne.
    + intros _. cbn [s_file_id s_shared_with_email].
      now apply no_match_is_empty.
  - destruct (revokeShare_cases env userId fileId shareId w)
      as [->|[p Hp]]; [assumption|].
    now apply (shares_wf_filter w _ p).
  - destruct (createPublicLink_cases env userId fileId expiresAt w)
      as [->|Hadd]; [assumption|].
    eapply shares_wf_add; [exact Hwf|exact Hadd|reflexivity|].
    intros Hne. now contradiction Hne.
  - destruct (revokePublicLink_cases env userId token w)
      as [->|[p Hp]]; [assumption|].
    now apply (shares_wf_filter w _ p).
Qed.

Lemma serve_all_keeps_shares_wf (reqs : list (Env * Request)) :
  forall w, shares_wf w = true -> shares_wf (snd (serve_all reqs w)) = true.
Proof.
  induction reqs as [|[env r] reqs IH]; intros w Hwf; [assumption|].
  cbn [serve_all].
  pose proof (serve_keeps_shares_wf env r w Hwf) as Hstep.
  destruct (serve env r w) as [resp w1]. cbn [snd] in Hstep.
  specialize (IH w1 Hstep).
  destruct (serve_all reqs w1) as [resps w2]. assumption.
Qed.

Lemma shares_for_after_insert (w : World) (e : Emitted) (s : ShareRow) :
  shares_for w (s_file_id s) (s_shared_with_email s) = [] ->
  shares_for (add_emitted e (set_shares (shares w ++ [s]) w))
             (s_file_id s) (s_shared_with_email s)
  = [s].
Proof.
  intros Hnone. unfold shares_for in *.
  cbn [shares add_emitted set_shares]. rewrite filter_app, Hnone.
  cbn [filter app]. now rewrite !String.eqb_refl.
Qed.

(** C8.  In a store whose shares are one per (file, email) (as in a store
    without shares), every request leaves at most one private share per
    (file id, shared_with_email) pair, however many requests are served;
    and after a targeted share of a file to an email was answered 200, a
    further well-formed targeted-share request of the same caller for the
    same file and email is answered 409 and changes nothing: the pair
    still has its one row. *)
Theorem one_private_share_per_pair_kept :
  forall w,
    shares_wf w = true ->
    (forall reqs, one_private_share_per_pair (snd (serve_all reqs w)))
    /\ (forall env1 env2 userId fileId b1 b2 email,
           status (fst (createShareRoute env1 userId fileId b1 w)) = 200 ->
           sb_email b1 = Some email ->
           sb_email b2 = Some email ->
           parse_permission (requested_permissions b2) <> None ->
           createShareRoute env2 userId fileId b2
             (snd (createShareRoute env1 userId fileId b1 w))
           = (error_json 409 "File already shared with this user",
              snd (createShareRoute env1 userId fileId b1 w))
           /\ List.length
                (shares_for (snd (createShareRoute env1 userId fileId b1 w))
                            fileId email)
              = 1%nat).
Proof.
  intros w Hwf. split.
  - intros reqs. apply shares_wf_one_per_pair.
    now apply serve_all_keeps_shares_wf.
  - intros env1 env2 userId fileId b1 b2 email H200 Hb1 Hb2 Hperm.
    destruct (createShare_cases env1 userId fileId b1 w)
      as [[Hno _]|[email' [perm [He [Ht [_ [Hown [Hprof [Hnone Hrun]]]]]]]]];
      [contradiction|].
    assert (email' = email) by congruence. subst email'.
    pose proof (truthy_nonempty email Ht) as Hne.
    pose proof (no_match_is_empty w fileId email Hwf Hne Hnone) as Hempty.
    rewrite Hrun. cbn [snd].
    set (share := mkShare (fresh_id env1) fileId userId email perm
                          Private None None) in *.
    set (e := mkEmitted ("user:" ++ userId) "share:created" (fresh_id env1)).
    pose proof (shares_for_after_insert w e share Hempty) as Hone.
    cbn [share s_file_id s_shared_with_email] in Hone.
    split; [|now rewrite Hone].
    unfold createShareRoute. rewrite Hb2. run. rewrite Ht. cbn [negb]. run.
    destruct (parse_permission (requested_permissions b2)) as [perm2|];
      [|contradiction]. run.
    fold share e. rewrite Hone.
    change (owned_file (add_emitted e (set_shares (shares w ++ [share]) w))
                       userId fileId)
      with (owned_file w userId fileId).
    destruct (owned_file w userId fileId) as [f|]; [|contradiction]. run.
    change (profiles (add_emitted e (set_shares (shares w ++ [share]) w)))
      with (profiles w).
    destruct (single (filter _ (profiles w))) as [p|]; [|contradiction].
    reflexivity.
Qed.

Lemma one_private_share_per_pair_kept_witness :
  createShareRoute env0 "alice" "f2"
    (mkShareBody (Some "bob@x.io") (Some "admin"))
    (snd (createShareRoute env0 "alice" "f2"
            (mkShareBody (Some "bob@x.io") None) world0))
  = (error_json 409 "File already shared with this user",
     snd (createShareRoute env0 "alice" "f2"
            (mkShareBody (Some "bob@x.io") None) world0))
  /\ List.length
       (shares_for (snd (createShareRoute env0 "alice" "f2"
                           (mkShareBody (Some "bob@x.io") None) world0))
                   "f2" "bob@x.io")
     = 1%nat.
Proof.
  destruct (one_private_share_per_pair_kept world0 eq_refl) as [_ Hsecond].
  apply (Hsecond env0 env0 "alice" "f2"
           (mkShareBody (Some "bob@x.io") None)
           (mkShareBody (Some "bob@x.io") (Some "admin")) "bob@x.io").
  - reflexivity.
  - reflexivity.
  - reflexivity.
  - discriminate.
Defined.

Example share_twice :
  let first := ReqCreateShare "alice" "f2" (mkShareBody (Some "bob@x.io") None) in
  let again := ReqCreateShare "alice" "f2"
                 (mkShareBody (Some "bob@x.io") (Some "edit")) in
  let (rs, w) := serve_all [(env0, first); (env0, again)] world0 in
  map status rs = [200; 409]
  /\ List.length (shares w) = 4%nat.
Proof. vm_compute. split; reflexivity. Qed.

(** * Further properties of the routes *)

(** ** File names and extensions *)

Lemma split_nonempty (sep : ascii) (s : string) : split sep s <> [].
Proof.
  destruct s as [|c s]; cbn [split]; [discriminate|].
  destruct (Ascii.eqb c sep); [discriminate|].
  destruct (split sep s); discriminate.
Qed.

Lemma split_last (sep : ascii) (s : string) :
  includes_char sep (last (split sep s) "") = false
  /\ (includes_char sep s = false -> split sep s = [s])
  /\ (includes_char sep s = true ->
      (1 < List.length (split sep s))%nat
      /\ exists base, s = base ++ String sep (last (split sep s) "")).
Proof.
  induction s as [|c s [IHl [IHno IHyes]]].
  - cbn. repeat split; try reflexivity; discriminate.
  - cbn [split includes_char].
    destruct (Ascii.eqb_spec c sep) as [->|Hne]; cbn [orb].
    + assert (Hlast : last (EmptyString :: split sep s) ""
                      = last (split sep s) "").
      { cbn [last]. destruct (split sep s) eqn:Hs; [|reflexivity].
        now apply split_nonempty in Hs. }
      rewrite Hlast. split; [assumption|]. split; [discriminate|].
      intros _. split.
      * cbn [List.length]. pose proof (split_nonempty sep s).
        destruct (split sep s); [contradiction|cbn; lia].
      * destruct (includes_char sep s) eqn:Hinc.
        -- destruct (IHyes eq_refl) as [_ [base Hbase]].
           exists (String sep base). cbn. now rewrite <- Hbase.
        -- rewrite (IHno eq_refl). cbn [last]. now exists "".
    + destruct (includes_char sep s) eqn:Hinc.
      * destruct (IHyes eq_refl) as [Hlen [base Hbase]].
        destruct (split sep s) as [|p [|q ps]] eqn:Hs;
          [cbn in Hlen; lia|cbn in Hlen; lia|].
        cbn [last] in *. split; [assumption|]. split; [discriminate|].
        intros _. split; [cbn [List.length]; lia|].
        exists (String c base). cbn. now rewrite <- Hbase.
      * rewrite (IHno eq_refl) in *. cbn [last] in *.
        split; [|split; [reflexivity|discriminate]].
        cbn [includes_char]. apply Ascii.eqb_neq in Hne. now rewrite Hne.
Qed.

Lemma includes_char_app (sep : ascii) (b x : string) :
  includes_char sep (b ++ String sep x) = true.
Proof.
  induction b as [|c b IH]; cbn [append includes_char].
  - now rewrite Ascii.eqb_refl.
  - rewrite IH. apply orb_true_r.
Qed.

Lemma nothing_after_last_sep (sep : ascii) (base b e : string) :
  base ++ String sep e = b ++ String sep "" ->
  includes_char sep e = false -> e = "".
Proof.
  revert b. induction base as [|c base IH]; intros b Heq Hnd.
  - destruct b as [|d b]; cbn [append] in Heq.
    + now injection Heq.
    + injection Heq as _ He. subst e.
      now rewrite includes_char_app in Hnd.
  - destruct b as [|d b]; cbn [append] in Heq.
    + injection Heq as _ He. destruct base; discriminate.
    + injection Heq as _ He. now apply (IH b).
Qed.

(** X1.  [getFileExt] returns the text after the last dot of a name: an
    extension it returns is not empty, has no dot, and the name ends with a
    dot followed by it; it returns nothing exactly when the name has no dot
    or ends with a dot. *)
Theorem getFileExt_is_last_suffix :
  forall name,
    (forall e,
        getFileExt name = Some e ->
        e <> "" /\ includes_char "." e = false
        /\ exists base, name = base ++ "." ++ e)
    /\ (getFileExt name = None <->
        includes_char "." name = false \/ exists base, name = base ++ ".").
Proof.
  intros name. unfold getFileExt.
  destruct (split_last "." name) as [Hnodot [Hno Hyes]].
  destruct (includes_char "." name) eqn:Hinc.
  - destruct (Hyes eq_refl) as [Hlen [base Hbase]].
    assert (Hlt : (1 <? Z.of_nat (List.length (split "." name))) = true)
      by (apply Z.ltb_lt; lia).
    cbv zeta. rewrite Hlt.
    destruct (truthy (last (split "." name) "")) eqn:Ht.
    + split.
      * intros e [= <-]. split; [now apply truthy_nonempty|].
        split; [assumption|]. now exists base.
      * split; [discriminate|]. intros [Hf|[b Hb]]; [discriminate|].
        exfalso. apply truthy_nonempty in Ht. apply Ht.
        apply (nothing_after_last_sep "." base b); [|assumption].
        now rewrite <- Hbase.
    + split; [discriminate|]. split; [|reflexivity].
      intros _. right. exists base. unfold truthy in Ht.
      apply negb_false_iff in Ht. apply String.eqb_eq in Ht.
      now rewrite Ht in Hbase.
  - rewrite (Hno eq_refl). cbn. split; [discriminate|].
    split; [now left|reflexivity].
Qed.

Example getFileExt_samples :
  getFileExt "report.final.pdf" = Some "pdf"
  /\ getFileExt "Makefile" = None
  /\ getFileExt "trailing." = None
  /\ getFileExt ".bashrc" = Some "bashrc".
Proof. vm_compute. repeat split; reflexivity. Qed.

Lemma getFileExt_is_last_suffix_witness :
  "pdf" <> ""
  /\ includes_char "." "pdf" = false
  /\ exists base, "report.final.pdf" = base ++ "." ++ "pdf".
Proof.
  destruct (getFileExt_is_last_suffix "report.final.pdf") as [Hsome _].
  apply (Hsome "pdf"). reflexivity.
Defined.

(** ** Tables and blobs a route never writes *)

Section KeepsTables.

Context {X : Type} (part : World -> X).
Hypothesis part_set_shares : forall ss w, part (set_shares ss w) = part w.
Hypothesis part_set_file_versions :
  forall vs w, part (set_file_versions vs w) = part w.

Lemma keeps_versions_insert (env : Env) (row : VersionRow) :
  keeps part (versions_insert env row).
Proof.
  intros w. unfold versions_insert.
  destruct (fails env VersionsInsert);
    [reflexivity|apply part_set_file_versions].
Qed.

Lemma keeps_shares_insert (env : Env) (row : ShareRow) :
  keeps part (shares_insert env row).
Proof.
  intros w. unfold shares_insert.
  destruct (fails env SharesInsert); [reflexivity|apply part_set_shares].
Qed.

Lemma keeps_shares_delete (env : Env) (sel : ShareRow -> bool) :
  keeps part (shares_delete env sel).
Proof.
  intros w. unfold shares_delete.
  destruct (fails env SharesDelete); [reflexivity|apply part_set_shares].
Qed.

End KeepsTables.

(** Like [keeps], for a part no setter of the routes touches. *)
Ltac keeps_all :=
  repeat first
    [ apply keeps_bind; [|intro]
    | apply keeps_ret | apply keeps_reply | apply keeps_throw
    | apply keeps_read | apply keeps_reply_if | apply keeps_throw_if
    | solve [apply keeps_emit; intros; reflexivity]
    | solve [apply keeps_storage_upload; intros; reflexivity]
    | solve [apply keeps_storage_remove; intros; reflexivity]
    | solve [apply keeps_files_insert; intros; reflexivity]
    | solve [apply keeps_files_update; intros; reflexivity]
    | solve [apply keeps_files_update_single; intros; reflexivity]
    | solve [apply keeps_files_delete; intros; reflexivity]
    | solve [apply keeps_versions_insert; intros; reflexivity]
    | solve [apply keeps_shares_insert; intros; reflexivity]
    | solve [apply keeps_shares_delete; intros; reflexivity]
    | progress cbv zeta
    | match goal with
      | |- keeps _ (match ?x with _ => _ end) => destruct x
      | |- keeps _ (if ?c then _ else _) => destruct c
      end ].

Ltac unfold_routes :=
  unfold uploadRoute, createFolderRoute, patchRoute, softDeleteRoute,
    restoreRoute, permanentDeleteRoute, downloadRoute, createVersionRoute,
    restoreVersionRoute, createShareRoute, revokeShareRoute,
    createPublicLinkRoute, resolvePublicLinkRoute, revokePublicLinkRoute.

Lemma serve_keeps_quotas_and_profiles (env : Env) (r : Request) (w : World) :
  user_quotas (snd (serve env r w)) = user_quotas w
  /\ profiles (snd (serve env r w)) = profiles w.
Proof.
  split; destruct r; cbn [serve]; unfold_routes; apply keeps_route;
    keeps_all.
Qed.

Lemma serve_all_keeps_quotas_and_profiles (reqs : list (Env * Request)) :
  forall w,
    user_quotas (snd (serve_all reqs w)) = user_quotas w
    /\ profiles (snd (serve_all reqs w)) = profiles w.
Proof.
  induction reqs as [|[env r] reqs IH]; intros w; [now split|].
  cbn [serve_all].
  destruct (serve_keeps_quotas_and_profiles env r w) as [Hq Hp].
  destruct (serve env r w) as [resp w1]. cbn [snd] in *.
  destruct (IH w1) as [Hq1 Hp1].
  destruct (serve_all reqs w1) as [resps w2]. cbn [snd] in *.
  split; congruence.
Qed.

(** X2.  No file or share route writes the quota table: after any
    serialized requests (uploads included) the [user_quotas] rows are the
    ones before, so the counters an upload is checked against, and the
    check's verdict for a given size, never change through these routes. *)
Theorem uploads_never_consume_quota :
  forall reqs w userId newFileSize,
    user_quotas (snd (serve_all reqs w)) = user_quotas w
    /\ storageUsed_of (snd (serve_all reqs w)) userId = storageUsed_of w userId
    /\ fileCount_of (snd (serve_all reqs w)) userId = fileCount_of w userId
    /\ enforceQuotaOnUpload (snd (serve_all reqs w)) userId newFileSize
       = enforceQuotaOnUpload w userId newFileSize.
Proof.
  intros reqs w userId newFileSize.
  destruct (serve_all_keeps_quotas_and_profiles reqs w) as [Hq _].
  split; [assumption|].
  unfold enforceQuotaOnUpload, storageUsed_of, storageLimit_of, fileCount_of,
    fileCountLimit_of, quota_of.
  rewrite Hq. repeat split; reflexivity.
Qed.

Example upload_twice_same_verdict :
  let up := ReqUpload "alice" (Some ten_bytes) None in
  let (rs, w) :=
    serve_all [(env0, up);
               (mkEnv 1001 "1001-z" "id-10" "t" (fun _ => false), up)]
              world0 in
  map status rs = [200; 200]
  /\ storageUsed_of w "alice" = 0
  /\ List.length (files w) = 4%nat.
Proof. vm_compute. repeat split; reflexivity. Qed.

(** X3.  The download route and the public-link resolution are read-only:
    whatever the caller, the id or token, and the outcome, the store they
    return is the store they were given. *)
Theorem read_routes_leave_store :
  forall env userId fileId token w,
    snd (downloadRoute env userId fileId w) = w
    /\ snd (resolvePublicLinkRoute env token w) = w.
Proof.
  intros env userId fileId token w. split.
  - unfold downloadRoute.
    apply (keeps_route (fun w => w)). keeps_all.
  - unfold resolvePublicLinkRoute.
    apply (keeps_route (fun w => w)). keeps_all.
Qed.

(** ** Ownership *)

Lemma not_owned_filter (w : World) (userId fileId : string)
      (p : FileRow -> bool) :
  ~ owns w userId fileId ->
  filter (fun f => (f_id f =? fileId)%string
                   && (f_user_id f =? userId)%string && p f) (files w)
  = [].
Proof.
  intros Hnot.
  destruct (filter _ (files w)) as [|x l] eqn:Hf; [reflexivity|].
  assert (Hx : In x (filter (fun f => (f_id f =? fileId)%string
                                      && (f_user_id f =? userId)%string
                                      && p f) (files w)))
    by (rewrite Hf; now left).
  apply filter_In in Hx as [Hin Hp].
  apply andb_true_iff in Hp as [Hp _].
  apply andb_true_iff in Hp as [Hi Hu].
  apply String.eqb_eq in Hi, Hu.
  exfalso. apply Hnot. now exists x.
Qed.

Lemma not_owned_file (w : World) (userId fileId : string) :
  ~ owns w userId fileId -> owned_file w userId fileId = None.
Proof.
  intros Hnot. unfold owned_file.
  pose proof (not_owned_filter w userId fileId (fun _ => true) Hnot) as Hf.
  erewrite filter_ext; [rewrite Hf; reflexivity|].
  intros f. cbn. now rewrite andb_true_r.
Qed.

(** X4.  None of the owner-only routes (rename/move/star, trash, restore,
    permanent delete, new version, version restore, share, revoke share,
    public link) does anything for a caller who has no row of the file: the
    answer is 404, or the 400 of the route's own input validation, and the
    store is returned unchanged. *)
Theorem strangers_cannot_write :
  forall env r userId fileId w,
    owner_only_target r = Some (userId, fileId) ->
    ~ owns w userId fileId ->
    snd (serve env r w) = w
    /\ (status (fst (serve env r w)) = 404
        \/ status (fst (serve env r w)) = 400).
Proof.
  intros env r userId fileId w Htarget Hnot.
  pose proof (not_owned_file w userId fileId Hnot) as Hown.
  pose proof (not_owned_filter w userId fileId
                (fun f => Bool.eqb (f_is_deleted f) false) Hnot) as Hlive.
  destruct r; cbn [owner_only_target] in Htarget; try discriminate;
    injection Htarget as -> ->; cbn [serve]; unfold_routes.
  - run. rewrite Hown. split; [reflexivity|now left].
  - run. rewrite Hown. split; [reflexivity|now left].
  - run. rewrite Hown. split; [reflexivity|now left].
  - run. rewrite Hown. split; [reflexivity|now left].
  - destruct fileBlob; run; [|split; [reflexivity|now right]].
    rewrite Hlive. split; [reflexivity|now left].
  - destruct versionNumber; run; [|split; [reflexivity|now right]].
    rewrite Hown. split; [reflexivity|now left].
  - destruct (sb_email b) as [email|]; run;
      [|split; [reflexivity|now right]].
    destruct (truthy email); run; cbn [negb];
      [|split; [reflexivity|now right]].
    destruct (parse_permission (requested_permissions b)); run;
      [|split; [reflexivity|now right]].
    rewrite Hown. split; [reflexivity|now left].
  - run. rewrite Hown. split; [reflexivity|now left].
  - run. rewrite Hown. split; [reflexivity|now left].
Qed.

Lemma strangers_cannot_write_witness :
  snd (serve env0 (ReqPermanentDelete "bob" "f1") world0) = world0
  /\ (status (fst (serve env0 (ReqPermanentDelete "bob" "f1") world0)) = 404
      \/ status (fst (serve env0 (ReqPermanentDelete "bob" "f1") world0))
         = 400).
Proof.
  apply (strangers_cannot_write env0 (ReqPermanentDelete "bob" "f1")
           "bob" "f1" world0).
  - reflexivity.
  - intros [f [Hin [Hi Hus]]]. simpl in Hin.
    destruct Hin as [<-|[<-|[]]]; simpl in Hus; discriminate.
Defined.

(** ** File ids stay keys *)

Lemma distinct_snoc (l : list string) (x : string) :
  distinct l = true -> ~ In x l -> distinct (l ++ [x]) = true.
Proof.
  induction l as [|a l IH]; intros Hd Hx; [reflexivity|].
  cbn [distinct app] in *. apply andb_true_iff in Hd as [Ha Hl].
  apply andb_true_iff. split.
  - apply negb_true_iff in Ha. apply negb_true_iff.
    destruct (existsb (String.eqb a) (l ++ [x])) eqn:He; [|reflexivity].
    apply existsb_eqb_In in He. apply in_app_iff in He as [He|[<-|[]]].
    + apply existsb_eqb_In in He. congruence.
    + exfalso. apply Hx. now left.
  - apply IH; [assumption|]. intros Hin. apply Hx. now right.
Qed.

Lemma distinct_filter (p : string -> bool) (l : list string) :
  distinct l = true -> distinct (filter p l) = true.
Proof.
  induction l as [|a l IH]; intros Hd; [reflexivity|].
  cbn [distinct filter] in *. apply andb_true_iff in Hd as [Ha Hl].
  destruct (p a); [|now apply IH].
  cbn [distinct]. apply andb_true_iff. split; [|now apply IH].
  apply negb_true_iff in Ha. apply negb_true_iff.
  destruct (existsb (String.eqb a) (filter p l)) eqn:He; [|reflexivity].
  apply existsb_eqb_In in He. apply filter_In in He as [He _].
  apply existsb_eqb_In in He. congruence.
Qed.

Lemma update_keeps_ids (env : Env) (fileId : string)
      (change : FileRow -> FileRow) :
  (forall f, f_id (change f) = f_id f) ->
  keeps ids (files_update env fileId change).
Proof.
  intros Hid w. unfold files_update.
  destruct (fails env FilesUpdate); [reflexivity|].
  unfold ids. cbn [snd set_files files]. rewrite map_map.
  apply map_ext. intros f. destruct (f_id f =? fileId)%string; auto.
Qed.

Lemma update_single_keeps_ids (env : Env) (fileId : string)
      (change : FileRow -> FileRow) :
  (forall f, f_id (change f) = f_id f) ->
  keeps ids (files_update_single env fileId change).
Proof.
  intros Hid w. unfold files_update_single.
  destruct (single _); [|reflexivity].
  destruct (fails env FilesUpdate); [reflexivity|].
  unfold ids. cbn [snd set_files files]. rewrite map_map.
  apply map_ext. intros g. destruct (f_id g =? fileId)%string; auto.
Qed.

Ltac keeps_ids :=
  repeat first
    [ apply keeps_bind; [|intro]
    | apply keeps_ret | apply keeps_reply | apply keeps_throw
    | apply keeps_read | apply keeps_reply_if | apply keeps_throw_if
    | solve [apply keeps_emit; intros; reflexivity]
    | solve [apply keeps_storage_upload; intros; reflexivity]
    | solve [apply keeps_storage_remove; intros; reflexivity]
    | solve [apply update_keeps_ids; intros; reflexivity]
    | solve [apply update_single_keeps_ids; intros; reflexivity]
    | solve [apply keeps_versions_insert; intros; reflexivity]
    | solve [apply keeps_shares_insert; intros; reflexivity]
    | solve [apply keeps_shares_delete; intros; reflexivity]
    | progress cbv zeta
    | match goal with
      | |- keeps _ (match ?x with _ => _ end) => destruct x
      | |- keeps _ (if ?c then _ else _) => destruct c
      end ].

Lemma upload_cases (env : Env) (userId : string) (file : option Upload)
      (parentId : option string) (w : World) :
  (status (fst (uploadRoute env userId file parentId w)) <> 200
   /\ files (snd (uploadRoute env userId file parentId w)) = files w)
  \/ exists f,
      file = Some f
      /\ enforceQuotaOnUpload w userId (size f) = QuotaAllowed
      /\ existsb (fun o => (fst o =? upload_path env userId (originalname f))
                           %string) (storage w) = false
      /\ uploadRoute env userId file parentId w
         = let row :=
             mkFile (fresh_id env) userId (originalname f) (originalname f)
                    (size f) (mimetype f) (Some (mimetype f))
                    (getFileExt (originalname f))
                    (upload_path env userId (originalname f))
                    (or_null parentId) false false false None in
           (json (JFile "File uploaded successfully" row),
            add_emitted
              (mkEmitted ("user:" ++ userId) "file:created" (fresh_id env))
              (set_files (files w ++ [row])
                 (set_storage
                    (storage w
                     ++ [(upload_path env userId (originalname f), buffer f)])
                    w))).
Proof.
  unfold uploadRoute. destruct file as [f|]; run;
    [|left; split; [cbn; discriminate|reflexivity]].
  destruct (enforceQuotaOnUpload w userId (size f)) eqn:Hq; run;
    [|left; split; [cbn; discriminate|reflexivity]].
  unfold storage_upload. fold (upload_path env userId (originalname f)).
  destruct (fails env StorageUpload); cbn [orb]; run;
    [left; split; [cbn; discriminate|reflexivity]|].
  destruct (existsb _ (storage w)) eqn:Hfree; run;
    [left; split; [cbn; discriminate|reflexivity]|].
  unfold files_insert. cbn [set_storage fails].
  destruct (fails env FilesInsert); run;
    [left; split; [cbn; discriminate|reflexivity]|].
  right. exists f. repeat split; try reflexivity; assumption.
Qed.

Lemma createFolder_cases (env : Env) (userId : string)
      (name parentId : option string) (w : World) :
  snd (createFolderRoute env userId name parentId w) = w
  \/ exists row,
      f_id row = fresh_id env
      /\ files (snd (createFolderRoute env userId name parentId w))
         = (files w ++ [row])%list.
Proof.
  unfold createFolderRoute. destruct name as [name|]; run; [|now left].
  destruct (negb (truthy name) || negb (truthy (trim name))); run;
    [now left|].
  unfold files_insert. destruct (fails env FilesInsert); run; [now left|].
  right. eexists. split; [|reflexivity]. reflexivity.
Qed.

Lemma permanentDelete_files (env : Env) (userId fileId : string) (w : World) :
  files (snd (permanentDeleteRoute env userId fileId w)) = files w
  \/ files (snd (permanentDeleteRoute env userId fileId w))
     = filter (fun f => negb (f_id f =? fileId)%string) (files w).
Proof.
  unfold permanentDeleteRoute. run.
  destruct (owned_file w userId fileId) as [f|]; [|now left]. run.
  unfold storage_remove, files_delete.
  destruct (truthy (f_path f)); run;
    [destruct (fails env StorageRemove); run|];
    cbn [set_storage fails files];
    destruct (fails env FilesDelete); run; auto.
Qed.

Lemma filter_map_ids (fileId : string) (l : list FileRow) :
  map f_id (filter (fun f => negb (f_id f =? fileId)%string) l)
  = filter (fun i => negb (i =? fileId)%string) (map f_id l).
Proof.
  induction l as [|a l IH]; [reflexivity|].
  cbn [filter map]. destruct (negb (f_id a =? fileId)%string);
    cbn [map]; now rewrite IH.
Qed.

(** X5.  File ids stay keys: in a store where no two file rows share an id,
    serving any request with a generated id that no row has yet leaves a
    store where no two file rows share an id. *)
Theorem file_ids_stay_unique :
  forall env r w,
    file_ids_unique w = true ->
    ~ In (fresh_id env) (ids w) ->
    file_ids_unique (snd (serve env r w)) = true.
Proof.
  intros env r w Hu Hfresh. unfold file_ids_unique in *. fold (ids w) in Hu.
  assert (Hkeep : ids (snd (serve env r w)) = ids w ->
                  distinct (map f_id (files (snd (serve env r w)))) = true).
  { intros Heq. fold (ids (snd (serve env r w))). now rewrite Heq. }
  destruct r as [u up par|u name par|u i b|u i|u i|u i|u i|u i b|u i n
                |u i b|u i s|u i e|t|u t]; cbn [serve] in *;
    try solve [apply Hkeep; unfold_routes; apply (keeps_route ids);
               keeps_ids].
  - destruct (upload_cases env u up par w)
      as [[_ Hsame]|[f [_ [_ [_ Hrun]]]]].
    + now rewrite Hsame.
    + rewrite Hrun. cbn [snd add_emitted set_files files].
      rewrite map_app. cbn [map f_id]. now apply distinct_snoc.
  - destruct (createFolder_cases env u name par w)
      as [->|[row [Hid ->]]]; [assumption|].
    rewrite map_app. cbn [map]. rewrite Hid. now apply distinct_snoc.
  - destruct (permanentDelete_files env u i w) as [->| ->];
      [assumption|].
    rewrite filter_map_ids. now apply distinct_filter.
Qed.

Lemma file_ids_stay_unique_witness :
  file_ids_unique
    (snd (serve env0 (ReqUpload "alice" (Some ten_bytes) None) world0))
  = true.
Proof.
  apply (file_ids_stay_unique env0 (ReqUpload "alice" (Some ten_bytes) None)
           world0).
  - reflexivity.
  - simpl. intros [H|[H|[]]]; discriminate.
Defined.

(** ** Upload, then download *)

Lemma download_owner_live (env : Env) (w : World) (f : FileRow) :
  file_ids_unique w = true -> In f (files w) ->
  f_is_deleted f = false -> fails env StorageSign = false ->
  downloadRoute env (f_user_id f) (f_id f) w
  = (json (JDownload (mkSigned (f_path f) 3600)
                     (mkMeta (f_id f) (f_name f) (f_size f) (f_type f))),
     w).
Proof.
  intros Hu Hin Hlive Hsign. unfold downloadRoute. run.
  unfold hasFilePermission.
  assert (Ho : isOwner w (f_user_id f) (f_id f) = true).
  { apply (isOwner_owns w _ _ Hu). now exists f. }
  rewrite Ho. cbn [allowed negb].
  rewrite (live_file_found w f Hu Hin), Hlive. cbn [single].
  unfold storage_sign. now rewrite Hsign.
Qed.

Lemma download_owner_trashed (env : Env) (w : World) (f : FileRow) :
  file_ids_unique w = true -> In f (files w) -> f_is_deleted f = true ->
  downloadRoute env (f_user_id f) (f_id f) w
  = (error_json 404 "File not found", w).
Proof.
  intros Hu Hin Hbin. unfold downloadRoute. run.
  unfold hasFilePermission.
  assert (Ho : isOwner w (f_user_id f) (f_id f) = true).
  { apply (isOwner_owns w _ _ Hu). now exists f. }
  rewrite Ho. cbn [allowed negb].
  now rewrite (live_file_found w f Hu Hin), Hbin.
Qed.

Lemma blob_at_new (w w' : World) (path content : string) :
  existsb (fun o => (fst o =? path)%string) (storage w) = false ->
  storage w' = (storage w ++ [(path, content)])%list ->
  blob_at w' path = Some content.
Proof.
  intros Hfree Hst. unfold blob_at. rewrite Hst.
  assert (Hfind : find (fun o => (fst o =? path)%string)
                       (storage w ++ [(path, content)])
                  = Some (path, content)).
  { clear Hst. induction (storage w) as [|o l IH]; cbn [app find].
    - cbn [fst]. now rewrite String.eqb_refl.
    - cbn [existsb] in Hfree. apply orb_false_iff in Hfree as [Ho Hl].
      rewrite Ho. now apply IH. }
  now rewrite Hfind.
Qed.

(** X6.  Upload then download: when an upload is answered 200 (in a store
    whose file ids are keys, the generated id being new), the row returned
    belongs to the uploader, is not in trash, has the uploaded size and the
    path [userId/stamp(.ext)]; the blob at that path is the uploaded
    buffer; and the uploader's download of the returned id is answered 200
    with a signed URL for that path, valid 3600 seconds. *)
Theorem upload_then_download :
  forall env env2 userId file parentId w,
    file_ids_unique w = true ->
    ~ In (fresh_id env) (ids w) ->
    status (fst (uploadRoute env userId (Some file) parentId w)) = 200 ->
    fails env2 StorageSign = false ->
    exists row,
      body (fst (uploadRoute env userId (Some file) parentId w))
      = JFile "File uploaded successfully" row
      /\ f_id row = fresh_id env
      /\ f_user_id row = userId
      /\ f_size row = size file
      /\ f_is_deleted row = false
      /\ f_path row = upload_path env userId (originalname file)
      /\ In row (files (snd (uploadRoute env userId (Some file) parentId w)))
      /\ blob_at (snd (uploadRoute env userId (Some file) parentId w))
                 (f_path row)
         = Some (buffer file)
      /\ downloadRoute env2 userId (fresh_id env)
           (snd (uploadRoute env userId (Some file) parentId w))
         = (json (JDownload (mkSigned (f_path row) 3600)
                            (mkMeta (fresh_id env) (originalname file)
                                    (size file) (mimetype file))),
            snd (uploadRoute env userId (Some file) parentId w)).
Proof.
  intros env env2 userId file parentId w Hu Hfresh H200 Hsign.
  destruct (upload_cases env userId (Some file) parentId w)
    as [[Hno _]|[f [Hf [_ [Hfree Hrun]]]]]; [contradiction|].
  injection Hf as <-. rewrite Hrun. cbv zeta. cbn [fst snd body json].
  eexists. split; [reflexivity|]. cbn [f_id f_user_id f_size f_is_deleted f_path].
  repeat (split; [reflexivity|]).
  set (row := mkFile (fresh_id env) userId (originalname file)
                     (originalname file) (size file) (mimetype file)
                     (Some (mimetype file)) (getFileExt (originalname file))
                     (upload_path env userId (originalname file))
                     (or_null parentId) false false false None).
  set (w1 := add_emitted _ _).
  assert (Hin : In row (files w1)).
  { subst w1. cbn [add_emitted set_files files]. apply in_app_iff.
    right. now left. }
  split; [assumption|]. split.
  - apply (blob_at_new w w1 _ _ Hfree). reflexivity.
  - assert (Hu1 : file_ids_unique w1 = true).
    { unfold file_ids_unique. subst w1. cbn [add_emitted set_files files].
      rewrite map_app. cbn [map]. now apply distinct_snoc. }
    exact (download_owner_live env2 w1 row Hu1 Hin eq_refl Hsign).
Qed.

Lemma upload_then_download_witness :
  exists row,
    body (fst (uploadRoute env0 "alice" (Some ten_bytes) None world0))
    = JFile "File uploaded successfully" row
    /\ f_path row = "alice/1000-k3x.txt"
    /\ blob_at (snd (uploadRoute env0 "alice" (Some ten_bytes) None world0))
               (f_path row)
       = Some "0123456789".
Proof.
  assert (Hfresh : ~ In (fresh_id env0) (ids world0)).
  { simpl. intros [H|[H|[]]]; discriminate. }
  destruct (upload_then_download env0 env0 "alice" ten_bytes None world0
              eq_refl Hfresh eq_refl eq_refl)
    as [row [Hb [_ [_ [_ [_ [Hp [_ [Hblob _]]]]]]]]].
  exists row. split; [exact Hb|]. split; [exact Hp|exact Hblob].
Defined.

(** X7.  Upload failures.  When the blob write reports an error, or a blob
    already sits at the chosen path (the upload does not overwrite), the
    answer is 500 and the store is unchanged.  When the blob write succeeds
    and the row insert then fails, the answer is 500, no file row is added,
    and the blob stays in storage: the route does not remove it. *)
Theorem upload_failures :
  forall env userId file parentId w,
    enforceQuotaOnUpload w userId (size file) = QuotaAllowed ->
    ((fails env StorageUpload = true
      \/ existsb (fun o => (fst o =? upload_path env userId
                                       (originalname file))%string)
                 (storage w) = true) ->
     uploadRoute env userId (Some file) parentId w
     = (error_json 500 "Internal server error", w))
    /\ (fails env StorageUpload = false ->
        existsb (fun o => (fst o =? upload_path env userId
                                      (originalname file))%string)
                (storage w) = false ->
        fails env FilesInsert = true ->
        fst (uploadRoute env userId (Some file) parentId w)
        = error_json 500 "Internal server error"
        /\ files (snd (uploadRoute env userId (Some file) parentId w))
           = files w
        /\ blob_at (snd (uploadRoute env userId (Some file) parentId w))
                   (upload_path env userId (originalname file))
           = Some (buffer file)).
Proof.
  intros env userId file parentId w Hq. split.
  - intros Hfail. unfold uploadRoute. run. rewrite Hq. run.
    unfold storage_upload. fold (upload_path env userId (originalname file)).
    assert (Hor : fails env StorageUpload
                  || existsb (fun o => (fst o =? upload_path env userId
                                                  (originalname file))%string)
                             (storage w) = true).
    { destruct Hfail as [-> | ->]; [reflexivity|apply orb_true_r]. }
    now rewrite Hor.
  - intros Hup Hfree Hins. unfold uploadRoute. run. rewrite Hq. run.
    unfold storage_upload. fold (upload_path env userId (originalname file)).
    rewrite Hup, Hfree. cbn [orb]. run.
    unfold files_insert. cbn [set_storage fails]. rewrite Hins. run.
    split; [reflexivity|]. split; [reflexivity|].
    apply (blob_at_new w _ _ _ Hfree). reflexivity.
Qed.

Lemma upload_failures_witness :
  uploadRoute env0 "alice" (Some (mkUpload "1-a.pdf" "x" 1 "y")) None
    (set_storage [("alice/1000-k3x.pdf", "taken")] world0)
  = (error_json 500 "Internal server error",
     set_storage [("alice/1000-k3x.pdf", "taken")] world0).
Proof.
  destruct (upload_failures env0 "alice" (mkUpload "1-a.pdf" "x" 1 "y") None
              (set_storage [("alice/1000-k3x.pdf", "taken")] world0)
              eq_refl) as [Hclash _].
  apply Hclash. right. reflexivity.
Defined.

(** ** Trash and back *)

Lemma file_by_id (w : World) (f : FileRow) :
  file_ids_unique w = true -> In f (files w) ->
  filter (fun g => (f_id g =? f_id f)%string) (files w) = [f].
Proof.
  intros Hu Hin.
  pose proof (filter_key_found f_id (fun _ => true) (files w) (f_id f) f
                Hu Hin eq_refl) as Hf. cbn in Hf.
  rewrite <- Hf. apply filter_ext. intros g. now rewrite andb_true_r.
Qed.

Lemma unique_row (w : World) (x y : FileRow) :
  file_ids_unique w = true -> In x (files w) -> In y (files w) ->
  f_id x = f_id y -> x = y.
Proof.
  intros Hu Hx Hy Hid.
  pose proof (filter_key_found f_id (fun _ => true) (files w) (f_id y) y
                Hu Hy eq_refl) as Hf. cbn in Hf.
  assert (Hin : In x (filter (fun g => (f_id g =? f_id y)%string && true)
                             (files w))).
  { apply filter_In. split; [assumption|].
    now rewrite Hid, String.eqb_refl. }
  rewrite Hf in Hin. destruct Hin as [<-|[]]. reflexivity.
Qed.

Lemma updated_ids_unique (w : World) (fileId : string)
      (change : FileRow -> FileRow) (e : Emitted) :
  (forall f, f_id (change f) = f_id f) ->
  file_ids_unique w = true ->
  file_ids_unique
    (add_emitted e
       (set_files (map (fun g => if (f_id g =? fileId)%string
                                 then change g else g) (files w)) w))
  = true.
Proof.
  intros Hid Hu. unfold file_ids_unique in *.
  cbn [add_emitted set_files files]. rewrite map_map.
  erewrite map_ext; [exact Hu|].
  intros g. cbn. destruct (f_id g =? fileId)%string; auto.
Qed.

Lemma softDelete_run (env : Env) (w : World) (f : FileRow) :
  file_ids_unique w = true -> In f (files w) ->
  f_is_deleted f = false -> fails env FilesUpdate = false ->
  softDeleteRoute env (f_user_id f) (f_id f) w
  = (json (JMessage "File moved to trash"),
     add_emitted
       (mkEmitted ("user:" ++ f_user_id f) "file:deleted" (f_id f))
       (set_files (map (fun g => if (f_id g =? f_id f)%string
                                 then mark_deleted (now env) g else g)
                       (files w)) w)).
Proof.
  intros Hu Hin Hlive Hupd. unfold softDeleteRoute. run.
  rewrite (owned_file_found w f Hu Hin). run. rewrite Hlive. run.
  unfold files_update. rewrite Hupd. reflexivity.
Qed.

Lemma restore_run (env : Env) (w : World) (f : FileRow) :
  file_ids_unique w = true -> In f (files w) ->
  f_is_deleted f = true -> fails env FilesUpdate = false ->
  restoreRoute env (f_user_id f) (f_id f) w
  = (json (JMessage "File restored"),
     add_emitted
       (mkEmitted ("user:" ++ f_user_id f) "file:restored" (f_id f))
       (set_files (map (fun g => if (f_id g =? f_id f)%string
                                 then mark_restored g else g)
                       (files w)) w)).
Proof.
  intros Hu Hin Hbin Hupd. unfold restoreRoute. run.
  rewrite (owned_file_found w f Hu Hin). run. rewrite Hbin. cbn [negb]. run.
  unfold files_update. rewrite Hupd. reflexivity.
Qed.

(** X8.  Trash and back.  For a file of the caller that is not in trash
    (and has no [deleted_at] stamp), in a store whose file ids are keys and
    with the two row updates going through: moving it to trash is answered
    200, after which the owner's download is answered 404; restoring it is
    then answered 200 and gives back the file table, the blobs, the
    versions and the shares exactly as they were at the start. *)
Theorem trash_then_restore :
  forall env1 env2 env3 w f,
    file_ids_unique w = true ->
    In f (files w) ->
    f_is_deleted f = false ->
    f_deleted_at f = None ->
    fails env1 FilesUpdate = false ->
    fails env2 FilesUpdate = false ->
    let w1 := snd (softDeleteRoute env1 (f_user_id f) (f_id f) w) in
    let w2 := snd (restoreRoute env2 (f_user_id f) (f_id f) w1) in
    status (fst (softDeleteRoute env1 (f_user_id f) (f_id f) w)) = 200
    /\ In (mark_deleted (now env1) f) (files w1)
    /\ downloadRoute env3 (f_user_id f) (f_id f) w1
       = (error_json 404 "File not found", w1)
    /\ status (fst (restoreRoute env2 (f_user_id f) (f_id f) w1)) = 200
    /\ files w2 = files w
    /\ storage w2 = storage w
    /\ file_versions w2 = file_versions w
    /\ shares w2 = shares w.
Proof.
  intros env1 env2 env3 w f Hu Hin Hlive Hstamp Hupd1 Hupd2.
  cbv zeta. rewrite (softDelete_run env1 w f Hu Hin Hlive Hupd1).
  cbn [fst snd]. set (e1 := mkEmitted _ "file:deleted" _).
  set (w1 := add_emitted e1 _).
  assert (Hu1 : file_ids_unique w1 = true).
  { apply updated_ids_unique; [reflexivity|assumption]. }
  assert (Hin1 : In (mark_deleted (now env1) f) (files w1)).
  { subst w1. cbn [add_emitted set_files files]. apply in_map_iff.
    exists f. split; [|assumption]. now rewrite String.eqb_refl. }
  split; [reflexivity|]. split; [assumption|]. split.
  { exact (download_owner_trashed env3 w1 (mark_deleted (now env1) f)
             Hu1 Hin1 eq_refl). }
  pose proof (restore_run env2 w1 (mark_deleted (now env1) f) Hu1 Hin1
                eq_refl Hupd2) as Hrun.
  cbn [f_user_id f_id mark_deleted] in Hrun. rewrite Hrun. cbn [fst snd].
  split; [reflexivity|].
  split; [|repeat split; reflexivity].
  subst w1. cbn [add_emitted set_files files]. rewrite map_map.
  rewrite <- (map_id (files w)) at 2. apply map_ext_in. intros g Hg.
  destruct (String.eqb_spec (f_id g) (f_id f)) as [Hid|Hne].
  - rewrite (unique_row w g f Hu Hg Hin Hid).
    cbn [f_id mark_deleted]. rewrite String.eqb_refl.
    destruct f; cbn in *. now subst.
  - apply String.eqb_neq in Hne. now rewrite Hne.
Qed.

Lemma trash_then_restore_witness :
  files (snd (restoreRoute env0 "alice" "f1"
                (snd (softDeleteRoute env0 "alice" "f1" world0))))
  = files world0.
Proof.
  assert (Hin : In report (files world0)) by (simpl; auto).
  destruct (trash_then_restore env0 env0 env0 world0 report eq_refl Hin
              eq_refl eq_refl eq_refl eq_refl)
    as [_ [_ [_ [_ [Hfiles _]]]]].
  exact Hfiles.
Defined.

(** ** Rename, move, star *)

Lemma update_single_keeps_content (env : Env) (fileId : string)
      (change : FileRow -> FileRow) :
  (forall f, content_cols (change f) = content_cols f) ->
  keeps (fun w => map content_cols (files w))
        (files_update_single env fileId change).
Proof.
  intros Hid w. unfold files_update_single.
  destruct (single _); [|reflexivity].
  destruct (fails env FilesUpdate); [reflexivity|].
  cbn [snd set_files files]. rewrite map_map.
  apply map_ext. intros g. destruct (f_id g =? fileId)%string; auto.
Qed.

(** X9.  PATCH writes nothing but names, parents and stars: whatever the
    caller, the id, the body and the outcome, every file row keeps its id,
    owner, size, type, extension, path, folder flag and trash state, the
    rows keep their order and number, and blobs, versions and shares are
    untouched. *)
Theorem patch_keeps_content :
  forall env userId fileId b w,
    map content_cols (files (snd (patchRoute env userId fileId b w)))
    = map content_cols (files w)
    /\ storage (snd (patchRoute env userId fileId b w)) = storage w
    /\ file_versions (snd (patchRoute env userId fileId b w))
       = file_versions w
    /\ shares (snd (patchRoute env userId fileId b w)) = shares w.
Proof.
  intros env userId fileId b w. repeat split.
  - unfold patchRoute.
    apply (keeps_route (fun w => map content_cols (files w))).
    repeat first
      [ apply keeps_bind; [|intro]
      | apply keeps_ret | apply keeps_reply | apply keeps_throw
      | apply keeps_read | apply keeps_reply_if
      | solve [apply keeps_emit; intros; reflexivity]
      | solve [apply update_single_keeps_content; intros; reflexivity]
      | progress cbv zeta
      | match goal with
        | |- keeps _ (match ?x with _ => _ end) => destruct x
        end ].
  - unfold patchRoute. apply (keeps_route storage). keeps_all.
  - unfold patchRoute. apply (keeps_route file_versions). keeps_all.
  - unfold patchRoute. apply (keeps_route shares). keeps_all.
Qed.

Lemma apply_change_twice (c : FileChange) (f : FileRow) :
  apply_change c (apply_change c f) = apply_change c f.
Proof.
  unfold apply_change. cbn.
  destruct (ch_name c), (ch_parent_id c), (ch_is_starred c); reflexivity.
Qed.

Lemma patch_run (env : Env) (w : World) (f : FileRow) (b : PatchBody) :
  file_ids_unique w = true -> In f (files w) ->
  no_keys (patch_change b) = false -> fails env FilesUpdate = false ->
  patchRoute env (f_user_id f) (f_id f) b w
  = (json (JFile "File updated" (apply_change (patch_change b) f)),
     add_emitted
       (mkEmitted ("user:" ++ f_user_id f) "file:updated" (f_id f))
       (set_files (map (fun g => if (f_id g =? f_id f)%string
                                 then apply_change (patch_change b) g
                                 else g) (files w)) w)).
Proof.
  intros Hu Hin Hkeys Hupd. unfold patchRoute. run.
  rewrite (owned_file_found w f Hu Hin). run. rewrite Hkeys. run.
  unfold files_update_single. rewrite (file_by_id w f Hu Hin).
  cbn [single]. rewrite Hupd. reflexivity.
Qed.

(** *** Names that are blank once trimmed *)

Lemma append_empty_r (s : string) : s ++ "" = s.
Proof. induction s as [|c s IH]; [reflexivity|]. cbn. now rewrite IH. Qed.

Lemma length_append (s t : string) :
  String.length (s ++ t) = (String.length s + String.length t)%nat.
Proof. induction s as [|c s IH]; [reflexivity|]. cbn. now rewrite IH. Qed.

Lemma white_space_found (x rest : string) :
  In x WHITE_SPACE ->
  find (fun ws => String.prefix ws (x ++ rest)) WHITE_SPACE = Some x
  /\ (1 <= String.length x)%nat.
Proof.
  intros Hin. unfold WHITE_SPACE in Hin. cbn [map] in Hin.
  repeat (destruct Hin as [<-|Hin];
          [destruct rest; vm_compute; (split; [reflexivity|lia])|]).
  destruct Hin.
Qed.

Lemma drop_append (x rest : string) :
  drop (String.length x) (x ++ rest) = rest.
Proof. induction x as [|c x IH]; [reflexivity|]. cbn. exact IH. Qed.

(** A string made of white-space code points only is trimmed to the empty
    string. *)
Lemma trim_white_space (l : list string) :
  Forall (fun x => In x WHITE_SPACE) l ->
  trim (fold_right append EmptyString l) = EmptyString.
Proof.
  intros Hall.
  assert (Hleft : forall fuel,
             (String.length (fold_right append EmptyString l) <= fuel)%nat ->
             strip_start fuel (fold_right append EmptyString l)
             = EmptyString).
  { induction Hall as [|x l Hx Hl IH]; intros fuel Hlen.
    - destruct fuel; reflexivity.
    - cbn [fold_right] in *.
      destruct (white_space_found x (fold_right append EmptyString l) Hx)
        as [Hfind Hpos].
      rewrite length_append in Hlen.
      destruct fuel as [|fuel]; [lia|].
      cbn [strip_start]. rewrite Hfind, drop_append. apply IH. lia. }
  unfold trim, trim_left. rewrite Hleft by lia. reflexivity.
Qed.

(** X10.  PATCH on a file of the caller (file ids being keys).  A body
    that carries no change (no parentId, no boolean starred, and no name or
    a name that is blank once trimmed) is answered 400 and changes nothing;
    so is, in particular, a body whose only field is a name made of
    white-space code points, ASCII or not.  Otherwise, the row update
    going through, the answer is 200 with the row as changed, the table
    holds that row, and sending the same body again is answered with the
    same row and leaves the file table as the first request left it. *)
Theorem patch_applies_once :
  forall env env2 w f b,
    file_ids_unique w = true ->
    In f (files w) ->
    (no_keys (patch_change b) = true ->
     patchRoute env (f_user_id f) (f_id f) b w
     = (error_json 400 "No changes provided", w))
    /\ (forall l,
           Forall (fun x => In x WHITE_SPACE) l ->
           b = mkPatch (Some (fold_right append EmptyString l)) None None ->
           patchRoute env (f_user_id f) (f_id f) b w
           = (error_json 400 "No changes provided", w))
    /\ (no_keys (patch_change b) = false ->
        fails env FilesUpdate = false ->
        fails env2 FilesUpdate = false ->
        let w1 := snd (patchRoute env (f_user_id f) (f_id f) b w) in
        fst (patchRoute env (f_user_id f) (f_id f) b w)
        = json (JFile "File updated" (apply_change (patch_change b) f))
        /\ In (apply_change (patch_change b) f) (files w1)
        /\ fst (patchRoute env2 (f_user_id f) (f_id f) b w1)
           = json (JFile "File updated" (apply_change (patch_change b) f))
        /\ files (snd (patchRoute env2 (f_user_id f) (f_id f) b w1))
           = files w1).
Proof.
  intros env env2 w f b Hu Hin.
  assert (Hnone : no_keys (patch_change b) = true ->
                  patchRoute env (f_user_id f) (f_id f) b w
                  = (error_json 400 "No changes provided", w)).
  { intros Hkeys. unfold patchRoute. run.
    rewrite (owned_file_found w f Hu Hin). run. now rewrite Hkeys. }
  split; [exact Hnone|]. split.
  - intros l Hall ->. apply Hnone.
    unfold patch_change. cbn [pb_name pb_parentId pb_starred].
    rewrite (trim_white_space l Hall). reflexivity.
  - intros Hkeys Hupd Hupd2. cbv zeta.
    rewrite (patch_run env w f b Hu Hin Hkeys Hupd). cbn [fst snd].
    set (c := patch_change b) in *. set (e := mkEmitted _ _ _).
    set (w1 := add_emitted e _).
    assert (Hu1 : file_ids_unique w1 = true).
    { apply updated_ids_unique; [reflexivity|assumption]. }
    assert (Hin1 : In (apply_change c f) (files w1)).
    { subst w1. cbn [add_emitted set_files files]. apply in_map_iff.
      exists f. split; [|assumption]. now rewrite String.eqb_refl. }
    split; [reflexivity|]. split; [assumption|].
    pose proof (patch_run env2 w1 (apply_change c f) b Hu1 Hin1 Hkeys Hupd2)
      as Hrun.
    cbn [f_user_id f_id apply_change] in Hrun. fold c in Hrun.
    rewrite Hrun. cbn [fst snd]. rewrite apply_change_twice.
    split; [reflexivity|].
    cbn [add_emitted set_files files].
    rewrite <- (map_id (files w1)) at 2. apply map_ext_in. intros g Hg.
    destruct (String.eqb_spec (f_id g) (f_id f)) as [Hid|Hne];
      [|reflexivity].
    assert (g = apply_change c f)
      by (apply (unique_row w1 g _ Hu1 Hg Hin1); exact Hid).
    subst g. apply apply_change_twice.
Qed.

Lemma patch_applies_once_witness :
  patchRoute env0 "alice" "f1" (mkPatch (Some "   ") None None) world0
  = (error_json 400 "No changes provided", world0)
  /\ patchRoute env0 "alice" "f1"
       (mkPatch (Some (bytes [194; 160; 32; 226; 128; 168]%nat)) None None)
       world0
     = (error_json 400 "No changes provided", world0)
  /\ fst (patchRoute env0 "alice" "f2"
            (mkPatch (Some " notes.txt ") (Some (Some "")) (Some true)) world0)
     = json (JFile "File updated"
               (apply_change (mkChange (Some "notes.txt") (Some None)
                                       (Some true)) binned)).
Proof.
  assert (Hr : In report (files world0)) by (simpl; auto).
  assert (Hb : In binned (files world0)) by (simpl; auto).
  split; [|split].
  - destruct (patch_applies_once env0 env0 world0 report
                (mkPatch (Some "   ") None None) eq_refl Hr) as [Hnone _].
    apply Hnone. reflexivity.
  - destruct (patch_applies_once env0 env0 world0 report
                (mkPatch (Some (bytes [194; 160; 32; 226; 128; 168]%nat))
                         None None) eq_refl Hr) as [_ [Hwhite _]].
    apply (Hwhite [bytes [194; 160]; bytes [32]; bytes [226; 128; 168]]%nat).
    + repeat constructor; vm_compute; tauto.
    + reflexivity.
  - destruct (patch_applies_once env0 env0 world0 binned
                (mkPatch (Some " notes.txt ") (Some (Some "")) (Some true))
                eq_refl Hb) as [_ [_ Hsome]].
    destruct (Hsome eq_refl eq_refl eq_refl) as [Hfst _]. exact Hfst.
Defined.

(** [trim] on names with white space that is not ASCII: a no-break space
    in front, an ideographic space and a byte order mark behind, and a
    no-break space inside, which stays. *)
Example trim_samples :
  trim (bytes [194; 160]%nat) = EmptyString
  /\ trim (bytes [194; 160; 97; 227; 128; 128; 239; 187; 191]%nat) = "a"
  /\ trim (bytes [97; 194; 160; 98; 10]%nat) = bytes [97; 194; 160; 98]%nat
  /\ trim "  a b  " = "a b".
Proof. repeat split; reflexivity. Qed.

(** ** Versions and the file row *)

Lemma createVersion_run (env : Env) (userId fileId : string)
      (b : option Upload) (w : World) :
  status (fst (createVersionRoute env userId fileId b w)) = 200 ->
  exists blob f,
    b = Some blob
    /\ single (filter (fun f => (f_id f =? fileId)%string
                                && (f_user_id f =? userId)%string
                                && Bool.eqb (f_is_deleted f) false)
                      (files w)) = Some f
    /\ existsb (fun o => (fst o =? version_path env userId fileId
                                     (originalname blob))%string)
               (storage w) = false
    /\ createVersionRoute env userId fileId b w
       = let path := version_path env userId fileId (originalname blob) in
         let v := mkVersion fileId (next_version w fileId) (size blob) path
                            ChUpdate userId in
         (json (JVersion "New version created" v),
          add_emitted (mkEmitted ("user:" ++ userId) "file:updated" fileId)
            (set_files
               (map (fun g => if (f_id g =? fileId)%string
                              then mirror_version blob
                                     (getFileExt (originalname blob)) path g
                              else g) (files w))
               (set_file_versions (file_versions w ++ [v])
                  (set_storage (storage w ++ [(path, buffer blob)]) w)))).
Proof.
  unfold createVersionRoute. destruct b as [blob|]; run;
    [|cbn; discriminate].
  destruct (single _) as [f|] eqn:Hf; run; [|cbn; discriminate].
  unfold storage_upload.
  fold (version_path env userId fileId (originalname blob)).
  destruct (fails env StorageUpload); cbn [orb]; run; [cbn; discriminate|].
  destruct (existsb _ (storage w)) eqn:Hfree; run; [cbn; discriminate|].
  unfold versions_insert. cbn [set_storage fails].
  destruct (fails env VersionsInsert); run; [cbn; discriminate|].
  unfold files_update. cbn [set_file_versions fails].
  destruct (fails env FilesUpdate); run; [cbn; discriminate|].
  intros _. exists blob, f. repeat split; try reflexivity; assumption.
Qed.

Lemma restoreVersion_run (env : Env) (userId fileId : string)
      (n : option Z) (w : World) :
  status (fst (restoreVersionRoute env userId fileId n w)) = 200 ->
  exists K version,
    n = Some K
    /\ In version (versions_of w fileId)
    /\ v_version_number version = K
    /\ restoreVersionRoute env userId fileId n w
       = let v := mkVersion fileId (next_version w fileId) (v_size version)
                            (v_path version) ChRestore userId in
         (json (JMessage "File restored to selected version"),
          add_emitted (mkEmitted ("user:" ++ userId) "file:updated" fileId)
            (set_file_versions (file_versions w ++ [v])
               (set_files
                  (map (fun g => if (f_id g =? fileId)%string
                                 then point_at (v_path version)
                                               (v_size version) g
                                 else g) (files w)) w))).
Proof.
  unfold restoreVersionRoute. destruct n as [K|]; run; [|cbn; discriminate].
  destruct (owned_file w userId fileId); run; [|cbn; discriminate].
  rewrite version_lookup.
  destruct (single (numbered K (versions_of w fileId))) as [version|] eqn:Hv;
    run; [|cbn; discriminate].
  unfold files_update.
  destruct (fails env FilesUpdate); run; [cbn; discriminate|].
  unfold versions_insert. cbn [set_files fails].
  destruct (fails env VersionsInsert); run; [cbn; discriminate|].
  intros _. exists K, version. split; [reflexivity|].
  assert (Hin : In version (numbered K (versions_of w fileId))).
  { destruct (numbered K (versions_of w fileId)) as [|x [|y l]];
      try discriminate. injection Hv as ->. now left. }
  apply filter_In in Hin as [Hin HK]. apply Z.eqb_eq in HK.
  repeat split; assumption || reflexivity.
Qed.

Lemma new_version_is_latest (w w' : World) (fileId : string)
      (v : VersionRow) :
  file_versions w' = (file_versions w ++ [v])%list ->
  v_file_id v = fileId ->
  v_version_number v = next_version w fileId ->
  latest_of w' fileId v.
Proof.
  intros Hadd Hf Hn. unfold latest_of.
  assert (Hvs : versions_of w' fileId = (versions_of w fileId ++ [v])%list).
  { unfold versions_of at 1. rewrite Hadd.
    now apply (versions_of_snoc w fileId v _ eq_refl). }
  rewrite Hvs. split; [apply in_app_iff; right; now left|].
  intros x Hx. apply in_app_iff in Hx as [Hx|[<-|[]]]; [|lia].
  pose proof (next_version_above w fileId x Hx). lia.
Qed.

(** X11.  The file row follows its latest version.  After a version
    creation or a version restore of a file that is answered 200, every row
    of that file has the path and the size of a version of the file that
    no other version outnumbers (the one just added). *)
Theorem file_row_mirrors_latest_version :
  forall env r fileId w,
    creates_version_of fileId r = true
    \/ restores_version_of fileId r = true ->
    status (fst (serve env r w)) = 200 ->
    forall g,
      In g (files (snd (serve env r w))) ->
      f_id g = fileId ->
      exists v,
        latest_of (snd (serve env r w)) fileId v
        /\ f_path g = v_path v
        /\ f_size g = v_size v.
Proof.
  intros env r fileId w Hkind H200 g Hg Hid.
  destruct r as [u up par|u name par|u i b|u i|u i|u i|u i|u i b|u i n
                |u i b|u i s|u i e|t|u t];
    cbn [creates_version_of restores_version_of] in Hkind;
    try (destruct Hkind; discriminate); cbn [serve] in *.
  - destruct Hkind as [Hi|]; [|discriminate].
    apply String.eqb_eq in Hi. subst i.
    destruct (createVersion_run env u fileId b w H200)
      as [blob [f [_ [_ [_ Hrun]]]]].
    rewrite Hrun in *. cbv zeta in *. cbn [snd] in *.
    eexists. split; [|split].
    + eapply new_version_is_latest; reflexivity.
    + cbn [add_emitted set_files files] in Hg.
      apply in_map_iff in Hg as [g0 [Hg0 _]].
      destruct (String.eqb_spec (f_id g0) fileId) as [_|Hne];
        [now subst g|subst g; contradiction].
    + cbn [add_emitted set_files files] in Hg.
      apply in_map_iff in Hg as [g0 [Hg0 _]].
      destruct (String.eqb_spec (f_id g0) fileId) as [_|Hne];
        [now subst g|subst g; contradiction].
  - destruct Hkind as [|Hi]; [discriminate|].
    apply String.eqb_eq in Hi. subst i.
    destruct (restoreVersion_run env u fileId n w H200)
      as [K [version [_ [_ [_ Hrun]]]]].
    rewrite Hrun in *. cbv zeta in *. cbn [snd] in *.
    eexists. split; [|split].
    + eapply new_version_is_latest; reflexivity.
    + cbn [add_emitted set_file_versions set_files files] in Hg.
      apply in_map_iff in Hg as [g0 [Hg0 _]].
      destruct (String.eqb_spec (f_id g0) fileId) as [_|Hne];
        [now subst g|subst g; contradiction].
    + cbn [add_emitted set_file_versions set_files files] in Hg.
      apply in_map_iff in Hg as [g0 [Hg0 _]].
      destruct (String.eqb_spec (f_id g0) fileId) as [_|Hne];
        [now subst g|subst g; contradiction].
Qed.

Lemma file_row_mirrors_latest_version_witness :
  exists v,
    latest_of (snd (serve env0 (ReqRestoreVersion "alice" "f1" (Some 1))
                          world0)) "f1" v
    /\ "alice/versions/f1/1.pdf" = v_path v
    /\ 10 = v_size v.
Proof.
  apply (file_row_mirrors_latest_version env0
           (ReqRestoreVersion "alice" "f1" (Some 1)) "f1" world0
           (or_intror eq_refl) eq_refl
           (point_at "alice/versions/f1/1.pdf" 10 report)).
  - vm_compute. left. reflexivity.
  - reflexivity.
Defined.

Lemma ids_of_update (l : list FileRow) (fileId : string)
      (change : FileRow -> FileRow) :
  (forall f, f_id (change f) = f_id f) ->
  map f_id (map (fun g => if (f_id g =? fileId)%string then change g else g)
                l)
  = map f_id l.
Proof.
  intros Hid. rewrite map_map. apply map_ext.
  intros g. destruct (f_id g =? fileId)%string; auto.
Qed.

Lemma single_filter_In {A} (p : A -> bool) (l : list A) (x : A) :
  single (filter p l) = Some x -> In x l /\ p x = true.
Proof.
  intros Hs. apply filter_In.
  destruct (filter p l) as [|a [|b r]]; try discriminate.
  injection Hs as ->. now left.
Qed.

Lemma live_owned_found (w : World) (f : FileRow) :
  file_ids_unique w = true -> In f (files w) -> f_is_deleted f = false ->
  filter (fun g => (f_id g =? f_id f)%string
                   && (f_user_id g =? f_user_id f)%string
                   && Bool.eqb (f_is_deleted g) false) (files w)
  = [f].
Proof.
  intros Hu Hin Hlive.
  pose proof (filter_key_found f_id
                (fun g => (f_user_id g =? f_user_id f)%string
                          && Bool.eqb (f_is_deleted g) false)
                (files w) (f_id f) f Hu Hin eq_refl) as Hf.
  cbn beta in Hf. rewrite String.eqb_refl, Hlive in Hf. cbn in Hf.
  rewrite <- Hf. apply filter_ext. intros g. now rewrite andb_assoc.
Qed.

(** X12.  New version, then download.  When a version creation is answered
    200 (file ids being keys), the blob at
    [userId/versions/fileId/stamp(.ext)] is the uploaded buffer, and the
    owner's download of the file is answered 200 with a signed URL for that
    path and the file's name with the new size and type. *)
Theorem new_version_then_download :
  forall env env2 userId fileId blob w,
    file_ids_unique w = true ->
    status (fst (createVersionRoute env userId fileId (Some blob) w)) = 200 ->
    fails env2 StorageSign = false ->
    let w1 := snd (createVersionRoute env userId fileId (Some blob) w) in
    let path := version_path env userId fileId (originalname blob) in
    blob_at w1 path = Some (buffer blob)
    /\ exists f,
        In f (files w) /\ f_id f = fileId /\ f_user_id f = userId
        /\ downloadRoute env2 userId fileId w1
           = (json (JDownload (mkSigned path 3600)
                              (mkMeta fileId (f_name f) (size blob)
                                      (mimetype blob))),
              w1).
Proof.
  intros env env2 userId fileId blob w Hu H200 Hsign. cbv zeta.
  destruct (createVersion_run env userId fileId (Some blob) w H200)
    as [blob' [f [Hb [Hsingle [Hfree Hrun]]]]].
  injection Hb as <-.
  apply single_filter_In in Hsingle as [Hin Hp].
  apply andb_true_iff in Hp as [Hp Hlive].
  apply andb_true_iff in Hp as [Hid Huser].
  apply String.eqb_eq in Hid, Huser. apply Bool.eqb_prop in Hlive.
  rewrite Hrun. cbv zeta. cbn [snd].
  set (path := version_path env userId fileId (originalname blob)) in *.
  set (w1 := add_emitted _ _).
  split.
  - apply (blob_at_new w w1 _ _ Hfree). reflexivity.
  - exists f. repeat (split; [assumption|]).
    set (f1 := mirror_version blob (getFileExt (originalname blob)) path f).
    assert (Hu1 : file_ids_unique w1 = true).
    { subst w1. unfold file_ids_unique.
      cbn [add_emitted set_files files].
      rewrite ids_of_update; [exact Hu|reflexivity]. }
    assert (Hin1 : In f1 (files w1)).
    { subst w1. cbn [add_emitted set_files files]. apply in_map_iff.
      exists f. split; [|assumption]. now rewrite Hid, String.eqb_refl. }
    pose proof (download_owner_live env2 w1 f1 Hu1 Hin1 Hlive Hsign) as Hdl.
    cbn [f1 mirror_version f_user_id f_id f_path f_name f_size f_type] in Hdl.
    now rewrite Hid, Huser in Hdl.
Qed.

Lemma new_version_then_download_witness :
  blob_at
    (snd (createVersionRoute env0 "alice" "f1"
            (Some (mkUpload "r.pdf" "application/pdf" 3 "new")) world0))
    "alice/versions/f1/1000-k3x.pdf"
  = Some "new".
Proof.
  destruct (new_version_then_download env0 env0 "alice" "f1"
              (mkUpload "r.pdf" "application/pdf" 3 "new") world0
              eq_refl eq_refl eq_refl) as [Hblob _].
  exact Hblob.
Defined.

(** X13.  Version writes are not undone.  For a file of the caller (file
    ids being keys): if a version creation stores its blob and inserts its
    version row and the update of the file row then fails, the answer is
    500 while the version row and the blob stay and the file row is as
    before; and if a version restore updates the file row and the insert
    of the restore row then fails, the answer is 500 while the file row
    already points at the restored version and no version row was added. *)
Theorem version_writes_are_not_undone :
  forall env w f,
    file_ids_unique w = true ->
    In f (files w) ->
    (forall blob,
        f_is_deleted f = false ->
        existsb (fun o => (fst o =? version_path env (f_user_id f) (f_id f)
                                      (originalname blob))%string)
                (storage w) = false ->
        fails env StorageUpload = false ->
        fails env VersionsInsert = false ->
        fails env FilesUpdate = true ->
        let w1 := snd (createVersionRoute env (f_user_id f) (f_id f)
                                          (Some blob) w) in
        fst (createVersionRoute env (f_user_id f) (f_id f) (Some blob) w)
        = error_json 500 "Internal server error"
        /\ files w1 = files w
        /\ file_versions w1
           = (file_versions w
              ++ [mkVersion (f_id f) (next_version w (f_id f)) (size blob)
                    (version_path env (f_user_id f) (f_id f)
                                  (originalname blob))
                    ChUpdate (f_user_id f)])%list
        /\ blob_at w1 (version_path env (f_user_id f) (f_id f)
                                    (originalname blob))
           = Some (buffer blob))
    /\ (forall K v,
           numbered K (versions_of w (f_id f)) = [v] ->
           fails env FilesUpdate = false ->
           fails env VersionsInsert = true ->
           let w1 := snd (restoreVersionRoute env (f_user_id f) (f_id f)
                                              (Some K) w) in
           fst (restoreVersionRoute env (f_user_id f) (f_id f) (Some K) w)
           = error_json 500 "Internal server error"
           /\ In (point_at (v_path v) (v_size v) f) (files w1)
           /\ file_versions w1 = file_versions w).
Proof.
  intros env w f Hu Hin. split.
  - intros blob Hlive Hfree Hup Hins Hupd. cbv zeta.
    unfold createVersionRoute. run.
    rewrite (live_owned_found w f Hu Hin Hlive). cbn [single]. run.
    unfold storage_upload.
    fold (version_path env (f_user_id f) (f_id f) (originalname blob)).
    rewrite Hup, Hfree. cbn [orb]. run.
    unfold versions_insert. cbn [set_storage fails]. rewrite Hins. run.
    unfold files_update. cbn [set_file_versions fails]. rewrite Hupd. run.
    split; [reflexivity|]. split; [reflexivity|]. split; [reflexivity|].
    apply (blob_at_new w _ _ _ Hfree). reflexivity.
  - intros K v Hk Hupd Hins. cbv zeta.
    unfold restoreVersionRoute. run.
    rewrite (owned_file_found w f Hu Hin). run.
    rewrite version_lookup, Hk. cbn [single]. run.
    unfold files_update. rewrite Hupd. run.
    unfold versions_insert. cbn [set_files fails]. rewrite Hins. run.
    split; [reflexivity|]. split; [|reflexivity].
    cbn [set_files files]. apply in_map_iff. exists f.
    split; [|assumption]. now rewrite String.eqb_refl.
Qed.

Lemma version_writes_are_not_undone_witness :
  fst (restoreVersionRoute
         (mkEnv 1 "s" "i" "t"
            (fun c => match c with VersionsInsert => true | _ => false end))
         "alice" "f1" (Some 1) world0)
  = error_json 500 "Internal server error"
  /\ file_versions
       (snd (restoreVersionRoute
               (mkEnv 1 "s" "i" "t"
                  (fun c => match c with
                            | VersionsInsert => true
                            | _ => false
                            end))
               "alice" "f1" (Some 1) world0))
     = file_versions world0.
Proof.
  assert (Hin : In report (files world0)) by (simpl; auto).
  destruct (version_writes_are_not_undone
              (mkEnv 1 "s" "i" "t"
                 (fun c => match c with
                           | VersionsInsert => true
                           | _ => false
                           end))
              world0 report eq_refl Hin) as [_ Hrestore].
  destruct (Hrestore 1 (mkVersion "f1" 1 10 "alice/versions/f1/1.pdf"
                                  ChUpdate "alice")
                     eq_refl eq_refl eq_refl) as [H500 [_ Hhist]].
  split; [exact H500|exact Hhist].
Defined.

(** ** Listing the versions *)

From Stdlib Require Import Permutation Sorted.







Example list_versions_sample :
  match listVersionsRoute "alice" "f1" world0 with
  | inr l => map v_version_number l = [2; 1]
  | inl _ => False
  end.
Proof. vm_compute. reflexivity. Qed.

(** ** Sharing, access and revocation *)




Lemma revokeShare_run (env : Env) (userId fileId shareId : string)
      (w : World) :
  owned_file w userId fileId <> None ->
  fails env SharesDelete = false ->
  revokeShareRoute env userId fileId shareId w
  = (json (JMessage "Share revoked successfully"),
     add_emitted (mkEmitted ("user:" ++ userId) "share:revoked" shareId)
       (set_shares
          (filter (fun s => negb ((s_id s =? shareId)%string
                                  && (s_file_id s =? fileId)%string))
                  (shares w)) w)).
Proof.
  intros Hown Hdel. unfold revokeShareRoute. run.
  destruct (owned_file w userId fileId); [|contradiction]. run.
  unfold shares_delete. rewrite Hdel. reflexivity.
Qed.

(** X16.  Share, then revoke.  With file ids keys and shares one per
    (file, email): after a targeted share answered 200, the owner's revoke
    of the share id that was returned (the delete going through) is
    answered 200; the shared-with caller is then denied view again, no
    share row is left for the (file, email) pair, the shares of other
    files are all still there, and sharing the file to the same email
    again is answered 200 rather than 409. *)
Theorem share_then_revoke :
  forall env env2 env3 owner fileId b w recipient email,
    file_ids_unique w = true ->
    shares_wf w = true ->
    status (fst (createShareRoute env owner fileId b w)) = 200 ->
    sb_email b = Some email ->
    getCurrentUserEmail w recipient = Some email ->
    ~ owns w recipient fileId ->
    fails env2 SharesDelete = false ->
    fails env3 SharesInsert = false ->
    let w1 := snd (createShareRoute env owner fileId b w) in
    let w2 := snd (revokeShareRoute env2 owner fileId (fresh_id env) w1) in
    status (fst (revokeShareRoute env2 owner fileId (fresh_id env) w1)) = 200
    /\ shares_for w2 fileId email = []
    /\ (forall needed,
           hasFilePermission w2 recipient fileId needed = mkPerm false None)
    /\ (forall s, In s (shares w) -> s_file_id s <> fileId ->
                  In s (shares w2))
    /\ status (fst (createShareRoute env3 owner fileId b w2)) = 200.
Proof.
  intros env env2 env3 owner fileId b w recipient email Hu Hwf H200 Hb He
         Hnot Hdel Hins.
  cbv zeta.
  destruct (createShare_cases env owner fileId b w)
    as [[Hno _]|[email' [perm [Hb' [Ht [Hp [Hown [Hprof [Hnone Hrun]]]]]]]]];
    [contradiction|].
  assert (email' = email) by congruence. subst email'.
  pose proof (truthy_nonempty email Ht) as Hne.
  rewrite Hrun. cbn [snd].
  set (share := mkShare (fresh_id env) fileId owner email perm
                        Private None None).
  set (e := mkEmitted _ _ _). set (w1 := add_emitted e _).
  pose proof (no_match_is_empty w fileId email Hwf Hne Hnone) as Hempty.
  assert (Hown1 : owned_file w1 owner fileId <> None) by exact Hown.
  rewrite (revokeShare_run env2 owner fileId (fresh_id env) w1 Hown1 Hdel).
  cbn [fst snd]. set (e2 := mkEmitted _ "share:revoked" _).
  set (w2 := add_emitted e2 _).
  assert (Hgone : shares_for w2 fileId email = []).
  { unfold shares_for. subst w2 w1.
    cbn [add_emitted set_shares shares]. rewrite filter_filter_and.
    rewrite filter_app. cbn [filter share s_id s_file_id s_shared_with_email].
    rewrite !String.eqb_refl. cbn [andb negb app].
    rewrite app_nil_r.
    destruct (filter _ (shares w)) as [|x l] eqn:Hf; [reflexivity|].
    assert (Hx : In x (filter
              (fun x => negb ((s_id x =? fresh_id env)%string
                              && (s_file_id x =? fileId)%string)
                        && ((s_file_id x =? fileId)%string
                            && (s_shared_with_email x =? email)%string))
              (shares w))) by (rewrite Hf; now left).
    apply filter_In in Hx as [Hin Hx]. apply andb_true_iff in Hx as [_ Hx].
    assert (Hx' : In x (shares_for w fileId email))
      by (apply filter_In; now split).
    rewrite Hempty in Hx'. contradiction. }
  split; [reflexivity|]. split; [assumption|]. split; [|split].
  - intros needed.
    apply (hasFilePermission_unshared w2 recipient fileId email);
      [exact (isOwner_false w recipient fileId Hu Hnot)|exact He|assumption].
  - intros s Hs Hother. subst w2 w1. cbn [add_emitted set_shares shares].
    apply filter_In. split; [apply in_app_iff; now left|].
    apply String.eqb_neq in Hother. rewrite Hother.
    now rewrite andb_false_r.
  - unfold createShareRoute. rewrite Hb. run. rewrite Ht. cbn [negb]. run.
    rewrite Hp. run.
    change (owned_file w2 owner fileId) with (owned_file w owner fileId).
    destruct (owned_file w owner fileId); [|contradiction]. run.
    change (profiles w2) with (profiles w).
    destruct (single (filter _ (profiles w))); [|contradiction]. run.
    rewrite Hgone. cbn [maybeSingle fst]. run.
    unfold shares_insert. rewrite Hins. reflexivity.
Qed.

Lemma share_then_revoke_witness :
  shares_for
    (snd (revokeShareRoute env0 "alice" "f2" (fresh_id env0)
            (snd (createShareRoute env0 "alice" "f2"
                    (mkShareBody (Some "bob@x.io") None) world0))))
    "f2" "bob@x.io"
  = [].
Proof.
  assert (Hnot : ~ owns world0 "bob" "f2").
  { intros [f [Hin [Hi Hus]]]. simpl in Hin.
    destruct Hin as [<-|[<-|[]]]; simpl in Hus; discriminate. }
  destruct (share_then_revoke env0 env0 env0 "alice" "f2"
              (mkShareBody (Some "bob@x.io") None) world0 "bob" "bob@x.io"
              eq_refl eq_refl eq_refl eq_refl eq_refl Hnot eq_refl eq_refl)
    as [_ [Hgone _]].
  exact Hgone.
Defined.

(** X17.  What a targeted-share request is refused for, in the order the
    route checks: a missing or empty email is answered 400 "Email is
    required"; then a permission other than view, edit or admin is
    answered 400 with the text that names the three words in double quotes
    (for strangers to the file too); then, for the owner of the file, an
    email that does not pick out exactly one profile is answered 404.  In
    every one of these cases the store is returned unchanged. *)
Theorem share_request_refusals :
  forall env userId fileId b w,
    ((sb_email b = None \/ sb_email b = Some "") ->
     createShareRoute env userId fileId b w
     = (error_json 400 "Email is required", w))
    /\ (forall email,
           sb_email b = Some email -> email <> "" ->
           parse_permission (requested_permissions b) = None ->
           createShareRoute env userId fileId b w
           = (error_json 400 INVALID_PERMISSIONS, w))
    /\ (forall email perm,
           sb_email b = Some email -> email <> "" ->
           parse_permission (requested_permissions b) = Some perm ->
           owned_file w userId fileId <> None ->
           single (filter (fun p => (p_email p =? email)%string) (profiles w))
           = None ->
           createShareRoute env userId fileId b w
           = (error_json 404 "User not found", w)).
Proof.
  intros env userId fileId b w. split; [|split].
  - intros [He|He]; unfold createShareRoute; rewrite He; reflexivity.
  - intros email He Hne Hp. unfold createShareRoute. rewrite He. run.
    apply String.eqb_neq in Hne. unfold truthy. rewrite Hne. cbn [negb]. run.
    now rewrite Hp.
  - intros email perm He Hne Hp Hown Hprof. unfold createShareRoute.
    rewrite He. run.
    apply String.eqb_neq in Hne. unfold truthy. rewrite Hne. cbn [negb]. run.
    rewrite Hp. run.
    destruct (owned_file w userId fileId); [|contradiction]. run.
    now rewrite Hprof.
Qed.

Lemma share_request_refusals_witness :
  createShareRoute env0 "bob" "f1" (mkShareBody (Some "") None) world0
  = (error_json 400 "Email is required", world0)
  /\ createShareRoute env0 "bob" "f1"
       (mkShareBody (Some "bob@x.io") (Some "owner")) world0
     = (error_json 400 INVALID_PERMISSIONS, world0)
  /\ createShareRoute env0 "alice" "f1"
       (mkShareBody (Some "nobody@x.io") None) world0
     = (error_json 404 "User not found", world0).
Proof.
  split; [|split].
  - destruct (share_request_refusals env0 "bob" "f1"
                (mkShareBody (Some "") None) world0) as [H _].
    apply H. right. reflexivity.
  - destruct (share_request_refusals env0 "bob" "f1"
                (mkShareBody (Some "bob@x.io") (Some "owner")) world0)
      as [_ [H _]].
    apply (H "bob@x.io"); [reflexivity|discriminate|reflexivity].
  - destruct (share_request_refusals env0 "alice" "f1"
                (mkShareBody (Some "nobody@x.io") None) world0)
      as [_ [_ H]].
    apply (H "nobody@x.io" PView);
      [reflexivity|discriminate|reflexivity|discriminate|reflexivity].
Defined.

(** The text of the second refusal: 54 characters, the six quotes being
    double quotes. *)
Example invalid_permissions_text :
  String.length INVALID_PERMISSIONS = 54%nat
  /\ map (fun n => String.get n INVALID_PERMISSIONS)
         [29; 34; 37; 42; 47; 53]%nat
     = repeat (Some (ascii_of_nat 34)) 6
  /\ String.substring 0 29 INVALID_PERMISSIONS
     = "Invalid permissions. Must be "
  /\ String.substring 30 4 INVALID_PERMISSIONS = "view"
  /\ String.substring 34 4 INVALID_PERMISSIONS
     = String (ascii_of_nat 34) ", " ++ String (ascii_of_nat 34) ""
  /\ String.substring 38 4 INVALID_PERMISSIONS = "edit"
  /\ String.substring 43 4 INVALID_PERMISSIONS = " or "
  /\ String.substring 48 5 INVALID_PERMISSIONS = "admin".
Proof. repeat split; reflexivity. Qed.

(** ** Public links: create, resolve, revoke *)

Lemma find_is_first_match {A} (p : A -> bool) (l : list A) :
  find p l = hd_error (filter p l).
Proof.
  induction l as [|a l IH]; [reflexivity|].
  cbn [find filter]. destruct (p a); [reflexivity|assumption].
Qed.

Lemma find_by_id (w : World) (f : FileRow) :
  file_ids_unique w = true -> In f (files w) ->
  find (fun g => (f_id g =? f_id f)%string) (files w) = Some f.
Proof.
  intros Hu Hin. now rewrite find_is_first_match, (file_by_id w f Hu Hin).
Qed.

Lemma filter_none {A} (p : A -> bool) (l : list A) :
  (forall x, In x l -> p x = false) -> filter p l = [].
Proof.
  intros Hnone. induction l as [|a l IH]; [reflexivity|].
  cbn [filter]. rewrite (Hnone a (or_introl eq_refl)).
  apply IH. intros x Hx. apply Hnone. now right.
Qed.

Lemma no_token_no_match (token : string) (l : list ShareRow) :
  (forall s, In s l -> s_public_token s <> Some token) ->
  filter (fun x => token_is token x && is_public x) l = [].
Proof.
  intros Hnone. induction l as [|a l IH]; [reflexivity|].
  cbn [filter]. unfold token_is at 1.
  assert (Ha : s_public_token a <> Some token) by (apply Hnone; now left).
  destruct (s_public_token a) as [t|].
  - destruct (String.eqb_spec t token) as [->|_]; [contradiction|].
    cbn [andb]. apply IH. intros s Hs. apply Hnone. now right.
  - cbn [andb]. apply IH. intros s Hs. apply Hnone. now right.
Qed.

(** X18.  Public link, created then resolved.  For a file of the caller
    (file ids being keys), with the share insert going through and a token
    no share carries yet: the answer is 200 and names the generated token;
    resolving that token is then answered 410 when the link was given an
    expiry that lies strictly before the clock, and otherwise (the signing
    call succeeding) 200 with the file's id, name, size and type and a
    signed URL for its path valid 3600 seconds. *)
Theorem public_link_round_trip :
  forall env env2 expiresAt w f,
    file_ids_unique w = true ->
    In f (files w) ->
    fails env SharesInsert = false ->
    (forall s, In s (shares w) -> s_public_token s <> Some (fresh_token env)) ->
    let w1 := snd (createPublicLinkRoute env (f_user_id f) (f_id f)
                                         expiresAt w) in
    (exists share,
        fst (createPublicLinkRoute env (f_user_id f) (f_id f) expiresAt w)
        = json (JPublicLink "Public link created"
                            (Some (fresh_token env)) share)
        /\ In share (shares w1)
        /\ s_share_type share = Public
        /\ s_expires_at share = expiresAt)
    /\ (forall t,
           expiresAt = Some t -> t < now env2 ->
           resolvePublicLinkRoute env2 (fresh_token env) w1
           = (error_json 410 "Link expired", w1))
    /\ ((expiresAt = None
         \/ exists t, expiresAt = Some t /\ now env2 <= t) ->
        fails env2 StorageSign = false ->
        resolvePublicLinkRoute env2 (fresh_token env) w1
        = (json (JDownload (mkSigned (f_path f) 3600)
                           (mkMeta (f_id f) (f_name f) (f_size f) (f_type f))),
           w1)).
Proof.
  intros env env2 expiresAt w f Hu Hin Hins Hnew. cbv zeta.
  assert (Hrun :
    createPublicLinkRoute env (f_user_id f) (f_id f) expiresAt w
    = let share := mkShare (fresh_id env) (f_id f) (f_user_id f) "" PView
                           Public (Some (fresh_token env)) expiresAt in
      (json (JPublicLink "Public link created" (Some (fresh_token env)) share),
       set_shares (shares w ++ [share]) w)).
  { unfold createPublicLinkRoute. run.
    rewrite (owned_file_found w f Hu Hin). run.
    unfold shares_insert. rewrite Hins. reflexivity. }
  rewrite Hrun. cbv zeta. cbn [fst snd].
  set (share := mkShare (fresh_id env) (f_id f) (f_user_id f) "" PView
                        Public (Some (fresh_token env)) expiresAt).
  set (w1 := set_shares _ w).
  assert (Hm : filter (fun x => token_is (fresh_token env) x && is_public x)
                      (shares w1) = [share]).
  { subst w1. cbn [set_shares shares]. rewrite filter_app.
    rewrite (no_token_no_match _ _ Hnew). cbn [filter app].
    unfold token_is, is_public. cbn [share s_public_token s_share_type].
    now rewrite String.eqb_refl. }
  assert (Hfile : share_file w1 share = Some f).
  { unfold share_file. exact (find_by_id w f Hu Hin). }
  split; [|split].
  - exists share. split; [reflexivity|]. split; [|split; reflexivity].
    subst w1. cbn [set_shares shares]. apply in_app_iff. right. now left.
  - intros t -> Hpast. unfold resolvePublicLinkRoute. run.
    rewrite Hm. cbn [maybeSingle]. unfold expired.
    cbn [share s_expires_at].
    destruct (Z.ltb_spec t (now env2)); [reflexivity|lia].
  - intros Hlive Hsign.
    apply (resolve_link_ok env2 w1 (fresh_token env) share f Hm);
      try assumption.
    unfold expired. cbn [share s_expires_at].
    destruct Hlive as [-> | [t [-> Hle]]]; [reflexivity|].
    destruct (Z.ltb_spec t (now env2)); [lia|reflexivity].
Qed.

Lemma public_link_round_trip_witness :
  resolvePublicLinkRoute env0 (fresh_token env0)
    (snd (createPublicLinkRoute env0 "alice" "f1" (Some 999) world0))
  = (error_json 410 "Link expired",
     snd (createPublicLinkRoute env0 "alice" "f1" (Some 999) world0)).
Proof.
  assert (Hin : In report (files world0)) by (simpl; auto).
  assert (Hnew : forall s, In s (shares world0) ->
                           s_public_token s <> Some (fresh_token env0)).
  { intros s Hs. simpl in Hs.
    destruct Hs as [<-|[<-|[<-|[]]]]; simpl; discriminate. }
  destruct (public_link_round_trip env0 env0 (Some 999) world0 report
              eq_refl Hin eq_refl Hnew) as [_ [Hexp _]].
  apply (Hexp 999); [reflexivity|simpl; lia].
Defined.

(** X19.  Revocations remove only what they name.  Whatever the outcome,
    the shares after a targeted revoke are shares that were there before,
    and every share with another id or of another file is still there;
    the shares after a public-link revoke are shares that were there
    before, and every share that does not carry the token, or whose owner
    is not the caller, is still there (so targeted shares, which carry no
    token, are never removed by it). *)
Theorem revocations_remove_only_their_target :
  forall env userId w,
    (forall fileId shareId s,
        (In s (shares (snd (revokeShareRoute env userId fileId shareId w))) ->
         In s (shares w))
        /\ (In s (shares w) ->
            s_id s <> shareId \/ s_file_id s <> fileId ->
            In s (shares (snd (revokeShareRoute env userId fileId shareId
                                                w)))))
    /\ (forall token s,
           (In s (shares (snd (revokePublicLinkRoute env userId token w))) ->
            In s (shares w))
           /\ (In s (shares w) ->
               s_public_token s <> Some token \/ s_owner_id s <> userId ->
               In s (shares (snd (revokePublicLinkRoute env userId token
                                                        w))))).
Proof.
  intros env userId w. split.
  - intros fileId shareId s. unfold revokeShareRoute. run.
    destruct (owned_file w userId fileId); run; [|tauto].
    unfold shares_delete. destruct (fails env SharesDelete); run; [tauto|].
    cbn [add_emitted set_shares shares]. split.
    + intros Hs. now apply filter_In in Hs.
    + intros Hs Hother. apply filter_In. split; [assumption|].
      apply negb_true_iff. apply andb_false_iff.
      destruct Hother as [H|H]; [left|right]; now apply String.eqb_neq.
  - intros token s. unfold revokePublicLinkRoute. run.
    unfold shares_delete. destruct (fails env SharesDelete); run; [tauto|].
    cbn [set_shares shares]. split.
    + intros Hs. now apply filter_In in Hs.
    + intros Hs Hother. apply filter_In. split; [assumption|].
      apply negb_true_iff. apply andb_false_iff.
      destruct Hother as [H|H]; [left|right; now apply String.eqb_neq].
      unfold token_is. destruct (s_public_token s) as [t|]; [|reflexivity].
      apply String.eqb_neq. congruence.
Qed.

Lemma revocations_remove_only_their_target_witness :
  In view_share
     (shares (snd (revokePublicLinkRoute env0 "alice" "tok" world0)))
  /\ In open_link
        (shares (snd (revokePublicLinkRoute env0 "bob" "tok" world0))).
Proof.
  destruct (revocations_remove_only_their_target env0 "alice" world0)
    as [_ Ha].
  destruct (revocations_remove_only_their_target env0 "bob" world0)
    as [_ Hb].
  split.
  - apply (Ha "tok" view_share); [simpl; auto|left; discriminate].
  - apply (Hb "tok" open_link); [simpl; auto|right; discriminate].
Defined.

(** X20.  Revoking a public link.  When the delete goes through the answer
    is 200 whoever calls.  If every share carrying the token belongs to the
    caller, resolving the token afterwards is answered 404.  If none of
    them belongs to the caller, the shares are exactly as before: the
    request is answered 200 although it revoked nothing. *)
Theorem public_link_revocation :
  forall env env2 userId token w,
    fails env SharesDelete = false ->
    fst (revokePublicLinkRoute env userId token w)
    = json (JMessage "Public link revoked")
    /\ ((forall s, In s (shares w) -> s_public_token s = Some token ->
                   s_owner_id s = userId) ->
        resolvePublicLinkRoute env2 token
          (snd (revokePublicLinkRoute env userId token w))
        = (error_json 404 "Link not found",
           snd (revokePublicLinkRoute env userId token w)))
    /\ ((forall s, In s (shares w) -> s_public_token s = Some token ->
                   s_owner_id s <> userId) ->
        snd (revokePublicLinkRoute env userId token w) = w).
Proof.
  intros env env2 userId token w Hdel.
  assert (Hrun :
    revokePublicLinkRoute env userId token w
    = (json (JMessage "Public link revoked"),
       set_shares
         (filter (fun s => negb (token_is token s
                                 && (s_owner_id s =? userId)%string))
                 (shares w)) w)).
  { unfold revokePublicLinkRoute. run. unfold shares_delete.
    now rewrite Hdel. }
  rewrite Hrun. cbn [fst snd]. split; [reflexivity|]. split.
  - intros Hmine. unfold resolvePublicLinkRoute. run.
    cbn [set_shares shares]. rewrite filter_filter_and.
    assert (Hnone : filter
              (fun x => negb (token_is token x
                              && (s_owner_id x =? userId)%string)
                        && (token_is token x && is_public x))
              (shares w) = []).
    { apply filter_none. intros x Hin.
      destruct (token_is token x) eqn:Htok; [|now rewrite andb_false_r].
      cbn [andb].
      assert (Hown : s_owner_id x = userId).
      { apply (Hmine x Hin). unfold token_is in Htok.
        destruct (s_public_token x) as [t|]; [|discriminate].
        apply String.eqb_eq in Htok. now subst. }
      now rewrite Hown, String.eqb_refl. }
    now rewrite Hnone.
  - intros Hnotmine.
    assert (Hall : filter
              (fun s => negb (token_is token s
                              && (s_owner_id s =? userId)%string))
              (shares w) = shares w).
    { apply forallb_filter_id. apply forallb_forall. intros s Hs.
      apply negb_true_iff. apply andb_false_iff.
      unfold token_is. destruct (s_public_token s) as [t|] eqn:Ht;
        [|now left].
      destruct (String.eqb_spec t token) as [->|_]; [|now left].
      right. apply String.eqb_neq. now apply (Hnotmine s Hs). }
    rewrite Hall. now destruct w.
Qed.

Lemma public_link_revocation_witness :
  resolvePublicLinkRoute env0 "tok"
    (snd (revokePublicLinkRoute env0 "alice" "tok" world0))
  = (error_json 404 "Link not found",
     snd (revokePublicLinkRoute env0 "alice" "tok" world0))
  /\ snd (revokePublicLinkRoute env0 "bob" "tok" world0) = world0.
Proof.
  destruct (public_link_revocation env0 env0 "alice" "tok" world0 eq_refl)
    as [_ [Hmine _]].
  destruct (public_link_revocation env0 env0 "bob" "tok" world0 eq_refl)
    as [_ [_ Hother]].
  split.
  - apply Hmine. intros s Hs _. simpl in Hs.
    destruct Hs as [<-|[<-|[<-|[]]]]; reflexivity.
  - apply Hother. intros s Hs Ht. simpl in Hs.
    destruct Hs as [<-|[<-|[<-|[]]]]; simpl in *; discriminate.
Defined.

(** ** Download without a claim to the file *)

(** X21.  A caller who has no row of the file and for whose email no share
    row of the file exists is answered 403 by the download route, whether
    or not the id names any file at all: the permission check comes before
    the lookup of the file.  The store is unchanged. *)
Theorem download_denied_before_lookup :
  forall env userId fileId w,
    ~ owns w userId fileId ->
    (forall email, getCurrentUserEmail w userId = Some email ->
                   shares_for w fileId email = []) ->
    downloadRoute env userId fileId w = (error_json 403 "Access denied", w).
Proof.
  intros env userId fileId w Hnot Hnone. unfold downloadRoute. run.
  assert (Ho : isOwner w userId fileId = false).
  { unfold isOwner.
    pose proof (not_owned_filter w userId fileId (fun _ => true) Hnot) as Hf.
    erewrite filter_ext; [rewrite Hf; reflexivity|].
    intros f. cbn. now rewrite andb_true_r. }
  assert (Hden : hasFilePermission w userId fileId LView = mkPerm false None).
  { destruct (getCurrentUserEmail w userId) as [email|] eqn:He.
    - apply (hasFilePermission_unshared w userId fileId email);
        [assumption|assumption|now apply Hnone].
    - unfold hasFilePermission. now rewrite Ho, He. }
  now rewrite Hden.
Qed.

Lemma download_denied_before_lookup_witness :
  downloadRoute env0 "bob" "no-such-file" world0
  = (error_json 403 "Access denied", world0).
Proof.
  apply (download_denied_before_lookup env0 "bob" "no-such-file" world0).
  - intros [f [Hin [Hi _]]]. simpl in Hin.
    destruct Hin as [<-|[<-|[]]]; discriminate.
  - intros email He. vm_compute in He. injection He as <-. reflexivity.
Defined.

(** ** The helper's permission check against the resolver *)




Lemma append_assoc_r (s t u : string) : (s ++ t) ++ u = s ++ t ++ u.
Proof. induction s as [|c s IH]; [reflexivity|]. cbn. now rewrite IH. Qed.

Lemma length_drop (n : nat) (s : string) :
  String.length (drop n s) = (String.length s - n)%nat.
Proof.
  revert s. induction n as [|n IH]; intros s; cbn [drop].
  - lia.
  - destruct s as [|c s]; [reflexivity|]. cbn [String.length]. now rewrite IH.
Qed.

Lemma length_substring_le (n m : nat) (s : string) :
  (String.length (String.substring n m s) <= m)%nat.
Proof.
  revert n m. induction s as [|c s IH]; intros n m.
  - destruct n, m; cbn; lia.
  - destruct n as [|n].
    + destruct m as [|m]; cbn [String.substring String.length]; [lia|].
      specialize (IH 0%nat m). lia.
    + cbn [String.substring]. apply IH.
Qed.

(** [substring(n, n + m)] is [substring(n)] on a string of at most
    [n + m] characters. *)
Lemma substring_to_end (n m : nat) (s : string) :
  (String.length s <= n + m)%nat -> String.substring n m s = drop n s.
Proof.
  revert n m. induction s as [|c s IH]; intros n m Hlen.
  - destruct n, m; reflexivity.
  - destruct n as [|n].
    + destruct m as [|m]; cbn [String.length] in Hlen; [lia|].
      cbn [String.substring drop]. f_equal.
      rewrite (IH 0%nat m); [reflexivity|lia].
    + cbn [String.substring drop]. apply IH. cbn [String.length] in Hlen.
      lia.
Qed.

(** The name the helper builds, with the extension as [getFileExt] finds
    it. *)
Lemma helper_name (timestamp draw name : string) :
  generateUniqueFileName timestamp draw name
  = timestamp ++ "-" ++ String.substring 2 13 draw
    ++ match getFileExt name with
       | Some e => "." ++ e
       | None => ""
       end.
Proof.
  unfold generateUniqueFileName, getFileExt.
  destruct (split_last "." name) as [_ [Hno Hyes]].
  destruct (includes_char "." name) eqn:Hinc.
  - destruct (Hyes eq_refl) as [Hlen _].
    assert (Hlt : (1 <? Z.of_nat (List.length (split "." name))) = true)
      by (apply Z.ltb_lt; lia).
    cbv zeta. rewrite Hlt.
    destruct (truthy (last (split "." name) "")); [reflexivity|].
    now rewrite append_empty_r.
  - rewrite (Hno eq_refl). cbn [truthy String.eqb negb].
    now rewrite append_empty_r.
Qed.

(** X23.  [generateUniqueFileName] of the helpers against the name the
    upload route builds inline, for the same clock reading and the same
    random draw [Math.random().toString(36)].  The route keeps the draw
    from its third character on, the helper at most thirteen characters
    of that.  So the blob path of an upload is the user id, a slash and
    the helper's name when the draw has at most fifteen characters, and is
    a different path when it has more; and the helper's name is the bare
    [timestamp-random] exactly when [getFileExt] finds no extension. *)
Theorem helper_name_is_upload_name :
  forall env userId timestamp draw name,
    stamp env = timestamp ++ "-" ++ drop 2 draw ->
    ((String.length draw <= 15)%nat ->
     upload_path env userId name
     = userId ++ "/" ++ generateUniqueFileName timestamp draw name)
    /\ ((15 < String.length draw)%nat ->
        upload_path env userId name
        <> userId ++ "/" ++ generateUniqueFileName timestamp draw name)
    /\ (generateUniqueFileName timestamp draw name
        = timestamp ++ "-" ++ String.substring 2 13 draw
        <-> getFileExt name = None).
Proof.
  intros env userId timestamp draw name Hstamp.
  assert (Hpath : upload_path env userId name
                  = userId ++ "/" ++ timestamp ++ "-" ++ drop 2 draw
                    ++ match getFileExt name with
                       | Some e => "." ++ e
                       | None => ""
                       end).
  { unfold upload_path. rewrite Hstamp. f_equal. f_equal.
    rewrite append_assoc_r. f_equal. }
  split; [|split].
  - intros Hshort. rewrite Hpath, helper_name.
    rewrite (substring_to_end 2 13 draw); [reflexivity|lia].
  - intros Hlong Heq. rewrite Hpath, helper_name in Heq.
    apply (f_equal String.length) in Heq.
    rewrite !length_append in Heq. rewrite length_drop in Heq.
    pose proof (length_substring_le 2 13 draw). lia.
  - rewrite helper_name. destruct (getFileExt name) as [e|]; split;
      try discriminate; try reflexivity.
    + intros Heq. exfalso.
      apply (f_equal String.length) in Heq.
      rewrite !length_append in Heq. cbn [String.length] in Heq. lia.
    + intros _. now rewrite append_empty_r.
Qed.

(** ** The authentication gate *)

Lemma prefix_drop (p s : string) :
  String.prefix p s = true -> s = p ++ drop (String.length p) s.
Proof.
  revert s. induction p as [|a p IH]; intros s Hp; [reflexivity|].
  destruct s as [|b s]; cbn in Hp; [discriminate|].
  destruct (ascii_dec a b) as [->|]; [|discriminate].
  cbn. now rewrite <- (IH s Hp).
Qed.

(** X24.  The authentication gate.  Whenever the middleware answers
    itself, the answer is 401 and the route behind it is not run: the store
    is untouched.  Whenever it lets a request through as [userId], the
    header was "Bearer " followed by a token the verifier accepted with
    that non-empty user id, exactly one profile row has that id, and the
    email of that profile is what the permission resolver will read for
    the caller. *)
Theorem auth_gate :
  forall verify authorization handler w,
    (forall r,
        authMiddleware verify authorization w = AuthReply r ->
        status r = 401
        /\ authenticated verify authorization handler w = (r, w))
    /\ (forall userId user,
           authMiddleware verify authorization w = AuthNext userId user ->
           authenticated verify authorization handler w = handler userId w
           /\ (exists token payload,
                  authorization = Some ("Bearer " ++ token)
                  /\ verify token = Some payload
                  /\ jwt_userId payload = userId)
           /\ userId <> ""
           /\ filter (fun p => (p_id p =? userId)%string) (profiles w)
              = [user]
           /\ getCurrentUserEmail w userId = Some (p_email user)).
Proof.
  intros verify authorization handler w. unfold authenticated. split.
  - intros r Hr. rewrite Hr. split; [|reflexivity].
    unfold authMiddleware in Hr.
    destruct authorization as [h|]; [|now injection Hr as <-].
    destruct (String.prefix "Bearer " h); cbn [negb] in Hr;
      [|now injection Hr as <-].
    destruct (verify (drop 7 h)) as [d|]; [|now injection Hr as <-].
    destruct (truthy (jwt_userId d)); cbn [negb] in Hr;
      [|now injection Hr as <-].
    destruct (single _); [discriminate|now injection Hr as <-].
  - intros userId user Hn. rewrite Hn. split; [reflexivity|].
    unfold authMiddleware in Hn.
    destruct authorization as [h|]; [|discriminate].
    destruct (String.prefix "Bearer " h) eqn:Hp; cbn [negb] in Hn;
      [|discriminate].
    destruct (verify (drop 7 h)) as [d|] eqn:Hv; [|discriminate].
    destruct (truthy (jwt_userId d)) eqn:Ht; cbn [negb] in Hn;
      [|discriminate].
    destruct (single (filter _ (profiles w))) as [u|] eqn:Hs;
      [|discriminate].
    injection Hn as <- <-.
    split; [|split; [|split]].
    + exists (drop 7 h), d. split; [|split; [assumption|reflexivity]].
      f_equal. exact (prefix_drop "Bearer " h Hp).
    + now apply truthy_nonempty.
    + destruct (filter _ (profiles w)) as [|x [|y l]]; try discriminate.
      now injection Hs as ->.
    + unfold getCurrentUserEmail. now rewrite Hs.
Qed.

Lemma auth_gate_witness :
  status (mkResponse 401 (JError (Msg "Access token required") None)) = 401
  /\ authenticated (fun _ => None) (Some "Basic abc")
       (fun u => softDeleteRoute env0 u "f1") world0
     = (error_json 401 "Access token required", world0).
Proof.
  destruct (auth_gate (fun _ => None) (Some "Basic abc")
              (fun u => softDeleteRoute env0 u "f1") world0) as [Hreply _].
  apply (Hreply (error_json 401 "Access token required")). reflexivity.
Defined.

Example auth_gate_sample :
  authenticated
    (fun t => if (t =? "good")%string then Some (mkJwt "alice" "alice@x.io")
              else None)
    (Some "Bearer good") (fun u => softDeleteRoute env0 u "f2") world0
  = (error_json 409 "File already in trash", world0).
Proof. vm_compute. reflexivity. Qed.

Lemma helper_name_is_upload_name_witness :
  upload_path env0 "alice" "a.txt"
  = "alice/" ++ generateUniqueFileName "1000" "0.k3x" "a.txt"
  /\ upload_path
       (mkEnv 1000 "1000-0123456789abcdef" "id-9" "c0ffee" (fun _ => false))
       "alice" "a.txt"
     <> "alice/" ++ generateUniqueFileName "1000" "0.0123456789abcdef" "a.txt".
Proof.
  split.
  - destruct (helper_name_is_upload_name env0 "alice" "1000" "0.k3x" "a.txt"
                eq_refl) as [Hshort _].
    apply Hshort. vm_compute. lia.
  - destruct (helper_name_is_upload_name
                (mkEnv 1000 "1000-0123456789abcdef" "id-9" "c0ffee"
                       (fun _ => false))
                "alice" "1000" "0.0123456789abcdef" "a.txt" eq_refl)
      as [_ [Hlong _]].
    apply Hlong. vm_compute. lia.
Defined.

Example helper_name_samples :
  generateUniqueFileName "1000" "0.k3x" "Makefile" = "1000-k3x"
  /\ generateUniqueFileName "1000" "0.k3x" "a.tar.gz" = "1000-k3x.gz"
  /\ generateUniqueFileName "1000" "0.0123456789abcdef" "a.txt"
     = "1000-0123456789abc.txt".
Proof. repeat split; reflexivity. Qed.

(** ** Paging *)

Lemma firstn_add_skipn {A} (a b : nat) (l : list A) :
  firstn (a + b) l = (firstn a l ++ firstn b (skipn a l))%list.
Proof.
  revert l. induction a as [|a IH]; intros l; [reflexivity|].
  destruct l as [|x l]; cbn.
  - now rewrite firstn_nil.
  - now rewrite IH.
Qed.

Lemma page_rows_slice {A} (page limit : Z) (rows : list A) :
  1 <= page -> 1 <= limit ->
  page_rows page limit rows
  = firstn (Z.to_nat limit)
           (skipn (Z.to_nat (page - 1) * Z.to_nat limit) rows).
Proof.
  intros Hp Hl. unfold page_rows, range, page_to, page_from.
  replace ((page - 1) * limit + limit - 1 - (page - 1) * limit + 1)
    with limit by lia.
  replace (Z.to_nat ((page - 1) * limit))
    with (Z.to_nat (page - 1) * Z.to_nat limit)%nat by nia.
  reflexivity.
Qed.

(** X25.  Paging of the list routes.  A page number that parses is at
    least 1 and a page size that parses is between 1 and 100 (1 and 20
    when the parameters are absent).  With such values the next page
    starts right after the last position of this one; a page that starts
    inside the rows holds at least one and at most [limit] of them; and the
    pages 1 to k, the last of which starts inside the rows, laid end to
    end are the first k * limit rows of the result, none skipped and none
    repeated. *)
Theorem pages_tile_the_rows :
  (forall q p, page_param q = Some p -> 1 <= p)
  /\ (forall q n, limit_param q = Some n -> 1 <= n <= 100)
  /\ page_param None = Some 1
  /\ limit_param None = Some 20
  /\ (forall page limit,
         1 <= page -> 1 <= limit ->
         0 <= page_from page limit
         /\ page_to page limit - page_from page limit + 1 = limit
         /\ page_from (page + 1) limit = page_to page limit + 1)
  /\ (forall (A : Type) (rows : list A) page limit,
         1 <= page -> 1 <= limit ->
         page_from page limit < Z.of_nat (List.length rows) ->
         (1 <= List.length (page_rows page limit rows) <= Z.to_nat limit)%nat)
  /\ (forall (A : Type) (rows : list A) limit k,
         1 <= limit ->
         Z.of_nat k * limit < Z.of_nat (List.length rows) + limit ->
         flat_map (fun i => page_rows (Z.of_nat (S i)) limit rows) (seq 0 k)
         = firstn (k * Z.to_nat limit) rows).
Proof.
  split; [|split; [|split; [|split; [|split; [|split]]]]].
  - intros q p. unfold page_param.
    destruct (parseInt10 _); [|discriminate]. intros [= <-]. lia.
  - intros q n. unfold limit_param.
    destruct (parseInt10 _); [|discriminate]. intros [= <-]. lia.
  - reflexivity.
  - reflexivity.
  - intros page limit Hp Hl. unfold page_to, page_from. nia.
  - intros A rows page limit Hp Hl Hin.
    rewrite (page_rows_slice page limit rows Hp Hl).
    split; [|apply firstn_le_length].
    rewrite length_firstn, length_skipn. unfold page_from in Hin. nia.
  - intros A rows limit k Hl _. induction k as [|k IH]; [reflexivity|].
    rewrite seq_S, flat_map_app, IH. cbn [flat_map Nat.add].
    rewrite app_nil_r.
    rewrite (page_rows_slice (Z.of_nat (S k)) limit rows) by lia.
    replace (Z.to_nat (Z.of_nat (S k) - 1)) with k by lia.
    replace (S k * Z.to_nat limit)%nat
      with (k * Z.to_nat limit + Z.to_nat limit)%nat by lia.
    now rewrite firstn_add_skipn.
Qed.

Lemma pages_tile_the_rows_witness :
  1 <= 1
  /\ 1 <= 100 <= 100
  /\ flat_map (fun i => page_rows (Z.of_nat (S i)) 3 [1; 2; 3; 4; 5; 6; 7])
              (seq 0 3)
     = firstn (3 * Z.to_nat 3) [1; 2; 3; 4; 5; 6; 7].
Proof.
  destruct pages_tile_the_rows as [Hpage [Hlimit [_ [_ [_ [_ Htile]]]]]].
  split; [|split].
  - apply (Hpage (Some "-3") 1). reflexivity.
  - apply (Hlimit (Some " 2500rows") 100). reflexivity.
  - apply (Htile Z [1; 2; 3; 4; 5; 6; 7] 3 3%nat); simpl; lia.
Defined.

Example paging_samples :
  page_param (Some "0") = Some 1
  /\ page_param (Some "abc") = None
  /\ limit_param (Some "7.9") = Some 7
  /\ page_rows 2 3 [1; 2; 3; 4; 5; 6; 7] = [4; 5; 6]
  /\ page_rows 3 3 [1; 2; 3; 4; 5; 6; 7] = [7].
Proof. vm_compute. repeat split; reflexivity. Qed.

(** ** The quota report and the billing routes *)

Lemma quota_rows_of_table (table : list QuotaRecord) (u : string) :
  filter (fun q => (q_user_id q =? u)%string) (map qr_row table)
  = map qr_row (rows_of_user table u).
Proof.
  unfold rows_of_user. induction table as [|q t IH]; [reflexivity|].
  cbn [map filter]. destruct (q_user_id (qr_row q) =? u)%string.
  - cbn [map]. now rewrite IH.
  - exact IH.
Qed.

Lemma quota_of_table (table : list QuotaRecord) (w : World) (u : string) :
  quota_of (with_quota_table table w) u
  = fst (maybeSingle (map qr_row (rows_of_user table u))).
Proof.
  unfold quota_of, with_quota_table. cbn [user_quotas].
  now rewrite quota_rows_of_table.
Qed.

Lemma upload_check_allows (w : World) (u : string) (size : Z) :
  enforceQuotaOnUpload w u size = QuotaAllowed
  <-> storageUsed_of w u + size <= storageLimit_of w u
      /\ fileCount_of w u + 1 <= fileCountLimit_of w u.
Proof.
  unfold enforceQuotaOnUpload.
  destruct (Z.ltb_spec (storageLimit_of w u) (storageUsed_of w u + size)).
  - split; [discriminate|lia].
  - destruct (Z.ltb_spec (fileCountLimit_of w u) (fileCount_of w u + 1)).
    + split; [discriminate|lia].
    + split; [lia|reflexivity].
Qed.

Lemma upload_check_of_report (table : list QuotaRecord) (u : string)
      (w : World) (rep : QuotaReport) :
  quotaRoute table u = inr rep ->
  forall size,
    enforceQuotaOnUpload (with_quota_table table w) u size = QuotaAllowed
    <-> rp_storage_used rep + size <= rp_storage_limit rep
        /\ rp_file_count rep + 1 <= rp_file_count_limit rep.
Proof.
  unfold quotaRoute. intros Hrep size.
  rewrite upload_check_allows.
  unfold storageUsed_of, storageLimit_of, fileCount_of, fileCountLimit_of.
  rewrite quota_of_table.
  destruct (rows_of_user table u) as [|q [|q' l]];
    cbn [maybeSingle] in Hrep; [| |discriminate];
    injection Hrep as <-; cbn [map maybeSingle fst];
    cbn [rp_storage_used rp_storage_limit rp_file_count rp_file_count_limit];
    unfold DEFAULT_STORAGE_LIMIT, DEFAULT_FILE_COUNT_LIMIT; reflexivity.
Qed.

(** X26. The usage GET /quota reports is the usage the upload check
    enforces.  For a user with at most one quota row the route answers
    with a report, and an upload of [size] bytes passes the check exactly
    when the reported bytes used plus [size] stay within the reported
    storage limit and the reported file count plus one stays within the
    reported file limit.  Should the user have several rows, the route
    answers 500 while the upload check falls back on the defaults and
    admits any upload of at most 5 GiB. *)
Theorem quota_report_matches_upload_check
        (table : list QuotaRecord) (userId : string) (w : World) :
  ((List.length (rows_of_user table userId) <= 1)%nat ->
   exists rep,
     quotaRoute table userId = inr rep
     /\ forall size,
         enforceQuotaOnUpload (with_quota_table table w) userId size
         = QuotaAllowed
         <-> rp_storage_used rep + size <= rp_storage_limit rep
             /\ rp_file_count rep + 1 <= rp_file_count_limit rep)
  /\ ((1 < List.length (rows_of_user table userId))%nat ->
      quotaRoute table userId = inl (error_json 500 "Internal server error")
      /\ forall size,
          enforceQuotaOnUpload (with_quota_table table w) userId size
          = QuotaAllowed
          <-> size <= 5 * 1024 * 1024 * 1024).
Proof.
  split; intros Hlen.
  - unfold quotaRoute.
    destruct (rows_of_user table userId) as [|q [|q' l]] eqn:Hrows;
      [| |cbn [List.length] in Hlen; lia]; cbn [maybeSingle];
      eexists; (split; [reflexivity|]); intros size;
      rewrite upload_check_allows;
      unfold storageUsed_of, storageLimit_of, fileCount_of, fileCountLimit_of;
      rewrite quota_of_table, Hrows; cbn [map maybeSingle fst];
      cbn [rp_storage_used rp_storage_limit rp_file_count
           rp_file_count_limit];
      unfold DEFAULT_STORAGE_LIMIT, DEFAULT_FILE_COUNT_LIMIT; reflexivity.
  - unfold quotaRoute.
    destruct (rows_of_user table userId) as [|q [|q' l]] eqn:Hrows;
      [cbn [List.length] in Hlen; lia|cbn [List.length] in Hlen; lia|].
    cbn [maybeSingle]. split; [reflexivity|]. intros size.
    rewrite upload_check_allows.
    unfold storageUsed_of, storageLimit_of, fileCount_of, fileCountLimit_of.
    rewrite quota_of_table, Hrows. cbn [map maybeSingle fst quota_field].
    unfold DEFAULT_STORAGE_LIMIT, DEFAULT_FILE_COUNT_LIMIT. lia.
Qed.

Lemma quota_report_matches_upload_check_witness :
  (exists rep,
      quotaRoute quotas0 "alice" = inr rep
      /\ forall size,
          enforceQuotaOnUpload (with_quota_table quotas0 world0) "alice" size
          = QuotaAllowed
          <-> rp_storage_used rep + size <= rp_storage_limit rep
              /\ rp_file_count rep + 1 <= rp_file_count_limit rep)
  /\ quotaRoute (quotas0 ++ quotas0) "alice"
     = inl (error_json 500 "Internal server error").
Proof.
  split.
  - destruct (quota_report_matches_upload_check quotas0 "alice" world0)
      as [H _].
    apply H. vm_compute. lia.
  - destruct (quota_report_matches_upload_check
                (quotas0 ++ quotas0) "alice" world0) as [_ H].
    apply H. vm_compute. lia.
Defined.

Example quota_report_samples :
  quotaRoute quotas0 "alice"
  = inr (mkReport "free" 4000 5368709120 2 10000)
  /\ quotaRoute quotas0 "bob"
     = inr (mkReport "free" 0 5368709120 0 10000).
Proof. split; reflexivity. Qed.

Lemma configured_price_valid (v : option string) (price : string) :
  configured_price v = Some price ->
  v = Some price /\ isValidPriceId (Some price) = true.
Proof.
  unfold configured_price. destruct v as [x|]; [|discriminate].
  destruct (truthy x); [|discriminate]. cbn [andb].
  destruct (isValidPriceId (Some x)) eqn:Hv; [|discriminate].
  intros H. injection H as <-. now split.
Qed.

Lemma valid_price_is_some (v : option string) :
  isValidPriceId v = true -> exists price, v = Some price.
Proof. destruct v as [x|]; [now exists x|discriminate]. Qed.

(** X27. Checkout only ever sells a configured paid plan.  When POST
    /checkout answers with a session url, Stripe is configured, the plan
    chosen is pro or business, the price charged is the one the
    environment sets for that plan, it has the form [price_] followed by
    letters and digits, and the session carries the caller's id and the
    plan's id in its metadata.  Without a Stripe key the answer is 503,
    and asking for the free plan is refused with 400, whatever Stripe
    would have said. *)
Theorem checkout_sells_configured_plans
        (be : BillingEnv)
        (createSession : SessionRequest -> option string + string)
        (userId : string) (priceId planId : option string) (w : World) :
  (forall url,
      checkoutRoute be createSession userId priceId planId w
      = CheckoutUrl url ->
      truthy (STRIPE_SECRET_KEY be) = true
      /\ exists plan price email,
          In plan (PLANS be)
          /\ plan_priceId plan = Some price
          /\ isValidPriceId (Some price) = true
          /\ (plan_id plan = "pro" /\ STRIPE_PRICE_ID_PRO be = Some price
              \/ plan_id plan = "business"
                 /\ STRIPE_PRICE_ID_BUSINESS be = Some price)
          /\ createSession
               (mkSession (Some price) email userId (plan_id plan))
             = inl url)
  /\ (truthy (STRIPE_SECRET_KEY be) = false ->
      checkoutRoute be createSession userId priceId planId w
      = CheckoutError 503 "Billing not configured")
  /\ (truthy (STRIPE_SECRET_KEY be) = true ->
      (priceId = None \/ priceId = Some "") -> planId = Some "free" ->
      checkoutRoute be createSession userId priceId planId w
      = CheckoutError 400 "Plan is not configured. Please try again later.").
Proof.
  split; [|split].
  - intros url. unfold checkoutRoute.
    destruct (truthy (STRIPE_SECRET_KEY be)); [|discriminate].
    cbn [negb].
    destruct (find (plan_selected priceId planId) (PLANS be)) as [plan|]
      eqn:Hfind; [|discriminate].
    destruct (isValidPriceId (plan_priceId plan)) eqn:Hvalid;
      [|discriminate].
    cbn [negb]. intros Hrun. split; [reflexivity|].
    apply find_some in Hfind. destruct Hfind as [Hin _].
    destruct (valid_price_is_some _ Hvalid) as [price Hprice].
    exists plan, price.
    match type of Hrun with
    | match createSession (mkSession _ ?e _ _) with _ => _ end = _ =>
        exists e
    end.
    split; [exact Hin|]. split; [exact Hprice|].
    split; [now rewrite <- Hprice|].
    split.
    + unfold PLANS in Hin. cbn [In] in Hin.
      destruct Hin as [<-|[<-|[<-|[]]]]; cbn [plan_priceId plan_id] in *.
      * discriminate.
      * left. split; [reflexivity|].
        now apply configured_price_valid in Hprice.
      * right. split; [reflexivity|].
        now apply configured_price_valid in Hprice.
    + rewrite Hprice in Hrun.
      destruct (createSession _) as [u|m]; [|discriminate].
      now injection Hrun as <-.
  - intros Hkey. unfold checkoutRoute. now rewrite Hkey.
  - intros Hkey Hprice Hplan. unfold checkoutRoute. rewrite Hkey.
    cbn [negb]. subst planId.
    destruct Hprice as [->| ->]; reflexivity.
Qed.

Lemma checkout_sells_configured_plans_witness :
  checkoutRoute billing0 (fun _ => inl (Some "https://pay"))
                "alice" None (Some "free") world0
  = CheckoutError 400 "Plan is not configured. Please try again later."
  /\ exists plan price email,
      In plan (PLANS billing0)
      /\ plan_priceId plan = Some price
      /\ isValidPriceId (Some price) = true
      /\ (plan_id plan = "pro" /\ STRIPE_PRICE_ID_PRO billing0 = Some price
          \/ plan_id plan = "business"
             /\ STRIPE_PRICE_ID_BUSINESS billing0 = Some price)
      /\ (fun _ : SessionRequest => @inl (option string) string
                                        (Some "https://pay"))
           (mkSession (Some price) email "alice" (plan_id plan))
         = inl (Some "https://pay").
Proof.
  split.
  - destruct (checkout_sells_configured_plans
                billing0 (fun _ => inl (Some "https://pay"))
                "alice" None (Some "free") world0) as [_ [_ H]].
    apply H; [reflexivity|now left|reflexivity].
  - destruct (checkout_sells_configured_plans
                billing0 (fun _ => inl (Some "https://pay"))
                "alice" None (Some "pro") world0) as [H _].
    destruct (H (Some "https://pay")) as [_ Hplan]; [reflexivity|].
    exact Hplan.
Defined.

Example checkout_samples :
  isValidPriceId (Some "price_1Abc") = true
  /\ isValidPriceId (Some "price_123...") = false
  /\ isValidPriceId (Some "price_") = false
  /\ isValidPriceId (Some "xprice_1") = false
  /\ checkoutRoute billing0 (fun r => inl (sr_price r))
                   "alice" None (Some "pro") world0
     = CheckoutUrl (Some "price_1Abc")
  /\ checkoutRoute billing0 (fun r => inl (sr_price r))
                   "alice" None (Some "business") world0
     = CheckoutError 400 "Plan is not configured. Please try again later."
  /\ checkoutRoute billing0 (fun r => inr "")
                   "alice" (Some "price_1Abc") None world0
     = CheckoutError 500 "Internal server error".
Proof. repeat split; reflexivity. Qed.

(** The row an upsert leaves for its user. *)
Lemma upsert_rows_same (table : list QuotaRecord) (u : string) (plan : Plan) :
  rows_of_user (upsert_plan table u plan) u
  = match rows_of_user table u with
    | [] => [mkQuotaRecord (Some (plan_id plan))
               (mkQuota u None (Some (storageLimitBytes plan))
                        None (Some (fileCountLimit plan)))]
    | rows =>
        map (fun q => mkQuotaRecord (Some (plan_id plan))
                        (mkQuota u (q_storage_used (qr_row q))
                                 (Some (storageLimitBytes plan))
                                 (q_file_count (qr_row q))
                                 (Some (fileCountLimit plan)))) rows
    end.
Proof.
  unfold upsert_plan, rows_of_user.
  destruct (existsb _ table) eqn:Hex.
  - assert (Hmap : forall t,
      filter (fun q => (q_user_id (qr_row q) =? u)%string)
        (map (fun q =>
                if (q_user_id (qr_row q) =? u)%string
                then mkQuotaRecord (Some (plan_id plan))
                       (mkQuota u (q_storage_used (qr_row q))
                                (Some (storageLimitBytes plan))
                                (q_file_count (qr_row q))
                                (Some (fileCountLimit plan)))
                else q) t)
      = map (fun q => mkQuotaRecord (Some (plan_id plan))
                        (mkQuota u (q_storage_used (qr_row q))
                                 (Some (storageLimitBytes plan))
                                 (q_file_count (qr_row q))
                                 (Some (fileCountLimit plan))))
            (filter (fun q => (q_user_id (qr_row q) =? u)%string) t)).
    { induction t as [|q t IH]; [reflexivity|]. cbn [map filter].
      destruct (q_user_id (qr_row q) =? u)%string eqn:Hq.
      - cbn [qr_row q_user_id]. rewrite String.eqb_refl. cbn [map].
        now rewrite IH.
      - rewrite Hq. exact IH. }
    rewrite Hmap.
    destruct (filter _ table) as [|q l] eqn:Hf; [|reflexivity].
    apply existsb_exists in Hex. destruct Hex as [q [Hin Hq]].
    assert (Hin' : In q (filter
                           (fun q => (q_user_id (qr_row q) =? u)%string)
                           table))
      by (apply filter_In; now split).
    rewrite Hf in Hin'. destruct Hin'.
  - rewrite filter_app. cbn [filter qr_row q_user_id].
    rewrite String.eqb_refl.
    assert (Hnone : filter (fun q => (q_user_id (qr_row q) =? u)%string)
                           table = []).
    { clear - Hex. induction table as [|q t IH]; [reflexivity|].
      cbn [existsb] in Hex. apply orb_false_iff in Hex.
      destruct Hex as [Hq Ht]. cbn [filter]. rewrite Hq. now apply IH. }
    now rewrite Hnone.
Qed.

(** An upsert leaves the rows of every other user. *)
Lemma upsert_rows_other (table : list QuotaRecord) (u v : string)
      (plan : Plan) :
  v <> u -> rows_of_user (upsert_plan table u plan) v = rows_of_user table v.
Proof.
  intros Hne. unfold upsert_plan, rows_of_user.
  destruct (existsb _ table).
  - induction table as [|q t IH]; [reflexivity|]. cbn [map filter].
    destruct (q_user_id (qr_row q) =? u)%string eqn:Hq.
    + apply String.eqb_eq in Hq. cbn [qr_row q_user_id].
      assert (Hu : (u =? v)%string = false)
        by (apply String.eqb_neq; congruence).
      rewrite Hu, Hq, Hu. exact IH.
    + destruct (q_user_id (qr_row q) =? v)%string; [now rewrite IH|exact IH].
  - rewrite filter_app. cbn [filter qr_row q_user_id].
    assert (Hu : (u =? v)%string = false)
      by (apply String.eqb_neq; congruence).
    rewrite Hu. apply app_nil_r.
Qed.

Lemma plan_by_id_named (be : BillingEnv) (i : string) (plan : Plan) :
  plan_by_id be i = Some plan -> plan_id plan = i /\ In plan (PLANS be).
Proof.
  intros H. apply find_some in H. destruct H as [Hin Heq].
  apply String.eqb_eq in Heq. now split.
Qed.

(** The report after a plan has been written for a user with at most one
    row. *)
Lemma report_after_upsert (table : list QuotaRecord) (u : string)
      (plan : Plan) :
  (List.length (rows_of_user table u) <= 1)%nat ->
  exists rep rep',
    quotaRoute table u = inr rep
    /\ quotaRoute (upsert_plan table u plan) u = inr rep'
    /\ rp_plan rep' = plan_id plan
    /\ rp_storage_limit rep' = storageLimitBytes plan
    /\ rp_file_count_limit rep' = fileCountLimit plan
    /\ rp_storage_used rep' = rp_storage_used rep
    /\ rp_file_count rep' = rp_file_count rep
    /\ List.length (rows_of_user (upsert_plan table u plan) u) = 1%nat.
Proof.
  intros Hlen. unfold quotaRoute. rewrite upsert_rows_same.
  destruct (rows_of_user table u) as [|q [|q' l]];
    [| |cbn [List.length] in Hlen; lia];
    cbn [map maybeSingle]; do 2 eexists;
    (split; [reflexivity|]); (split; [reflexivity|]);
    repeat split.
Qed.

(** What a verified subscription event leaves behind. *)
Lemma subscription_event_sets_plan
      (be : BillingEnv) (verified : option StripeEvent) (body : string)
      (ev : StripeEvent) (table : list QuotaRecord)
      (u i : string) (plan : Plan) :
  truthy (STRIPE_SECRET_KEY be) = true ->
  truthy (STRIPE_WEBHOOK_SECRET be) = true ->
  verified = Some ev ->
  (ev = CheckoutSessionCompleted (Some u) (Some i)
   \/ ev = SubscriptionCreated (Some u) (Some i)
   \/ ev = SubscriptionUpdated (Some u) (Some i)) ->
  truthy u = true -> truthy i = true ->
  plan_by_id be i = Some plan ->
  (List.length (rows_of_user table u) <= 1)%nat ->
  exists table' rep rep',
    stripeWebhookRawHandler be verified body false table = (200, table')
    /\ quotaRoute table u = inr rep
    /\ quotaRoute table' u = inr rep'
    /\ rp_plan rep' = i
    /\ rp_storage_limit rep' = storageLimitBytes plan
    /\ rp_file_count_limit rep' = fileCountLimit plan
    /\ rp_storage_used rep' = rp_storage_used rep
    /\ rp_file_count rep' = rp_file_count rep
    /\ List.length (rows_of_user table' u) = 1%nat
    /\ forall w size,
        enforceQuotaOnUpload (with_quota_table table' w) u size
        = QuotaAllowed
        <-> rp_storage_used rep + size <= storageLimitBytes plan
            /\ rp_file_count rep + 1 <= fileCountLimit plan.
Proof.
  intros Hkey Hsecret Hver Hev Hu Hi Hplan Hlen.
  destruct (plan_by_id_named _ _ _ Hplan) as [Hid _].
  destruct (report_after_upsert table u plan Hlen)
    as [rep [rep' [Hrep [Hrep' [Hp [Hsl [Hfl [Hsu [Hfc Hone]]]]]]]]].
  assert (Hrun : stripeWebhookRawHandler be verified body false table
                 = (200, upsert_plan table u plan)).
  { unfold stripeWebhookRawHandler. rewrite Hkey, Hsecret, Hver.
    cbn [negb].
    destruct Hev as [->|[->| ->]];
      unfold on_subscription; rewrite Hu, Hi, Hplan; reflexivity. }
  exists (upsert_plan table u plan), rep, rep'.
  split; [exact Hrun|]. split; [exact Hrep|]. split; [exact Hrep'|].
  split; [congruence|]. split; [exact Hsl|]. split; [exact Hfl|].
  split; [exact Hsu|]. split; [exact Hfc|]. split; [exact Hone|].
  intros w size.
  rewrite (upload_check_of_report _ _ w _ Hrep' size).
  rewrite Hsu, Hfc, Hsl, Hfl. reflexivity.
Qed.

(** X28.  A paid subscription reaches the upload check, through a
    verified event only.  With the Stripe key and the webhook secret set,
    a checkout-completed, subscription-created or subscription-updated
    event that passes the signature check and names a user and a plan of
    [PLANS] is answered 200, and afterwards GET /quota reports that plan
    and its two limits for the user while the bytes used and the file
    count are the ones reported before; the user is left with exactly one
    quota row, and an upload then passes the check exactly when it fits
    the plan's limits.  Without a webhook secret the handler reads the raw
    body, which has no event type: every request is answered 200 and the
    quota table stays as it was. *)
Theorem webhook_sets_plan_limits
        (be : BillingEnv) (verified : option StripeEvent) (body : string)
        (table : list QuotaRecord) :
  (forall ev u i plan,
      truthy (STRIPE_SECRET_KEY be) = true ->
      truthy (STRIPE_WEBHOOK_SECRET be) = true ->
      verified = Some ev ->
      (ev = CheckoutSessionCompleted (Some u) (Some i)
       \/ ev = SubscriptionCreated (Some u) (Some i)
       \/ ev = SubscriptionUpdated (Some u) (Some i)) ->
      truthy u = true -> truthy i = true ->
      plan_by_id be i = Some plan ->
      (List.length (rows_of_user table u) <= 1)%nat ->
      exists table' rep rep',
        stripeWebhookRawHandler be verified body false table = (200, table')
        /\ quotaRoute table u = inr rep
        /\ quotaRoute table' u = inr rep'
        /\ rp_plan rep' = i
        /\ rp_storage_limit rep' = storageLimitBytes plan
        /\ rp_file_count_limit rep' = fileCountLimit plan
        /\ rp_storage_used rep' = rp_storage_used rep
        /\ rp_file_count rep' = rp_file_count rep
        /\ List.length (rows_of_user table' u) = 1%nat
        /\ forall w size,
            enforceQuotaOnUpload (with_quota_table table' w) u size
            = QuotaAllowed
            <-> rp_storage_used rep + size <= storageLimitBytes plan
                /\ rp_file_count rep + 1 <= fileCountLimit plan)
  /\ (truthy (STRIPE_WEBHOOK_SECRET be) = false ->
      forall upsert_fails,
        stripeWebhookRawHandler be verified body upsert_fails table
        = (200, table)).
Proof.
  split.
  - intros ev u i plan. apply subscription_event_sets_plan.
  - intros Hsecret upsert_fails. unfold stripeWebhookRawHandler.
    rewrite Hsecret.
    destruct (negb (truthy (STRIPE_SECRET_KEY be))); reflexivity.
Qed.

Lemma webhook_sets_plan_limits_witness :
  (exists table' rep rep',
      stripeWebhookRawHandler
        billing0 (Some (CheckoutSessionCompleted (Some "alice") (Some "pro")))
        "{}" false quotas0 = (200, table')
      /\ quotaRoute quotas0 "alice" = inr rep
      /\ quotaRoute table' "alice" = inr rep'
      /\ rp_plan rep' = "pro"
      /\ rp_storage_limit rep' = 200 * 1024 * 1024 * 1024
      /\ rp_storage_used rep' = rp_storage_used rep)
  /\ stripeWebhookRawHandler
       billing_dev (Some (CheckoutSessionCompleted (Some "alice") (Some "pro")))
       "{}" false quotas0
     = (200, quotas0).
Proof.
  split.
  - destruct (webhook_sets_plan_limits
                billing0
                (Some (CheckoutSessionCompleted (Some "alice") (Some "pro")))
                "{}" quotas0) as [Hset _].
    destruct (Hset (CheckoutSessionCompleted (Some "alice") (Some "pro"))
                   "alice" "pro"
                   (mkPlan "pro" (Some "price_1Abc")
                           (200 * 1024 * 1024 * 1024) 100000))
      as [table' [rep [rep' [Hrun [Hrep [Hrep' [Hp [Hsl [_ [Hsu _]]]]]]]]]].
    + reflexivity.
    + reflexivity.
    + reflexivity.
    + now left.
    + reflexivity.
    + reflexivity.
    + reflexivity.
    + vm_compute. lia.
    + exists table', rep, rep'. repeat split; assumption.
  - destruct (webhook_sets_plan_limits
                billing_dev
                (Some (CheckoutSessionCompleted (Some "alice") (Some "pro")))
                "{}" quotas0) as [_ Hdev].
    apply Hdev. reflexivity.
Defined.

(** The three ways the webhook ends. *)
Lemma webhook_cases (be : BillingEnv) (verified : option StripeEvent)
      (body : string) (upsert_fails : bool) (table : list QuotaRecord) :
  (stripeWebhookRawHandler be verified body upsert_fails table = (400, table)
   /\ truthy (STRIPE_WEBHOOK_SECRET be) = true /\ verified = None)
  \/ stripeWebhookRawHandler be verified body upsert_fails table
     = (200, table)
  \/ exists ev u plan,
      accepted_event be verified body = Some ev
      /\ event_user ev = Some u /\ truthy u = true
      /\ upsert_fails = false
      /\ stripeWebhookRawHandler be verified body upsert_fails table
         = (200, upsert_plan table u plan)
      /\ (ev = SubscriptionDeleted (Some u)
          \/ exists i,
              plan_by_id be i = Some plan
              /\ (ev = CheckoutSessionCompleted (Some u) (Some i)
                  \/ ev = SubscriptionCreated (Some u) (Some i)
                  \/ ev = SubscriptionUpdated (Some u) (Some i))).
Proof.
  unfold stripeWebhookRawHandler, accepted_event.
  destruct (truthy (STRIPE_SECRET_KEY be)); cbn [negb]; [|now right; left].
  assert (Hsub : forall ev u i,
    (ev = CheckoutSessionCompleted u i \/ ev = SubscriptionCreated u i
     \/ ev = SubscriptionUpdated u i) ->
    on_subscription be upsert_fails u i table = table
    \/ exists u' plan,
        event_user ev = Some u' /\ truthy u' = true
        /\ upsert_fails = false
        /\ on_subscription be upsert_fails u i table
           = upsert_plan table u' plan
        /\ exists i',
            plan_by_id be i' = Some plan
            /\ (ev = CheckoutSessionCompleted (Some u') (Some i')
                \/ ev = SubscriptionCreated (Some u') (Some i')
                \/ ev = SubscriptionUpdated (Some u') (Some i'))).
  { intros ev u i Hev. unfold on_subscription.
    destruct u as [u|]; [|now left]. destruct i as [i|]; [|now left].
    destruct (truthy u) eqn:Hu; [|now left].
    destruct (truthy i); [|now left]. cbn [andb].
    destruct (plan_by_id be i) as [plan|] eqn:Hplan; [|now left].
    unfold apply_plan. destruct upsert_fails; [now left|].
    right. exists u, plan.
    split; [now destruct Hev as [->|[->| ->]]|].
    split; [exact Hu|]. split; [reflexivity|]. split; [reflexivity|].
    exists i. split; [exact Hplan|exact Hev]. }
  destruct (if truthy (STRIPE_WEBHOOK_SECRET be) then verified
            else Some (unverified_event body))
    as [ev|] eqn:Hacc.
  - destruct ev as [u i|u i|u i|u|].
    + destruct (Hsub (CheckoutSessionCompleted u i) u i) as [->|H];
        [now left|now right; left|].
      destruct H as [u' [plan [Hu [Ht [Hf [-> Hi]]]]]].
      right; right. exists (CheckoutSessionCompleted u i), u', plan.
      repeat split; try assumption. now right.
    + destruct (Hsub (SubscriptionUpdated u i) u i) as [->|H];
        [now right; right|now right; left|].
      destruct H as [u' [plan [Hu [Ht [Hf [-> Hi]]]]]].
      right; right. exists (SubscriptionUpdated u i), u', plan.
      repeat split; try assumption. now right.
    + destruct (Hsub (SubscriptionCreated u i) u i) as [->|H];
        [now right; left|now right; left|].
      destruct H as [u' [plan [Hu [Ht [Hf [-> Hi]]]]]].
      right; right. exists (SubscriptionCreated u i), u', plan.
      repeat split; try assumption. now right.
    + destruct u as [u|]; [|now right; left].
      destruct (truthy u) eqn:Hu; [|now right; left].
      unfold apply_plan. destruct upsert_fails; [now right; left|].
      right; right. exists (SubscriptionDeleted (Some u)), u, (free_plan be).
      repeat split; try assumption. now left.
    + now right; left.
  - left. destruct (truthy (STRIPE_WEBHOOK_SECRET be)); [|discriminate].
    now repeat split.
Qed.

Lemma report_rows (table : list QuotaRecord) (v : string)
      (rep : QuotaReport) :
  quotaRoute table v = inr rep ->
  (List.length (rows_of_user table v) <= 1)%nat.
Proof.
  unfold quotaRoute.
  destruct (rows_of_user table v) as [|q [|q' l]]; cbn [maybeSingle List.length];
    [lia|lia|discriminate].
Qed.

Lemma report_of_rows (t t' : list QuotaRecord) (v : string) :
  rows_of_user t' v = rows_of_user t v -> quotaRoute t' v = quotaRoute t v.
Proof. unfold quotaRoute. now intros ->. Qed.

(** X29. What the webhook never does.  It answers 200 or 400, and 400
    only when a webhook secret is set and the signature check failed.
    The quota table is as before when the event is refused, when Stripe is
    not configured, when the event is of another type, when it names no
    user, when the plan it names is not one of [PLANS], and when the
    upsert fails.  In every case the rows of users the event does not
    name are as before, and no user with at most one row sees the
    reported bytes used or file count change. *)
Theorem webhook_leaves_usage_and_others
        (be : BillingEnv) (verified : option StripeEvent)
        (body : string) (upsert_fails : bool)
        (table : list QuotaRecord) :
  let r := stripeWebhookRawHandler be verified body upsert_fails table in
  (fst r = 200 \/ fst r = 400)
  /\ (fst r = 400 ->
      truthy (STRIPE_WEBHOOK_SECRET be) = true /\ verified = None
      /\ snd r = table)
  /\ (upsert_fails = true -> snd r = table)
  /\ (forall ev, accepted_event be verified body = Some ev ->
                 event_user ev = None \/ event_user ev = Some "" ->
                 snd r = table)
  /\ (accepted_event be verified body = None
      \/ accepted_event be verified body = Some OtherEvent ->
      snd r = table)
  /\ (forall ev u i,
        accepted_event be verified body = Some ev ->
        (ev = CheckoutSessionCompleted u (Some i)
         \/ ev = SubscriptionCreated u (Some i)
         \/ ev = SubscriptionUpdated u (Some i)) ->
        plan_by_id be i = None -> snd r = table)
  /\ (forall v,
        (forall ev, accepted_event be verified body = Some ev ->
                    event_user ev <> Some v) ->
        rows_of_user (snd r) v = rows_of_user table v)
  /\ (forall v rep,
        quotaRoute table v = inr rep ->
        exists rep',
          quotaRoute (snd r) v = inr rep'
          /\ rp_storage_used rep' = rp_storage_used rep
          /\ rp_file_count rep' = rp_file_count rep).
Proof.
  intros r. subst r.
  destruct (webhook_cases be verified body upsert_fails table)
    as [[Hr [Hs Hv]]|[Hr|[ev [u [plan [Hacc [Hu [Ht [Hf [Hr Hev]]]]]]]]]];
    rewrite Hr; cbn [fst snd].
  - split; [now right|]. split; [now split|].
    split; [reflexivity|]. split; [reflexivity|]. split; [reflexivity|].
    split; [reflexivity|]. split; [reflexivity|].
    intros v rep Hrep. now exists rep.
  - split; [now left|]. split; [discriminate|].
    split; [reflexivity|]. split; [reflexivity|]. split; [reflexivity|].
    split; [reflexivity|]. split; [reflexivity|].
    intros v rep Hrep. now exists rep.
  - split; [now left|]. split; [discriminate|].
    split; [intros Hfail; congruence|].
    split.
    { intros ev' Hacc' Hnone. rewrite Hacc in Hacc'. injection Hacc' as <-.
      rewrite Hu in Hnone. destruct Hnone as [Hn|Hn]; [discriminate|].
      injection Hn as ->. discriminate. }
    split.
    { intros [Hn|Hn]; rewrite Hacc in Hn; [discriminate|].
      injection Hn as ->. discriminate. }
    split.
    { intros ev' u' i Hacc' Hev' Hnone. rewrite Hacc in Hacc'.
      injection Hacc' as <-.
      destruct Hev as [->|[i' [Hplan Hev]]].
      - destruct Hev' as [H|[H|H]]; discriminate.
      - assert (i' = i)
          by (destruct Hev as [->|[->| ->]];
              destruct Hev' as [H|[H|H]]; congruence).
        congruence. }
    split.
    { intros v Hv. apply upsert_rows_other.
      intros ->. now apply (Hv ev Hacc). }
    intros v rep Hrep.
    destruct (String.eqb_spec v u) as [->|Hne].
    + destruct (report_after_upsert table u plan (report_rows _ _ _ Hrep))
        as [rep0 [rep' [Hrep0 [Hrep' [_ [_ [_ [Hsu [Hfc _]]]]]]]]].
      exists rep'. rewrite Hrep in Hrep0. injection Hrep0 as <-.
      now repeat split.
    + exists rep. split; [|now split].
      rewrite <- Hrep. apply report_of_rows. now apply upsert_rows_other.
Qed.

Lemma webhook_leaves_usage_and_others_witness :
  snd (stripeWebhookRawHandler
         billing0 None "{}" false quotas0)
  = quotas0
  /\ exists rep',
      quotaRoute
        (snd (stripeWebhookRawHandler
                billing0 (Some (SubscriptionDeleted (Some "bob")))
                "{}" false quotas0)) "alice" = inr rep'
      /\ rp_storage_used rep' = 4000
      /\ rp_file_count rep' = 2.
Proof.
  split.
  - destruct (webhook_leaves_usage_and_others
                billing0 None "{}" false
                quotas0) as [_ [H _]].
    apply H. reflexivity.
  - destruct (webhook_leaves_usage_and_others
                billing0 (Some (SubscriptionDeleted (Some "bob")))
                "{}" false quotas0) as [_ [_ [_ [_ [_ [_ [_ H]]]]]]].
    apply (H "alice" (mkReport "free" 4000 5368709120 2 10000)).
    reflexivity.
Defined.

Example webhook_samples :
  stripeWebhookRawHandler
    billing0 (Some (SubscriptionCreated (Some "bob") (Some "business")))
    "{}" false quotas0
  = (200, quotas0 ++
          [mkQuotaRecord (Some "business")
             (mkQuota "bob" None (Some 2199023255552) None
                      (Some 1000000))])%list
  /\ stripeWebhookRawHandler
       billing0 (Some (SubscriptionDeleted (Some "alice")))
       "{}" false
       [mkQuotaRecord (Some "pro")
          (mkQuota "alice" (Some 7) (Some 214748364800) (Some 1)
                   (Some 100000))]
     = (200, [mkQuotaRecord (Some "free")
                (mkQuota "alice" (Some 7) (Some 5368709120) (Some 1)
                         (Some 10000))])
  /\ stripeWebhookRawHandler
       billing0 (Some (SubscriptionCreated (Some "bob") (Some "gold")))
       "{}" false quotas0
     = (200, quotas0).
Proof. repeat split; reflexivity. Qed.

(** ** The size limit in front of the upload routes *)

Lemma upload_single_parsed (part file : option Upload) :
  upload_single part = Parsed file ->
  file = part /\ forall f, part = Some f -> size f < 100 * 1024 * 1024.
Proof.
  unfold upload_single. destruct part as [f|].
  - destruct (Z.leb_spec MAX_FILE_SIZE (size f)) as [|Hlt]; [discriminate|].
    intros H. injection H as <-. split; [reflexivity|].
    intros g Hg. injection Hg as <-. exact Hlt.
  - intros H. injection H as <-. split; [reflexivity|discriminate].
Qed.

(** X30.  The size limit of multer in front of POST /upload and POST
    /:id/versions.  A file part of 100 MiB or more is answered 500
    "Something went wrong!" by both routes, whoever the caller and
    whatever the file id, and the store stays as it was.  Conversely what
    the two routes record is below the limit: the file row POST /upload
    returns with 200 and the version row POST /:id/versions returns with
    200 are in the store afterwards and carry a size below 100 MiB. *)
Theorem oversize_uploads_never_stored :
  forall env userId fileId part parentId w,
    (forall f,
        part = Some f -> 100 * 1024 * 1024 <= size f ->
        uploadEndpoint env userId part parentId w
        = (error_json 500 "Something went wrong!", w)
        /\ createVersionEndpoint env userId fileId part w
           = (error_json 500 "Something went wrong!", w))
    /\ (forall message row,
           fst (uploadEndpoint env userId part parentId w)
           = json (JFile message row) ->
           f_size row < 100 * 1024 * 1024
           /\ In row (files (snd (uploadEndpoint env userId part parentId w))))
    /\ (forall message v,
           fst (createVersionEndpoint env userId fileId part w)
           = json (JVersion message v) ->
           v_size v < 100 * 1024 * 1024
           /\ In v (file_versions
                      (snd (createVersionEndpoint env userId fileId part w)))).
Proof.
  intros env userId fileId part parentId w. split; [|split].
  - intros f -> Hbig. unfold uploadEndpoint, createVersionEndpoint.
    unfold upload_single.
    destruct (Z.leb_spec MAX_FILE_SIZE (size f)) as [_|Hlt];
      [now split|unfold MAX_FILE_SIZE in Hlt; lia].
  - intros message row. unfold uploadEndpoint.
    destruct (upload_single part) as [|file] eqn:Hm;
      [cbn [fst]; discriminate|].
    destruct (upload_single_parsed part file Hm) as [-> Hsmall].
    destruct (upload_cases env userId part parentId w)
      as [[Hnot _]|[f [Hf [_ [_ Hrun]]]]].
    + intros Heq. rewrite Heq in Hnot. now contradiction Hnot.
    + rewrite Hrun. cbv zeta. cbn [fst snd]. intros Heq.
      injection Heq as _ <-. cbn [f_size]. split; [now apply Hsmall|].
      cbn [add_emitted set_files files]. apply in_or_app. right. now left.
  - intros message v. unfold createVersionEndpoint.
    destruct (upload_single part) as [|blob] eqn:Hm;
      [cbn [fst]; discriminate|].
    destruct (upload_single_parsed part blob Hm) as [-> Hsmall].
    intros Heq.
    assert (H200 : status (fst (createVersionRoute env userId fileId part w))
                   = 200) by now rewrite Heq.
    destruct (createVersion_run env userId fileId part w H200)
      as [b [f [Hb [_ [_ Hrun]]]]].
    rewrite Hrun in Heq |- *. cbv zeta in Heq |- *. cbn [fst snd] in Heq |- *.
    injection Heq as _ <-. cbn [v_size]. split; [now apply Hsmall|].
    cbn [add_emitted set_files set_file_versions file_versions].
    apply in_or_app. right. now left.
Qed.

Lemma oversize_uploads_never_stored_witness :
  uploadEndpoint env0 "alice"
    (Some (mkUpload "big.iso" "application/octet-stream" 209715200 "..."))
    None world0
  = (error_json 500 "Something went wrong!", world0)
  /\ createVersionEndpoint env0 "bob" "f1"
       (Some (mkUpload "big.iso" "application/octet-stream" 104857600 "..."))
       world0
     = (error_json 500 "Something went wrong!", world0).
Proof.
  split.
  - destruct (oversize_uploads_never_stored env0 "alice" "f1"
                (Some (mkUpload "big.iso" "application/octet-stream"
                                209715200 "..."))
                None world0) as [Hbig _].
    destruct (Hbig _ eq_refl) as [Hup _]; [vm_compute; discriminate|].
    exact Hup.
  - destruct (oversize_uploads_never_stored env0 "bob" "f1"
                (Some (mkUpload "big.iso" "application/octet-stream"
                                104857600 "..."))
                None world0) as [Hbig _].
    destruct (Hbig _ eq_refl) as [_ Hver]; [vm_compute; discriminate|].
    exact Hver.
Defined.

Example upload_endpoint_samples :
  status (fst (uploadEndpoint env0 "alice" (Some ten_bytes) None world0)) = 200
  /\ status (fst (uploadEndpoint env0 "alice" None None world0)) = 400
  /\ status (fst (createVersionEndpoint env0 "bob" "f1" (Some ten_bytes)
                                        world0)) = 404
  /\ status (fst (createVersionEndpoint env0 "alice" "f1"
                     (Some (mkUpload "r.pdf" "application/pdf" 104857599
                                     "..."))
                     world0)) = 200.
Proof. repeat split; reflexivity. Qed.
